(** * azusa.supabase: retrieval, ingestion and chat orchestration

    A shallow embedding of the edge functions, the embedding worker and the
    SQL search function of the repository, and the properties checked
    against them.

    Conventions used throughout.
    - Text is [string] (a sequence of bytes); UUIDs are strings.
    - SQL [float] and JS [number] values are exact rationals [Q]: the
      comparisons of the code are kept, rounding and NaN are not modelled.
    - A call that can fail (a Supabase query, a provider call, a [throw])
      returns a [result]; the failure carries the error message.
    - A table is the list of its rows in storage order. *)

From Stdlib Require Import List String Ascii ZArith QArith Qminmax Bool Lia Lqa.
From Stdlib Require Import Permutation Sorted.
From Stdlib Require Import NArith DecimalString.
Import ListNotations.

Open Scope string_scope.

(** ** Fallible computations *)

Inductive result (A : Type) : Type :=
| Ok (a : A)
| Err (message : string).
Arguments Ok {A} a.
Arguments Err {A} message.

Definition bind {A B : Type} (r : result A) (k : A -> result B) : result B :=
  match r with
  | Ok a => k a
  | Err m => Err m
  end.

Notation "x <- r ;; k" := (bind r (fun x => k))
  (at level 61, r at next level, right associativity).

Definition uuid := string.

(** JS truthiness of a string: the empty string is falsy. *)
Definition truthy (s : string) : bool :=
  match s with
  | EmptyString => false
  | String _ _ => true
  end.

(** JS [a || b] on strings. *)
Definition js_or (a b : string) : string := if truthy a then a else b.

(** [xs.join(sep)] *)
Fixpoint join (sep : string) (xs : list string) : string :=
  match xs with
  | [] => ""
  | [x] => x
  | x :: rest => x ++ sep ++ join sep rest
  end.

(** PostgREST [.single()]: the data when exactly one row matched, an error
    otherwise. *)
Definition single {A : Type} (rows : list A) : result A :=
  match rows with
  | [r] => Ok r
  | _ => Err "JSON object requested, multiple (or no) rows returned"
  end.

Definition Qlt_bool (x y : Q) : bool := negb (Qle_bool y x).

Definition mem (x : string) (xs : list string) : bool :=
  existsb (String.eqb x) xs.

(** ** The knowledge tables (initial_schema.sql) *)

Module Schema.

Inductive file_status := pending | processing | completed | failed.

Definition file_status_eqb (a b : file_status) : bool :=
  match a, b with
  | pending, pending | processing, processing
  | completed, completed | failed, failed => true
  | _, _ => false
  end.

(** A JSON value as far as the metadata column needs it. *)
Inductive json :=
| JStr (s : string)
| JNum (n : Z).

Definition metadata := list (string * json).

Definition vector := list Q.

Record knowledge_file := {
  file_id_of : uuid;
  file_knowledge_base_id : uuid;
  file_path : string;
  file_name : string;
  file_size : option Z;
  file_type : option string;
  status : file_status;
  error_message : option string;
  created_at : Z
}.

Record knowledge_document := {
  id : uuid;
  knowledge_base_id : uuid;
  file_id : option uuid;
  content : string;
  doc_metadata : metadata;
  embedding : option vector
}.

End Schema.

(** ** Retrieval: [match_knowledge_documents] and POST /knowledge/search *)

Module Retrieval.
Import Schema.

(** One row of the function's RETURNS TABLE. *)
Record match_row := {
  m_id : uuid;
  m_knowledge_base_id : uuid;
  m_content : string;
  m_metadata : metadata;
  m_similarity : option Q
}.

Section Search.
(** pgvector's [<=>] (cosine distance) is supplied by the store. *)
Variable cosine_distance : vector -> vector -> Q.

(** [kd.embedding <=> query_embedding]; NULL for a NULL embedding. *)
Definition distance (query_embedding : vector) (kd : knowledge_document)
  : option Q :=
  option_map (fun e => cosine_distance e query_embedding) (embedding kd).

(** [1 - (kd.embedding <=> query_embedding)] *)
Definition similarity (query_embedding : vector) (kd : knowledge_document)
  : option Q :=
  option_map (fun d => 1 - d) (distance query_embedding kd).

(** The WHERE clause; a NULL comparison does not select the row. *)
Definition where_clause (query_embedding : vector)
    (knowledge_base_ids : list uuid) (match_threshold : Q)
    (kd : knowledge_document) : bool :=
  mem (knowledge_base_id kd) knowledge_base_ids
  && match similarity query_embedding kd with
     | Some s => Qlt_bool match_threshold s
     | None => false
     end.

(** ORDER BY ... ASC: ascending distance, NULLs last. *)
Definition key_le (a b : option Q) : bool :=
  match a, b with
  | Some x, Some y => Qle_bool x y
  | Some _, None => true
  | None, Some _ => false
  | None, None => true
  end.

Fixpoint insert_by (q : vector) (kd : knowledge_document)
    (sorted : list knowledge_document) : list knowledge_document :=
  match sorted with
  | [] => [kd]
  | x :: rest =>
      if key_le (distance q kd) (distance q x)
      then kd :: sorted
      else x :: insert_by q kd rest
  end.

(** Rows of equal distance keep their storage order; Postgres leaves
    the order of ties open. *)
Definition order_by (q : vector) (rows : list knowledge_document)
  : list knowledge_document :=
  fold_right (insert_by q) [] rows.

Definition select_row (q : vector) (kd : knowledge_document) : match_row :=
  {| m_id := id kd;
     m_knowledge_base_id := knowledge_base_id kd;
     m_content := content kd;
     m_metadata := doc_metadata kd;
     m_similarity := similarity q kd |}.

(** LIMIT n: Postgres rejects a negative count. *)
Definition limit {A : Type} (match_count : Z) (rows : list A)
  : result (list A) :=
  if (match_count <? 0)%Z
  then Err "LIMIT must not be negative"
  else Ok (firstn (Z.to_nat match_count) rows).

Definition match_knowledge_documents (query_embedding : vector)
    (knowledge_base_ids : list uuid) (match_threshold : Q)
    (match_count : Z) (table : list knowledge_document)
  : result (list match_row) :=
  rows <- limit match_count
            (order_by query_embedding
               (filter (where_clause query_embedding knowledge_base_ids
                          match_threshold) table)) ;;
  Ok (map (select_row query_embedding) rows).

(** The order of the rows, read on the distance and on the similarity:
    [a] is at most as far from the query as [b]; [a] is at least as
    similar to it as [b]. *)
Definition ascending (q : vector) (a b : knowledge_document) : Prop :=
  key_le (distance q a) (distance q b) = true.

Definition descending (q : vector) (a b : knowledge_document) : Prop :=
  exists x y, similarity q a = Some x /\ similarity q b = Some y /\ y <= x.

(** Two rows equally far from the query, and rows of which no two are:
    the order of a search among these is then fixed by the distances, and
    does not rest on what the database does with ties. *)
Definition tied (q : vector) (a b : knowledge_document) : Prop :=
  key_le (distance q a) (distance q b) = true
  /\ key_le (distance q b) (distance q a) = true.

Definition distinct_distances (q : vector) (rows : list knowledge_document)
  : Prop :=
  ForallOrdPairs (fun a b => ~ tied q a b) rows.

(** The rows a search keeps before LIMIT. *)
Definition survivors (q : vector) (ids : list uuid) (t : Q)
    (table : list knowledge_document) : list knowledge_document :=
  order_by q (filter (where_clause q ids t) table).

(** *** The search endpoint (functions/knowledge/index.ts) *)

(** The JSON body as sent; an absent key is [None]. *)
Record search_body := {
  body_query : string;
  body_knowledgeBaseIds : list string;
  body_threshold : option Q;
  body_limit : option Q
}.

(** The value of [c.req.valid("json")]. *)
Record search_input := {
  query : string;
  knowledgeBaseIds : list string;
  threshold : Q;
  limit_of : Q
}.

(** zod's [.optional().default(d)] *)
Definition with_default (d : Q) (v : option Q) : Q :=
  match v with
  | Some x => x
  | None => d
  end.

Definition searchKnowledgeSchema (b : search_body) : option search_input :=
  if (1 <=? String.length (body_query b))%nat
     && (1 <=? List.length (body_knowledgeBaseIds b))%nat
  then Some {| query := body_query b;
               knowledgeBaseIds := body_knowledgeBaseIds b;
               threshold := with_default 0.5 (body_threshold b);
               limit_of := with_default 5 (body_limit b) |}
  else None.

(** The database casts the JSON number bound to [match_count int]: a
    number with a fraction is no integer, and an integer outside the 32
    bits of [int] is out of range. *)
Definition to_int (n : Q) : result Z :=
  if (Z.rem (Qnum n) (Zpos (Qden n)) =? 0)%Z
  then
    let z := (Qnum n / Zpos (Qden n))%Z in
    if ((-2147483648 <=? z) && (z <=? 2147483647))%Z
    then Ok z
    else Err "value out of range for type integer"
  else Err "invalid input syntax for type integer".

Record document_out := {
  out_id : uuid;
  out_content : string;
  out_similarity : option Q;
  out_metadata : metadata
}.

Inductive response :=
| Json200 (documents : list document_out)
| Json400 (code : string)
| Json500 (message : string).

(** What the handler reaches outside: the embedding provider, the table
    the RPC reads, and the database's reading of a text as a uuid (the
    uuid it denotes, [None] when the text is no uuid). *)
Record search_env := {
  embedQuery : string -> result vector;
  knowledge_documents : list knowledge_document;
  uuid_in : string -> option uuid
}.

(** The database casts the JSON strings bound to
    [knowledge_base_ids uuid[]]. *)
Fixpoint to_uuids (env : search_env) (ids : list string) : result (list uuid) :=
  match ids with
  | [] => Ok []
  | i :: rest =>
      match uuid_in env i with
      | Some u => us <- to_uuids env rest ;; Ok (u :: us)
      | None => Err "invalid input syntax for type uuid"
      end
  end.

(** The arguments of [supabase.rpc("match_knowledge_documents", ...)]. *)
Record rpc_args := {
  arg_query_embedding : vector;
  arg_match_threshold : Q;
  arg_match_count : Q;
  arg_knowledge_base_ids : list uuid
}.

Definition rpc (env : search_env) (a : rpc_args) : result (list match_row) :=
  n <- to_int (arg_match_count a) ;;
  ids <- to_uuids env (arg_knowledge_base_ids a) ;;
  match_knowledge_documents (arg_query_embedding a)
    ids (arg_match_threshold a) n
    (knowledge_documents env).

Definition search_rpc_args (input : search_input) (queryEmbedding : vector)
  : rpc_args :=
  {| arg_query_embedding := queryEmbedding;
     arg_match_threshold := threshold input;
     arg_match_count := limit_of input;
     arg_knowledge_base_ids := knowledgeBaseIds input |}.

Definition to_out (doc : match_row) : document_out :=
  {| out_id := m_id doc;
     out_content := m_content doc;
     out_similarity := m_similarity doc;
     out_metadata := m_metadata doc |}.

Definition search_handler (env : search_env) (b : search_body) : response :=
  match searchKnowledgeSchema b with
  | None => Json400 "VALIDATION_ERROR"
  | Some body =>
      match (queryEmbedding <- embedQuery env (query body) ;;
             rpc env (search_rpc_args body queryEmbedding)) with
      | Ok documents => Json200 (map to_out documents)
      | Err _ => Json500 "Vector search failed"
      end
  end.

End Search.

End Retrieval.

(** ** Tools offered to the agent (functions/chats/service.ts) *)

Module Tools.
Import Schema.

(** *** Text matching of [.ilike("content", pattern)] *)

Definition lower_ascii (c : ascii) : ascii :=
  let n := nat_of_ascii c in
  if ((65 <=? n) && (n <=? 90))%nat then ascii_of_nat (n + 32) else c.

Fixpoint toLowerCase (s : string) : string :=
  match s with
  | EmptyString => EmptyString
  | String c rest => String (lower_ascii c) (toLowerCase rest)
  end.

(** PostgREST reads [*] in a like pattern as [%]. *)
Fixpoint star_to_percent (s : string) : string :=
  match s with
  | EmptyString => EmptyString
  | String c rest =>
      String (if Ascii.eqb c "*" then "%"%char else c) (star_to_percent rest)
  end.

(** SQL LIKE: [%] any run of characters, [_] one character, a backslash
    takes the next character literally. *)
Fixpoint like (pattern : string) : string -> bool :=
  match pattern with
  | EmptyString => fun text => match text with EmptyString => true | _ => false end
  | String p rest =>
      if Ascii.eqb p "%" then
        fix skip (text : string) : bool :=
          like rest text
          || match text with
             | EmptyString => false
             | String _ text' => skip text'
             end
      else if Ascii.eqb p "_" then
        fun text =>
          match text with
          | EmptyString => false
          | String _ text' => like rest text'
          end
      else if Ascii.eqb p "\" then
        match rest with
        | EmptyString => fun _ => false
        | String q rest' =>
            fun text =>
              match text with
              | EmptyString => false
              | String c text' => Ascii.eqb q c && like rest' text'
              end
        end
      else
        fun text =>
          match text with
          | EmptyString => false
          | String c text' => Ascii.eqb p c && like rest text'
          end
  end.

Definition ilike (text pattern : string) : bool :=
  like (toLowerCase (star_to_percent pattern)) (toLowerCase text).




(** *** The world a tool call runs in *)

(** A value thrown inside plugin code: an [Error] has a [message]; for
    any value [String(err)] is defined. *)
Record thrown := {
  err_message : option string;
  err_to_string : string
}.

(** What [await fn(args)] does inside the worker, with the time in
    milliseconds it takes. A value is kept as its JSON text. [Throws] is
    a throw inside the awaited call, which the script's [catch] gets;
    [Crashes] is an error outside it (a throw in a timer callback the
    code has set, say), which the worker reports as an error event. *)
Inductive plugin_run :=
| Returns (elapsed : N) (value : string)
| Throws (elapsed : N) (err : thrown)
| Crashes (elapsed : N) (message : string)
| Hangs.

Record world := {
  knowledge_documents : list knowledge_document;
  select_error : option string;
  run_code : string -> string -> plugin_run
}.

(** *** [runPluginInSandbox] *)

Inductive worker_event :=
| Message (ok : bool) (payload : string)
| ErrorEvent (message : string).

(** The worker script: [try { postMessage({ok: true, result}) }
    catch (err) { postMessage({ok: false, error: err?.message || String(err)}) }]. *)
Definition worker_script (run : plugin_run) : option (N * worker_event) :=
  match run with
  | Returns t v => Some (t, Message true v)
  | Throws t err =>
      Some (t, Message false
                 (js_or (match err_message err with Some m => m | None => "" end)
                        (err_to_string err)))
  | Crashes t m => Some (t, ErrorEvent m)
  | Hangs => None
  end.

Definition timeout_ms : N := 5000.

Inductive worker_state := Running | Terminated.

(** The process that called the sandbox. *)
Inductive host_state := Alive | Dead.

(** A call consumed to its end: how the promise settled, and what became
    of the worker and of the calling process. *)
Record sandbox_run := {
  settled : result string;
  worker : worker_state;
  host : host_state
}.

(** The promise settles on the first of: the timer, [onmessage],
    [onerror]. Each handler terminates the worker. An event of the worker
    that is not strictly earlier than the timer loses to it. [onerror]
    rejects the promise but never calls [preventDefault()] on the event:
    the runtime then takes the worker's error for an uncaught error of
    the caller, and the calling process ends. *)
Definition runPluginInSandbox (w : world) (pluginCode args : string)
  : sandbox_run :=
  let timed_out :=
    {| settled := Err "Plugin execution timed out";
       worker := Terminated; host := Alive |} in
  match worker_script (run_code w pluginCode args) with
  | Some (t, event) =>
      if (t <? timeout_ms)%N then
        match event with
        | Message true payload =>
            {| settled := Ok payload; worker := Terminated; host := Alive |}
        | Message false payload =>
            {| settled := Err (js_or payload "Plugin execution failed");
               worker := Terminated; host := Alive |}
        | ErrorEvent m =>
            {| settled := Err m; worker := Terminated; host := Dead |}
        end
      else timed_out
  | None => timed_out
  end.

(** *** Tool construction *)

Record plugin := {
  plugin_name : string;
  plugin_description : string;
  plugin_code : string
}.

(** A langchain tool: its name, description and callback. The callback
    gets the validated arguments (the query, or the JSON text of the
    plugin arguments); an [Err] is an exception that leaves it. *)
Record tool := {
  name : string;
  description : string;
  func : world -> string -> result string
}.

(** [.from("knowledge_documents").select("content")
     .in("knowledge_base_id", kbIds).ilike("content", pattern).limit(n)] *)
Definition select_content (w : world) (kbIds : list uuid) (pattern : string)
    (n : nat) : result (list string) :=
  match select_error w with
  | Some e => Err e
  | None =>
      Ok (map content
            (firstn n
               (filter (fun d => mem (knowledge_base_id d) kbIds
                                 && ilike (content d) pattern)
                       (knowledge_documents w))))
  end.

Definition rag_callback (kbIds : list uuid) (w : world) (query : string)
  : result string :=
  let attempt :=
    if (List.length kbIds =? 0)%nat then Ok "No linked knowledge bases."
    else
      data <- select_content w kbIds ("%" ++ query ++ "%") 5 ;;
      if (List.length data =? 0)%nat
      then Ok "No relevant information found."
      else Ok (join (String "010" (String "010" "")) data) in
  match attempt with
  | Ok text => Ok text
  | Err message => Ok ("Error searching knowledge base: " ++ message)
  end.

Definition createRAGTool (kbIds : list uuid) : tool :=
  {| name := "search_knowledge_base";
     description := "Search for information in the knowledge base. Use this when the user asks questions about specific documents or domain knowledge.";
     func := rag_callback kbIds |}.

Definition createPluginTool (p : plugin) : tool :=
  {| name := plugin_name p;
     description := plugin_description p;
     func := fun w args =>
       match settled (runPluginInSandbox w (plugin_code p) args) with
       | Ok value => Ok value
       | Err message =>
           Ok ("Error executing plugin " ++ plugin_name p ++ ": " ++ message)
       end |}.

(** The tool list assembled by [streamMessage]. *)
Definition build_tools (kbIds : list uuid) (plugins : list plugin) : list tool :=
  ((if (0 <? List.length kbIds)%nat then [createRAGTool kbIds] else [])
   ++ map createPluginTool plugins)%list.

End Tools.

(** ** Document ingestion *)

(** What the upload handler and the worker share: documents, blobs and the
    libraries they call. *)
Module Ingestion.
Import Schema.

Record Document := {
  pageContent : string;
  doc_meta : metadata
}.

Record Blob := {
  blob_type : string;
  blob_text : string
}.

Inductive extractor :=
| WebPDFLoader
| DocxLoader
| CSVLoader
| JSONLoader
| TextLoader.

(** The libraries and services behind the pipeline. A failure carries
    the text [String(e)] of the error. *)
Record env := {
  download : string -> result Blob;
  load : extractor -> Blob -> result (list Document);
  html_to_text : string -> string;
  splitDocuments : Document -> list Document;
  embedDocuments : list string -> result (list vector);
  insert_error : option string;
  gen_random_uuid : nat -> uuid
}.

Record store := {
  knowledge_files : list knowledge_file;
  knowledge_documents : list knowledge_document
}.

Definition endsWith (s suffix : string) : bool :=
  let n := String.length s in
  let m := String.length suffix in
  (m <=? n)%nat && String.eqb (substring (n - m) m s) suffix.

Definition startsWith (s p : string) : bool := String.prefix p s.

(** [{...m, key: value}] *)
Definition assign (m : metadata) (key : string) (value : json) : metadata :=
  (filter (fun kv => negb (String.eqb (fst kv) key)) m ++ [(key, value)])%list.

(** [{...a, ...b}] *)
Definition spread (a b : metadata) : metadata :=
  fold_left (fun acc kv => assign acc (fst kv) (snd kv)) b a.

Definition set_status (s : file_status) (f : knowledge_file) : knowledge_file :=
  {| file_id_of := file_id_of f;
     file_knowledge_base_id := file_knowledge_base_id f;
     file_path := file_path f;
     file_name := file_name f;
     file_size := file_size f;
     file_type := file_type f;
     status := s;
     error_message := error_message f;
     created_at := created_at f |}.

Definition set_error_message (m : string) (f : knowledge_file) : knowledge_file :=
  {| file_id_of := file_id_of f;
     file_knowledge_base_id := file_knowledge_base_id f;
     file_path := file_path f;
     file_name := file_name f;
     file_size := file_size f;
     file_type := file_type f;
     status := status f;
     error_message := Some m;
     created_at := created_at f |}.

(** [.from("knowledge_files").update(change).eq("id", id)]; the code
    never looks at the outcome of an update. *)
Definition update_file (change : knowledge_file -> knowledge_file)
    (file : uuid) (s : store) : store :=
  {| knowledge_files :=
       map (fun f => if String.eqb (file_id_of f) file then change f else f)
           (knowledge_files s);
     knowledge_documents := knowledge_documents s |}.

(** [.from("knowledge_documents").insert(rows)]: all rows or none. *)
Definition insert_documents (e : env) (rows : list knowledge_document)
    (s : store) : result store :=
  match insert_error e with
  | Some m => Err m
  | None =>
      Ok {| knowledge_files := knowledge_files s;
            knowledge_documents := (knowledge_documents s ++ rows)%list |}
  end.

Fixpoint indexed {A : Type} (from : nat) (xs : list A) : list (nat * A) :=
  match xs with
  | [] => []
  | x :: rest => (from, x) :: indexed (S from) rest
  end.

(** [splitDocs.map((splitDoc, index) => ({...}))] *)
Definition documentsToInsert (e : env) (s : store) (kb file : uuid)
    (splitDocs : list Document) (vectors : list vector)
  : list knowledge_document :=
  map (fun ix =>
         let index := fst ix in
         let splitDoc := snd ix in
         {| id := gen_random_uuid e (List.length (knowledge_documents s) + index);
            knowledge_base_id := kb;
            file_id := Some file;
            content := pageContent splitDoc;
            doc_metadata :=
              assign (assign (doc_meta splitDoc)
                             "chunkIndex" (JNum (Z.of_nat index)))
                     "totalChunks" (JNum (Z.of_nat (List.length splitDocs)));
            embedding := nth_error vectors index |})
      (indexed 0 splitDocs).

Definition totalContent (parsedDocs : list Document) : string :=
  join (String "010" (String "010" "")) (map pageContent parsedDocs).

(** From the parsed documents to the rows to insert: join, split, embed.
    [base] is the metadata of the joined document. *)
Definition chunk_and_embed (e : env) (s : store) (kb file : uuid)
    (base : metadata) (parsedDocs : list Document)
  : result (list knowledge_document) :=
  let total := totalContent parsedDocs in
  if (String.length total =? 0)%nat
  then Err "Error: No content to process after parsing"
  else
    let doc := {| pageContent := total;
                  doc_meta := assign base "pageCount"
                                (JNum (Z.of_nat (List.length parsedDocs))) |} in
    let splitDocs := splitDocuments e doc in
    if (List.length splitDocs =? 0)%nat
    then Err "Error: No content to process after splitting"
    else
      vectors <- embedDocuments e (map pageContent splitDocs) ;;
      Ok (documentsToInsert e s kb file splitDocs vectors).

End Ingestion.

(** *** The upload handler's background task (functions/knowledge/index.ts) *)

Module KnowledgeApi.
Import Schema Ingestion Tools.

Definition parseFileContent (e : env) (content : Blob)
    (fileType fileName : string) : result (list Document) :=
  let mimeType := toLowerCase fileType in
  if String.eqb mimeType "application/pdf" || endsWith fileName ".pdf"
  then load e WebPDFLoader content
  else if String.eqb mimeType
            "application/vnd.openxmlformats-officedocument.wordprocessingml.document"
          || endsWith fileName ".docx"
  then load e DocxLoader content
  else if String.eqb mimeType
            "application/vnd.openxmlformats-officedocument.presentationml.presentation"
          || endsWith fileName ".pptx"
  then Err "Error: 不支持 .pptx 格式"
  else if String.eqb mimeType "text/csv" || endsWith fileName ".csv"
  then load e CSVLoader content
  else if String.eqb mimeType "application/json" || endsWith fileName ".json"
  then load e JSONLoader content
  else if String.eqb mimeType "application/msword" || endsWith fileName ".doc"
  then Err "Error: 不支持 .doc 格式，请转换为 .docx 或 .pdf 后重新上传"
  else if String.eqb mimeType "application/vnd.ms-powerpoint"
          || endsWith fileName ".ppt"
  then Err "Error: 不支持 .ppt 格式"
  else if String.eqb mimeType "text/html" || endsWith fileName ".html"
  then Ok [ {| pageContent := html_to_text e (blob_text content);
               doc_meta := [("source", JStr fileName); ("type", JStr "html")] |} ]
  else load e TextLoader content.

(** The uploaded content: the text of a JSON request or a file. *)
Inductive upload :=
| Text (content : string)
| File (content : Blob).

Definition parse_upload (e : env) (content : upload) (request_meta : metadata)
    (fileName storagePath : string) : result (list Document) :=
  match content with
  | Text content =>
      Ok [ {| pageContent := content;
              doc_meta :=
                assign (assign (assign request_meta "fileName" (JStr fileName))
                               "source" (JStr storagePath))
                       "type" (JStr "text") |} ]
  | File content =>
      let fileType := js_or (blob_type content) "text/plain" in
      match parseFileContent e content fileType fileName with
      | Ok parsedDocs =>
          Ok (map (fun doc =>
                     {| pageContent := pageContent doc;
                        doc_meta :=
                          assign (assign (spread (doc_meta doc) request_meta)
                                         "fileName" (JStr fileName))
                                 "source" (JStr storagePath) |})
                  parsedDocs)
      | Err parseError => Err ("Error: 文件解析失败: " ++ parseError)
      end
  end.

(** [.update({status: "completed", chunk_count: n}).eq("id", id)]: the
    table [knowledge_files] has no column [chunk_count]
    (initial_schema.sql creates none and no migration adds one), so the
    database refuses the update as a whole and no row changes. The task
    does not look at the outcome of the update. *)
Definition update_with_chunk_count (n : Z) (file : uuid) (s : store) : store :=
  s.

Definition processDocumentTask (e : env) (content : upload)
    (request_meta : metadata) (kbId : uuid) (fileRecord : knowledge_file)
    (fileName storagePath : string) (s : store) : store :=
  let attempt :=
    parsedDocs <- parse_upload e content request_meta fileName storagePath ;;
    rows <- chunk_and_embed e s kbId (file_id_of fileRecord)
              (assign (assign request_meta "fileName" (JStr fileName))
                      "source" (JStr storagePath))
              parsedDocs ;;
    s' <- insert_documents e rows s ;;
    Ok (update_with_chunk_count (Z.of_nat (List.length rows))
          (file_id_of fileRecord) s') in
  match attempt with
  | Ok s' => s'
  | Err message =>
      update_file (fun f => set_error_message message (set_status failed f))
                  (file_id_of fileRecord) s
  end.

End KnowledgeApi.

(** *** The embedding worker *)

Module Worker.
Import Schema Ingestion Tools.

Definition parseFileContent (e : env) (content : Blob)
    (fileType fileName : string) : result (list Document) :=
  let mimeType := toLowerCase fileType in
  if String.eqb mimeType "application/pdf" || endsWith fileName ".pdf"
  then load e WebPDFLoader content
  else if String.eqb mimeType
            "application/vnd.openxmlformats-officedocument.wordprocessingml.document"
          || endsWith fileName ".docx"
  then load e DocxLoader content
  else if String.eqb mimeType "text/csv" || endsWith fileName ".csv"
  then load e CSVLoader content
  else if String.eqb mimeType "application/json" || endsWith fileName ".json"
  then load e JSONLoader content
  else if String.eqb mimeType "text/html" || endsWith fileName ".html"
  then Ok [ {| pageContent := html_to_text e (blob_text content);
               doc_meta := [("source", JStr fileName); ("type", JStr "html")] |} ]
  else load e TextLoader content.

(** [.eq("status", "pending").order("created_at", {ascending: true})
     .limit(1).single()]: the oldest pending row, the first stored among
    equally old ones; an error when there is none. *)
Fixpoint oldest (rows : list knowledge_file) : option knowledge_file :=
  match rows with
  | [] => None
  | f :: rest =>
      match oldest rest with
      | Some g => if (created_at f <=? created_at g)%Z then Some f else Some g
      | None => Some f
      end
  end.

Definition select_pending (s : store) : option knowledge_file :=
  oldest (filter (fun f => file_status_eqb (status f) pending)
                 (knowledge_files s)).

(** Where a run of [processOne] stands between two of its awaited calls. *)
Inductive phase :=
| Start
| Fetched (fileRecord : knowledge_file)
| Claimed (fileRecord : knowledge_file)
| Downloaded (fileRecord : knowledge_file) (downloaded : Blob)
| Inserted (fileRecord : knowledge_file) (chunks : nat)
| Failing (fileRecord : knowledge_file) (message : string)
| Finished.

(** The documents parsed from the downloaded blob. *)
Definition parse_downloaded (e : env) (fileRecord : knowledge_file)
    (downloaded : Blob) : result (list Document) :=
  let is_text :=
    match file_type fileRecord with
    | Some t => startsWith t "text/"
    | None => false
    end in
  if is_text then
    Ok [ {| pageContent := blob_text downloaded;
            doc_meta := [("fileName", JStr (file_name fileRecord));
                         ("source", JStr (file_path fileRecord));
                         ("type", JStr "text")] |} ]
  else
    let fileType := js_or (blob_type downloaded) "text/plain" in
    loaded <- parseFileContent e downloaded fileType (file_name fileRecord) ;;
    Ok (map (fun doc =>
               {| pageContent := pageContent doc;
                  doc_meta :=
                    assign (assign (doc_meta doc)
                                   "fileName" (JStr (file_name fileRecord)))
                           "source" (JStr (file_path fileRecord)) |})
            loaded).

(** One awaited database or storage call of [processOne], with the code
    that follows it up to the next one. *)
Definition step (e : env) (p : phase) (s : store) : phase * store :=
  match p with
  | Start =>
      match select_pending s with
      | Some fileRecord => (Fetched fileRecord, s)
      | None => (Finished, s)
      end
  | Fetched fileRecord =>
      (Claimed fileRecord,
       update_file (set_status processing) (file_id_of fileRecord) s)
  | Claimed fileRecord =>
      match download e (file_path fileRecord) with
      | Ok downloaded => (Downloaded fileRecord downloaded, s)
      | Err downloadError => (Failing fileRecord downloadError, s)
      end
  | Downloaded fileRecord downloaded =>
      let attempt :=
        parsedDocs <- parse_downloaded e fileRecord downloaded ;;
        rows <- chunk_and_embed e s (file_knowledge_base_id fileRecord)
                  (file_id_of fileRecord)
                  [("fileName", JStr (file_name fileRecord));
                   ("source", JStr (file_path fileRecord))]
                  parsedDocs ;;
        s' <- insert_documents e rows s ;;
        Ok (List.length rows, s') in
      match attempt with
      | Ok (chunks, s') => (Inserted fileRecord chunks, s')
      | Err message => (Failing fileRecord message, s)
      end
  | Inserted fileRecord _ =>
      (Finished, update_file (set_status completed) (file_id_of fileRecord) s)
  | Failing fileRecord message =>
      (Finished,
       update_file (fun f => set_error_message message (set_status failed f))
                   (file_id_of fileRecord) s)
  | Finished => (Finished, s)
  end.

Fixpoint steps (n : nat) (e : env) (p : phase) (s : store) : phase * store :=
  match n with
  | O => (p, s)
  | S n' => let (p', s') := step e p s in steps n' e p' s'
  end.

(** A whole run on its own: at most five calls follow one another. *)
Definition processOne (e : env) (s : store) : store :=
  snd (steps 5 e Start s).

(** *** Several worker processes on one database *)

(** Each worker is in some phase; a schedule names the worker whose next
    call the database serves. *)
Definition workers := list phase.

Fixpoint step_worker (e : env) (i : nat) (ws : workers) (s : store)
  : workers * store :=
  match ws, i with
  | [], _ => ([], s)
  | p :: rest, O => let (p', s') := step e p s in (p' :: rest, s')
  | p :: rest, S j =>
      let (rest', s') := step_worker e j rest s in (p :: rest', s')
  end.

Fixpoint run (e : env) (schedule : list nat) (ws : workers) (s : store)
  : workers * store :=
  match schedule with
  | [] => (ws, s)
  | i :: later =>
      let (ws', s') := step_worker e i ws s in run e later ws' s'
  end.


End Worker.

(** ** Chats (functions/chats/service.ts) *)

Module Chat.
Import Tools.

Inductive member_type := user | character.

Definition member_type_eqb (a b : member_type) : bool :=
  match a, b with
  | user, user | character, character => true
  | _, _ => false
  end.

Record chat := {
  chat_id : uuid;
  owner_id : uuid;
  chat_name : string;
  is_group : bool;
  avatar : option string;
  last_message : option string
}.

Record chat_member := {
  member_chat_id : uuid;
  member_type_of : member_type;
  profile_id : option uuid;
  character_id : option uuid;
  role : string
}.

Inductive MessageContent :=
| TextContent (text : string)
| ImageContent (url : string).

Record message := {
  message_chat_id : uuid;
  sender_type : member_type;
  sender_profile_id : option uuid;
  sender_character_id : option uuid;
  message_content : list MessageContent
}.

Record character_row := {
  character_id_of : uuid;
  character_name : string;
  bio : option string;
  origin_prompt : option string
}.

Record plugin_subscription := {
  subscriber : uuid;
  subscribed_plugin : option plugin;
  is_active : bool
}.

Record store := {
  chats : list chat;
  chat_members : list chat_member;
  messages : list message;
  characters : list character_row;
  knowledge_subscriptions : list (uuid * uuid);
  plugin_subscriptions : list plugin_subscription
}.

Definition opt_is (x : option uuid) (y : uuid) : bool :=
  match x with
  | Some v => String.eqb v y
  | None => false
  end.

(** *** [createPrivateChat] *)

(** What the database decides on an insert. *)
Record insert_env := {
  new_chat_id : uuid;
  chat_insert_error : option string;
  member_insert_error : option string
}.

Record chat_view := {
  view_id : uuid;
  view_isGroup : bool;
  view_name : string;
  view_title : string;
  view_avatar : option string;
  view_creatorId : uuid
}.

Definition view_of (c : chat) (userId : uuid) : chat_view :=
  {| view_id := chat_id c;
     view_isGroup := is_group c;
     view_name := chat_name c;
     view_title := chat_name c;
     view_avatar := avatar c;
     view_creatorId := userId |}.

(** The chat ids of the memberships of a user profile. *)
Definition user_chat_ids (s : store) (profileId : uuid) : list uuid :=
  map member_chat_id
      (filter (fun m => member_type_eqb (member_type_of m) user
                        && opt_is (profile_id m) profileId)
              (chat_members s)).

(** The search for an existing private chat; [None] sends the caller on
    to create one. A [.single()] that fails leaves its data null. *)
Definition find_existing (s : store) (profileId characterId : uuid)
  : option chat :=
  let chatIds := user_chat_ids s profileId in
  if (0 <? List.length chatIds)%nat then
    match single (filter (fun m => mem (member_chat_id m) chatIds
                                   && member_type_eqb (member_type_of m) character
                                   && opt_is (character_id m) characterId)
                         (chat_members s)) with
    | Ok existingMember =>
        match single (filter (fun c => String.eqb (chat_id c)
                                         (member_chat_id existingMember)
                                       && Bool.eqb (is_group c) false)
                             (chats s)) with
        | Ok existingChat => Some existingChat
        | Err _ => None
        end
    | Err _ => None
    end
  else None.

Record created := {
  created_chat : chat_view;
  isNew : bool
}.

Definition createPrivateChat (e : insert_env) (s : store)
    (profileId userId characterId : uuid) (name : string)
    (avatar : option string) : result created * store :=
  match find_existing s profileId characterId with
  | Some existingChat =>
      (Ok {| created_chat := view_of existingChat userId; isNew := false |}, s)
  | None =>
      match chat_insert_error e with
      | Some chatError => (Err chatError, s)
      | None =>
          let c := {| chat_id := new_chat_id e;
                      owner_id := profileId;
                      chat_name := name;
                      is_group := false;
                      avatar := avatar;
                      last_message := None |} in
          let s1 := {| chats := (chats s ++ [c])%list;
                       chat_members := chat_members s;
                       messages := messages s;
                       characters := characters s;
                       knowledge_subscriptions := knowledge_subscriptions s;
                       plugin_subscriptions := plugin_subscriptions s |} in
          match member_insert_error e with
          | Some memberError => (Err memberError, s1)
          | None =>
              let s2 :=
                {| chats := chats s1;
                   chat_members :=
                     (chat_members s1 ++
                      [ {| member_chat_id := chat_id c;
                           member_type_of := user;
                           profile_id := Some profileId;
                           character_id := None;
                           role := "owner" |};
                        {| member_chat_id := chat_id c;
                           member_type_of := character;
                           profile_id := None;
                           character_id := Some characterId;
                           role := "member" |} ])%list;
                   messages := messages s1;
                   characters := characters s1;
                   knowledge_subscriptions := knowledge_subscriptions s1;
                   plugin_subscriptions := plugin_subscriptions s1 |} in
              (Ok {| created_chat := view_of c userId; isNew := true |}, s2)
          end
      end
  end.

(** *** [streamMessage] *)

(** A chunk of [agent.stream(..., {streamMode: "messages"})]. *)
Inductive chunk :=
| StringChunk (content : string)
| OtherChunk.

Inductive history_message :=
| HumanMessage (content : list MessageContent)
| AIMessage (content : list MessageContent).

(** What the run of one message reaches outside the tables: whether the
    inserts and the subscription query fail, the tool world, and the
    agent, which yields chunks and may then throw. *)
Record stream_env := {
  user_insert_error : option string;
  subscriptions_error : option string;
  ai_insert_error : option string;
  tool_world : world;
  agent_stream :
    list tool -> string -> list history_message -> list chunk * option string
}.

Definition with_messages (s : store) (ms : list message) : store :=
  {| chats := chats s;
     chat_members := chat_members s;
     messages := ms;
     characters := characters s;
     knowledge_subscriptions := knowledge_subscriptions s;
     plugin_subscriptions := plugin_subscriptions s |}.

(** The row inserted for the user's message, and for the character's. *)
Definition user_row (chatId profileId : uuid) (msg : list MessageContent)
  : message :=
  {| message_chat_id := chatId;
     sender_type := user;
     sender_profile_id := Some profileId;
     sender_character_id := None;
     message_content := msg |}.

Definition ai_row (chatId characterId : uuid) (msg : string) : message :=
  {| message_chat_id := chatId;
     sender_type := character;
     sender_profile_id := None;
     sender_character_id := Some characterId;
     message_content := [TextContent msg] |}.

Definition saveUserMessage (e : stream_env) (s : store)
    (chatId profileId : uuid) (msg : list MessageContent) : result store :=
  match user_insert_error e with
  | Some error => Err error
  | None =>
      Ok (with_messages s (messages s ++ [user_row chatId profileId msg])%list)
  end.

Definition saveAIMessage (e : stream_env) (s : store)
    (chatId characterId : uuid) (msg : string) : result store :=
  match ai_insert_error e with
  | Some error => Err error
  | None =>
      Ok (with_messages s (messages s ++ [ai_row chatId characterId msg])%list)
  end.

Definition getSubscribedKnowledgeBaseIds (e : stream_env) (s : store)
    (characterId : uuid) : result (list uuid) :=
  match subscriptions_error e with
  | Some error => Err error
  | None =>
      Ok (filter truthy
            (map snd
               (filter (fun row => String.eqb (fst row) characterId)
                       (knowledge_subscriptions s))))
  end.

Definition getSubscribedPlugins (s : store) (userId : uuid) : list plugin :=
  flat_map (fun item =>
              match subscribed_plugin item with
              | Some p => [p]
              | None => []
              end)
           (filter (fun item => String.eqb (subscriber item) userId
                                && is_active item)
                   (plugin_subscriptions s)).

Definition or_else (o : option string) (d : string) : string :=
  match o with
  | Some v => js_or v d
  | None => d
  end.

Definition buildSystemPrompt (ai : character_row) (kbIds : list uuid)
    (plugins : list plugin) : string :=
  let lines :=
    [ "你是 " ++ character_name ai ++ "。个性签名：" ++ or_else (bio ai) "无" ++ "。";
      or_else (origin_prompt ai) "";
      "输出语言：简体中文。";
      "工具：";
      if (0 <? List.length kbIds)%nat
      then "- search_knowledge_base：检索已订阅知识库中的角色/设定/背景/关系等信息。"
      else "- 无知识库可用，无法检索角色信息。";
      if (0 <? List.length plugins)%nat
      then join (String "010" "")
             (map (fun p => "- " ++ plugin_name p ++ "：" ++ plugin_description p)
                  plugins)
      else "- 无插件可用。";
      "规则：";
      "- 角色设定、关联角色、背景细节一律通过知识库检索，不要凭空编造。";
      "- 知识库无结果时要明确说明。";
      "- 任务类请求优先使用插件；不可用则说明原因。";
      "- 回答简洁分点，避免编造来源或结果。";
      "表达：允许自然流露情绪和语气，让对话有血有肉，但内容仍需基于知识库或用户输入，不要虚构事实。" ] in
  join (String "010" "") (filter truthy lines).

(** The rows come newest first. The filter on a truthy content keeps
    every row: a content list, empty or not, is truthy. *)
Definition toChatHistory (history : list message) : list history_message :=
  map (fun msg =>
         match sender_type msg with
         | user => HumanMessage (message_content msg)
         | character => AIMessage (message_content msg)
         end)
      (rev history).

(** The character of the chat, through [.single()] and the joined row. *)
Definition ai_of_chat (s : store) (chatId : uuid) : option character_row :=
  match single (filter (fun m => String.eqb (member_chat_id m) chatId
                                 && member_type_eqb (member_type_of m) character)
                       (chat_members s)) with
  | Ok chatMember =>
      match character_id chatMember with
      | Some cid =>
          find (fun c => String.eqb (character_id_of c) cid) (characters s)
      | None => None
      end
  | Err _ => None
  end.

Definition is_space (c : ascii) : bool :=
  let n := nat_of_ascii c in
  ((n =? 32) || ((9 <=? n) && (n <=? 13)))%nat.

(** [.replace(/\s+/g, " ")] *)
Fixpoint collapse_spaces (in_run : bool) (s : string) : string :=
  match s with
  | EmptyString => EmptyString
  | String c rest =>
      if is_space c
      then if in_run then collapse_spaces true rest
           else String " " (collapse_spaces true rest)
      else String c (collapse_spaces false rest)
  end.

Definition set_last_message (chatId : uuid) (preview : string) (s : store)
  : store :=
  {| chats :=
       map (fun c =>
              if String.eqb (chat_id c) chatId
              then {| chat_id := chat_id c;
                      owner_id := owner_id c;
                      chat_name := chat_name c;
                      is_group := is_group c;
                      avatar := avatar c;
                      last_message := Some preview |}
              else c)
           (chats s);
     chat_members := chat_members s;
     messages := messages s;
     characters := characters s;
     knowledge_subscriptions := knowledge_subscriptions s;
     plugin_subscriptions := plugin_subscriptions s |}.

(** What happens during a run, in order. *)
Inductive event :=
| InsertUserMessage (ok : bool)
| ModelCall
| Yield (text : string)
| LogAgentError (message : string)
| InsertAIMessage (ok : bool)
| UpdateLastMessage.

(** A generator consumed to its end: what it yielded, whether it
    returned or threw, the last value of [fullResponse], the tables it
    leaves and its events. *)
Record run := {
  yielded : list string;
  outcome : result unit;
  response_text : string;
  final : store;
  trace : list event
}.

(** The chunk yielded by the catch block. *)
Definition error_marker (failure : option string) : list string :=
  match failure with
  | Some m => [String "010" "[Error: " ++ m ++ "]"]
  | None => []
  end.

(** The text increments of the loop body: truthy string contents. *)
Definition increments (chunks : list chunk) : list string :=
  flat_map (fun c =>
              match c with
              | StringChunk content => if truthy content then [content] else []
              | OtherChunk => []
              end)
           chunks.

Definition fullResponse_of (chunks : list chunk) : string :=
  fold_left String.append (increments chunks) "".

Definition streamMessage (e : stream_env) (s : store)
    (chatId profileId : uuid) (msg : list MessageContent) : run :=
  match saveUserMessage e s chatId profileId msg with
  | Err error =>
      {| yielded := []; outcome := Err error; response_text := "";
         final := s; trace := [InsertUserMessage false] |}
  | Ok s1 =>
      match ai_of_chat s1 chatId with
      | None =>
          {| yielded := ["No AI in this chat."]; outcome := Ok tt;
             response_text := ""; final := s1;
             trace := [InsertUserMessage true; Yield "No AI in this chat."] |}
      | Some ai =>
          match getSubscribedKnowledgeBaseIds e s1 (character_id_of ai) with
          | Err error =>
              {| yielded := []; outcome := Err error; response_text := "";
                 final := s1; trace := [InsertUserMessage true] |}
          | Ok kbIds =>
              let plugins := getSubscribedPlugins s1 profileId in
              let history :=
                firstn 20
                  (rev (filter (fun m => String.eqb (message_chat_id m) chatId)
                               (messages s1))) in
              let tools := build_tools kbIds plugins in
              let chatHistory := toChatHistory history in
              let systemPromptContent := buildSystemPrompt ai kbIds plugins in
              let (chunks, failure) :=
                agent_stream e tools systemPromptContent chatHistory in
              let fullResponse := fullResponse_of chunks in
              let caught :=
                match failure with
                | Some m =>
                    [LogAgentError m;
                     Yield (String "010" "[Error: " ++ m ++ "]")]
                | None => []
                end in
              let out := (increments chunks ++ error_marker failure)%list in
              let before :=
                (InsertUserMessage true :: ModelCall
                 :: map Yield (increments chunks) ++ caught)%list in
              if truthy fullResponse then
                match saveAIMessage e s1 chatId (character_id_of ai) fullResponse with
                | Err error =>
                    {| yielded := out; outcome := Err error;
                       response_text := fullResponse; final := s1;
                       trace := (before ++ [InsertAIMessage false])%list |}
                | Ok s2 =>
                    {| yielded := out; outcome := Ok tt;
                       response_text := fullResponse;
                       final :=
                         set_last_message chatId
                           (collapse_spaces false (substring 0 50 fullResponse))
                           s2;
                       trace :=
                         (before ++ [InsertAIMessage true; UpdateLastMessage])%list |}
                end
              else
                {| yielded := out; outcome := Ok tt;
                   response_text := fullResponse; final := s1;
                   trace := before |}
          end
      end
  end.

End Chat.

(** *** The worker's loop and what its rows carry *)

Module Queue.
Import Schema Ingestion Worker.

(** [loop]: one [processOne] per round, the sleep between two rounds
    changing nothing. The services may answer differently in each round. *)
Fixpoint loop (rounds : nat) (e : nat -> env) (s : store) : store :=
  match rounds with
  | O => s
  | S n => loop n (fun i => e (S i)) (processOne (e O) s)
  end.

Definition is_pending (f : knowledge_file) : bool :=
  file_status_eqb (status f) pending.

Definition pending_files (s : store) : list knowledge_file :=
  filter is_pending (knowledge_files s).

(** [metadata[key]] *)
Definition get (m : metadata) (key : string) : option json :=
  option_map snd (find (fun kv => String.eqb (fst kv) key) m).

(** The two ways a run leaves the file it took. *)
Definition settled_completed (f : knowledge_file) : knowledge_file :=
  set_status completed f.

Definition settled_failed (message : string) (f : knowledge_file)
  : knowledge_file :=
  set_error_message message (set_status failed f).


(** The tables after a batch of rows has been inserted. *)
Definition with_documents (s : store) (rows : list knowledge_document)
  : store :=
  {| knowledge_files := knowledge_files s;
     knowledge_documents := (knowledge_documents s ++ rows)%list |}.

End Queue.

(** *** Shapes of queries *)

Module Shapes.
Import Tools Chat.

(** A query made of [%] and [*] only; the empty query is one. *)
Fixpoint only_wildcards (q : string) : bool :=
  match q with
  | EmptyString => true
  | String c rest =>
      (Ascii.eqb c "%" || Ascii.eqb c "*") && only_wildcards rest
  end.

End Shapes.

(** *** Reading and deleting (functions/chats/service.ts)

    The queries are those of a caller the row-level policies of the
    tables let through: they read and delete every row their filters
    name. *)

Module ChatQueries.
Import Chat.

(** The joined row of a sender: [username] or [name], and [avatar]. *)
Record sender_info := {
  sender_name : string;
  sender_avatar : option string
}.

(** A row of [messages] as the select returns it, with its id, its
    timestamp and the joined profile and character of the sender. *)
Record message_record := {
  record_id : uuid;
  record_chat_id : uuid;
  record_sender_type : member_type;
  record_content : list MessageContent;
  record_created_at : Z;
  record_sender_profile : option sender_info;
  record_sender_character : option sender_info
}.

Record message_view := {
  shown_id : uuid;
  shown_chatId : uuid;
  shown_role : member_type;
  shown_content : list MessageContent;
  shown_createdAt : Z;
  shown_sender : option sender_info
}.

Definition view (msg : message_record) : message_view :=
  {| shown_id := record_id msg;
     shown_chatId := record_chat_id msg;
     shown_role := match record_sender_type msg with
                   | user => user
                   | character => character
                   end;
     shown_content := record_content msg;
     shown_createdAt := record_created_at msg;
     shown_sender := match record_sender_profile msg with
                     | Some p => Some p
                     | None => record_sender_character msg
                     end |}.

(** [.order("created_at", {ascending: false})]; rows of one timestamp
    keep their storage order. *)
Fixpoint insert_newest (m : message_record) (sorted : list message_record)
  : list message_record :=
  match sorted with
  | [] => [m]
  | x :: rest =>
      if (record_created_at x <=? record_created_at m)%Z
      then m :: sorted
      else x :: insert_newest m rest
  end.

Definition newest_first (rows : list message_record) : list message_record :=
  fold_right insert_newest [] rows.

(** [a] is at least as new as [b]; [a] is newer than [b]. *)
Definition newer_or_same (a b : message_record) : Prop :=
  (record_created_at b <= record_created_at a)%Z.

Definition newer (a b : message_record) : Prop :=
  (record_created_at b < record_created_at a)%Z.

Record page := {
  page_messages : list message_view;
  next : option Z
}.

(** [getMessages(chatId, limit, before)] for a limit that is a natural
    number; an absent or empty [before] is [None]. *)
Definition getMessages (query_error : option string)
    (table : list message_record) (chatId : uuid) (limit : nat)
    (before : option Z) : result page :=
  match query_error with
  | Some error => Err error
  | None =>
      let messages :=
        firstn limit
          (newest_first
             (filter (fun m =>
                        String.eqb (record_chat_id m) chatId
                        && match before with
                           | Some b => (record_created_at m <? b)%Z
                           | None => true
                           end)
                     table)) in
      Ok {| page_messages := rev (map view messages);
            next := if (List.length messages =? limit)%nat
                    then option_map record_created_at
                           (nth_error messages (List.length messages - 1))
                    else None |}
  end.

(** [deleteChat]: the rows of [chats] with this id and this owner go, and
    with them, by ON DELETE CASCADE, the members and messages of the chats
    deleted. *)
Definition deleteChat (delete_error : option string) (s : store)
    (chatId ownerProfileId : uuid) : result bool * store :=
  match delete_error with
  | Some error => (Err error, s)
  | None =>
      let doomed := fun c => String.eqb (chat_id c) chatId
                             && String.eqb (owner_id c) ownerProfileId in
      let gone := map chat_id (filter doomed (chats s)) in
      (Ok true,
       {| chats := filter (fun c => negb (doomed c)) (chats s);
          chat_members :=
            filter (fun m => negb (mem (member_chat_id m) gone))
                   (chat_members s);
          messages :=
            filter (fun m => negb (mem (message_chat_id m) gone))
                   (messages s);
          characters := characters s;
          knowledge_subscriptions := knowledge_subscriptions s;
          plugin_subscriptions := plugin_subscriptions s |})
  end.

End ChatQueries.

(** *** Linking knowledge bases to a character
    (rename_knowledge_subscriptions_column.sql)

    The two functions as their statements read, for a caller the
    row-level policies of [knowledge_subscriptions] let through. *)

Module Subscriptions.

(** A row of [knowledge_subscriptions]; its primary key is the pair of
    the character and the knowledge base. *)
Record subscription := {
  subscribed_character : uuid;
  subscribed_base : uuid;
  priority : Z
}.

Definition same_key (c k : uuid) (r : subscription) : bool :=
  String.eqb (subscribed_character r) c && String.eqb (subscribed_base r) k.

Definition coalesce (p : option Z) (d : Z) : Z :=
  match p with
  | Some v => v
  | None => d
  end.

(** [insert ... on conflict (character_id, knowledge_base_id)
     do update set priority = excluded.priority] *)
Definition link_knowledge_base_to_ai (table : list subscription)
    (p_character_id p_knowledge_base_id : uuid) (p_priority : option Z)
  : list subscription :=
  let excluded := {| subscribed_character := p_character_id;
                     subscribed_base := p_knowledge_base_id;
                     priority := coalesce p_priority 0 |} in
  if existsb (same_key p_character_id p_knowledge_base_id) table
  then map (fun r =>
              if same_key p_character_id p_knowledge_base_id r
              then {| subscribed_character := subscribed_character r;
                      subscribed_base := subscribed_base r;
                      priority := priority excluded |}
              else r)
           table
  else (table ++ [excluded])%list.

(** [delete from knowledge_subscriptions where character_id = ... and
     knowledge_base_id = ...] *)
Definition unlink_knowledge_base_from_ai (table : list subscription)
    (p_character_id p_knowledge_base_id : uuid) : list subscription :=
  filter (fun r => negb (same_key p_character_id p_knowledge_base_id r)) table.

(** The two columns [streamMessage] reads. *)
Definition pairs (table : list subscription) : list (uuid * uuid) :=
  map (fun r => (subscribed_character r, subscribed_base r)) table.

End Subscriptions.

(** *** Storage names (functions/knowledge/index.ts) *)

Module StorageName.

(** A JS string as its UTF-16 code units: the regular expressions of
    [makeSafeStorageFileName] read code units, and [\s] has members
    beyond ASCII. *)
Definition js_string := list N.

(** [\s], which is also what [trim] removes. *)
Definition is_white (c : N) : bool :=
  ((9 <=? c) && (c <=? 13) || (c =? 32) || (c =? 160) || (c =? 5760)
   || (8192 <=? c) && (c <=? 8202) || (c =? 8232) || (c =? 8233)
   || (c =? 8239) || (c =? 8287) || (c =? 12288) || (c =? 65279))%N.

(** [[A-Za-z0-9._-]] *)
Definition is_safe (c : N) : bool :=
  ((65 <=? c) && (c <=? 90) || (97 <=? c) && (c <=? 122)
   || (48 <=? c) && (c <=? 57) || (c =? 46) || (c =? 95) || (c =? 45))%N.

Fixpoint trimStart (s : js_string) : js_string :=
  match s with
  | [] => []
  | c :: rest => if is_white c then trimStart rest else s
  end.

Definition trim (s : js_string) : js_string :=
  rev (trimStart (rev (trimStart s))).

(** [.replace(/\s+/g, "_")] *)
Fixpoint underscore_runs (in_run : bool) (s : js_string) : js_string :=
  match s with
  | [] => []
  | c :: rest =>
      if is_white c
      then if in_run then underscore_runs true rest
           else 95%N :: underscore_runs true rest
      else c :: underscore_runs false rest
  end.

(** ["file"] *)
Definition file_word : js_string := [102; 105; 108; 101]%N.

Definition makeSafeStorageFileName (fileName : js_string) : js_string :=
  let trimmed := trim fileName in
  let replacedSpaces := underscore_runs false trimmed in
  let cleaned := filter is_safe replacedSpaces in
  if (0 <? List.length cleaned)%nat then cleaned else file_word.

End StorageName.

(** *** The preview of a response (functions/chats/service.ts) *)

Module Preview.
Import StorageName.

(** [.replace(/\s+/g, " ")] on code units; [in_run] tells that the unit
    before was whitespace. *)
Fixpoint blank_runs (in_run : bool) (s : js_string) : js_string :=
  match s with
  | [] => []
  | c :: rest =>
      if is_white c
      then if in_run then blank_runs true rest
           else 32%N :: blank_runs true rest
      else c :: blank_runs false rest
  end.

(** [fullResponse.substring(0, 50).replace(/\s+/g, " ")]: the value
    [streamMessage] gives for [last_message]. *)
Definition preview (fullResponse : js_string) : js_string :=
  blank_runs false (firstn 50 fullResponse).

(** A text whose only whitespace is single blanks: no whitespace unit
    but the blank, and no two blanks in a row. [after_blank] tells that a
    blank came just before. *)
Fixpoint single_blanks (after_blank : bool) (s : js_string) : bool :=
  match s with
  | [] => true
  | c :: rest =>
      if is_white c
      then (c =? 32)%N && negb after_blank && single_blanks true rest
      else single_blanks false rest
  end.

End Preview.

(** *** Adding a document and deleting a base
    (functions/knowledge/index.ts) *)

Module Documents.
Import Schema Ingestion StorageName Queue.

(** A row of [knowledge_bases]. *)
Record knowledge_base := {
  base_id : uuid;
  base_name : string;
  author_id : uuid;
  is_public : bool
}.

(** What the two handlers read and change: the knowledge tables, the
    links of characters to bases, and the bucket [knowledge_files] as its
    objects by path, each with the content type and the text it was
    uploaded with. *)
Record database := {
  knowledge_bases : list knowledge_base;
  tables : store;
  subscriptions : list Subscriptions.subscription;
  bucket : list (string * Blob)
}.

(** A [File] of a multipart body. *)
Record uploaded_file := {
  upload_name : string;
  upload_blob : Blob;
  upload_size : Z
}.

(** The body of the request. [multipart None]: the field [file] is absent
    or no [File]. [json_mode None]: the JSON value has no string [content]
    or a [metadata] that is no record; otherwise the content and the
    metadata, empty when absent. *)
Inductive request :=
| multipart (file : option uploaded_file)
| json_mode (body : option (string * metadata)).

(** [content: string | Blob] *)
Inductive content :=
| Text (text : string)
| FileBlob (file : uploaded_file).

(** What the handlers do not decide themselves: the rows the policies of
    the database let the request's client read and delete, the UTF-16
    code units of a text, the clock at each call of [Date.now()], the
    failures of the storage and database calls, the id and the timestamp
    the database gives a new file row, and the names the storage lists. *)
Record services := {
  can_select : knowledge_base -> bool;
  can_delete : knowledge_base -> bool;
  code_units : string -> js_string;
  Date_now : nat -> N;
  upload_error : option string;
  file_error : option string;
  new_file_id : uuid;
  db_clock : Z;
  delete_error : option string;
  list_files : result (list string);
  remove_error : option string
}.

(** A number in a template literal: its decimal digits. *)
Definition decimal (n : N) : string := NilZero.string_of_uint (N.to_uint n).

(** The text of code units below 256. *)
Definition text_of (s : js_string) : string :=
  fold_right (fun c rest => String (ascii_of_N c) rest) "" s.

Fixpoint contains_slash (s : string) : bool :=
  match s with
  | EmptyString => false
  | String c rest => Ascii.eqb c "/" || contains_slash rest
  end.

(** [.from("knowledge_bases").select("author_id").eq("id", kbId).single()] *)
Definition select_base (e : services) (db : database) (kbId : uuid)
  : result knowledge_base :=
  single (filter (fun b => can_select e b && String.eqb (base_id b) kbId)
                 (knowledge_bases db)).

(** [kb.author_id === profile?.id] *)
Definition is_author (profile : option uuid) (kb : knowledge_base) : bool :=
  match profile with
  | Some id => String.eqb (author_id kb) id
  | None => false
  end.

(** The content and the file name read from the body, with the number of
    calls of [Date.now()] made so far; [None] when the handler answers
    400. The name is whatever JSON value [metadata.fileName] holds. *)
Definition read_request (e : services) (req : request)
  : option (content * json * nat) :=
  match req with
  | multipart None => None
  | multipart (Some file) => Some (FileBlob file, JStr (upload_name file), 0%nat)
  | json_mode None => None
  | json_mode (Some (text, metadata)) =>
      if truthy text
      then
        let default := (JStr ("doc_" ++ decimal (Date_now e 0%nat) ++ ".txt"),
                        1%nat) in
        let named :=
          match get metadata "fileName" with
          | Some (JStr s) => if truthy s then (JStr s, 0%nat) else default
          | Some (JNum n) => if (n =? 0)%Z then default else (JNum n, 0%nat)
          | None => default
          end in
        Some (Text text, fst named, snd named)
      else None
  end.

(** The object handed to the storage: the body with its [contentType]. *)
Definition stored (c : content) : Blob :=
  match c with
  | FileBlob file => {| blob_type := blob_type (upload_blob file);
                        blob_text := blob_text (upload_blob file) |}
  | Text text => {| blob_type := "text/plain;charset=UTF-8";
                    blob_text := text |}
  end.

Definition with_object (db : database) (path : string) (object : Blob)
  : database :=
  {| knowledge_bases := knowledge_bases db;
     tables := tables db;
     subscriptions := subscriptions db;
     bucket := (bucket db ++ [(path, object)])%list |}.

Definition with_tables (db : database) (s : store) : database :=
  {| knowledge_bases := knowledge_bases db;
     tables := s;
     subscriptions := subscriptions db;
     bucket := bucket db |}.

(** [.from("knowledge_files").insert({...}).select().single()]: the row
    with the columns the handler gives and the defaults of the table. *)
Definition new_file (e : services) (kbId : uuid) (storagePath fileName : string)
    (c : content) : knowledge_file :=
  {| file_id_of := new_file_id e;
     file_knowledge_base_id := kbId;
     file_path := storagePath;
     file_name := fileName;
     file_size := Some match c with
                       | FileBlob file => upload_size file
                       | Text text =>
                           Z.of_nat (List.length (code_units e text))
                       end;
     file_type := Some match c with
                       | FileBlob file => blob_type (upload_blob file)
                       | Text _ => "text/plain"
                       end;
     status := pending;
     error_message := None;
     created_at := db_clock e |}.

(** The handler of POST /knowledge/bases/:id/documents. The route runs
    it after [authMiddleware] and [profileMiddleware] of
    [_shared/hono.ts], which answer themselves for a request without a
    user or a profile: [profile] is what they have set. The
    answer is the status of the response, or the error thrown;
    [upsert: false] makes the upload fail on a path that holds an
    object. *)
Definition add_document (e : services) (db : database) (profile : option uuid)
    (kbId : uuid) (req : request) : result nat * database :=
  match select_base e db kbId with
  | Err _ => (Ok 404%nat, db)
  | Ok kb =>
      if negb (is_author profile kb) then (Ok 403%nat, db)
      else
        match read_request e req with
        | None => (Ok 400%nat, db)
        | Some (c, JNum _, _) =>
            (Err "TypeError: fileName.trim is not a function", db)
        | Some (c, JStr fileName, calls) =>
            let safeFileName :=
              makeSafeStorageFileName (code_units e fileName) in
            let storagePath :=
              kbId ++ "/" ++ decimal (Date_now e calls) ++ "_"
                   ++ text_of safeFileName in
            match upload_error e with
            | Some _ => (Ok 500%nat, db)
            | None =>
                if existsb (fun o => String.eqb (fst o) storagePath) (bucket db)
                then (Ok 500%nat, db)
                else
                  let db1 := with_object db storagePath (stored c) in
                  match file_error e with
                  | Some _ => (Ok 500%nat, db1)
                  | None =>
                      let fileRecord :=
                        new_file e kbId storagePath fileName c in
                      let inserted :=
                        {| knowledge_files :=
                             (knowledge_files (tables db1) ++ [fileRecord])%list;
                           knowledge_documents :=
                             knowledge_documents (tables db1) |} in
                      (Ok 202%nat,
                       with_tables db1
                         (update_file (set_status pending)
                                      (file_id_of fileRecord) inserted))
                  end
            end
        end
  end.

(** The cleanup after a deletion: the objects the storage lists under the
    base are removed; a failure there is logged only. *)
Definition clean_storage (e : services) (kbId : uuid) (db : database)
  : database :=
  match list_files e with
  | Err _ => db
  | Ok files =>
      if (0 <? List.length files)%nat
      then
        let paths := map (fun name => kbId ++ "/" ++ name) files in
        match remove_error e with
        | Some _ => db
        | None =>
            {| knowledge_bases := knowledge_bases db;
               tables := tables db;
               subscriptions := subscriptions db;
               bucket := filter (fun o => negb (mem (fst o) paths))
                                (bucket db) |}
        end
      else db
  end.

(** The handler of DELETE /knowledge/bases/:id, which the route runs
    after the same two middlewares. The rows of [knowledge_bases] with
    this id go, and with them, by ON DELETE CASCADE, the files, the
    documents and the subscriptions of the bases deleted, and the
    documents of the files deleted. Then the storage is cleaned. *)
Definition delete_base (e : services) (db : database) (profile : option uuid)
    (kbId : uuid) : result nat * database :=
  match select_base e db kbId with
  | Err _ => (Ok 404%nat, db)
  | Ok kb =>
      if negb (is_author profile kb) then (Ok 403%nat, db)
      else
        match delete_error e with
        | Some error => (Err error, db)
        | None =>
            let doomed := fun b => String.eqb (base_id b) kbId
                                   && can_delete e b in
            let gone := map base_id (filter doomed (knowledge_bases db)) in
            let gone_files :=
              map file_id_of
                (filter (fun f => mem (file_knowledge_base_id f) gone)
                        (knowledge_files (tables db))) in
            let db1 :=
              {| knowledge_bases :=
                   filter (fun b => negb (doomed b)) (knowledge_bases db);
                 tables :=
                   {| knowledge_files :=
                        filter (fun f => negb (mem (file_knowledge_base_id f)
                                                   gone))
                               (knowledge_files (tables db));
                      knowledge_documents :=
                        filter (fun d =>
                                  negb (mem (knowledge_base_id d) gone)
                                  && negb match file_id d with
                                          | Some f => mem f gone_files
                                          | None => false
                                          end)
                               (knowledge_documents (tables db)) |};
                 subscriptions :=
                   filter (fun r => negb (mem (Subscriptions.subscribed_base r)
                                              gone))
                          (subscriptions db);
                 bucket := bucket db |} in
            (Ok 200%nat, clean_storage e kbId db1)
        end
  end.

End Documents.

(** * Concrete inputs *)

Module Examples.
Import Schema.

Fixpoint dot (a b : vector) : Q :=
  match a, b with
  | x :: a', y :: b' => x * y + dot a' b'
  | _, _ => 0
  end.

(** Cosine distance on unit vectors: one minus the dot product, the
    similarity kept within [-1, 1] as pgvector does. *)
Definition unit_cosine_distance (a b : vector) : Q :=
  1 - Qmin 1 (Qmax (-1) (dot a b)).

Definition doc (i kb text : string) (e : option vector) : knowledge_document :=
  {| id := i; knowledge_base_id := kb; file_id := None; content := text;
     doc_metadata := []; embedding := e |}.

Definition east : vector := [1; 0].

(** Similarities to [east]: 0, 0.6, 1, 1 (another base), NULL, 0.8. *)
Definition chunks : list knowledge_document :=
  [ doc "d1" "kb1" "alpha" (Some [0; 1]);
    doc "d2" "kb1" "beta" (Some [3 # 5; 4 # 5]);
    doc "d3" "kb1" "gamma" (Some [1; 0]);
    doc "d4" "kb2" "delta" (Some [1; 0]);
    doc "d5" "kb1" "epsilon" None;
    doc "d6" "kb1" "zeta" (Some [4 # 5; 3 # 5]) ].

(** The short ids of the examples that begin with "kb" stand for uuids;
    any other text is none. *)
Definition search_env : Retrieval.search_env :=
  {| Retrieval.embedQuery := fun _ => Ok east;
     Retrieval.knowledge_documents := chunks;
     Retrieval.uuid_in := fun i => if String.prefix "kb" i then Some i else None |}.

Definition body (ids : list string) (t l : option Q) : Retrieval.search_body :=
  {| Retrieval.body_query := "gamma";
     Retrieval.body_knowledgeBaseIds := ids;
     Retrieval.body_threshold := t;
     Retrieval.body_limit := l |}.

(** A JS engine for four plugin bodies; any other code never settles. *)
Definition run_code (code args : string) : Tools.plugin_run :=
  if String.eqb code "return args" then Tools.Returns 3 args
  else if String.eqb code
            "setTimeout(() => { throw new Error('late') }, 0); await new Promise(r => setTimeout(r, 100))"
  then Tools.Crashes 1 "Uncaught Error: late"
  else if String.eqb code "throw new Error('boom')"
  then Tools.Throws 2 {| Tools.err_message := Some "boom";
                         Tools.err_to_string := "Error: boom" |}
  else if String.eqb code "await new Promise(r => setTimeout(r, 6000))"
  then Tools.Returns 6000 "null"
  else Tools.Hangs.

Definition world : Tools.world :=
  {| Tools.knowledge_documents := chunks;
     Tools.select_error := None;
     Tools.run_code := run_code |}.




(** One uploaded text file waiting in the queue. *)
Definition notes : knowledge_file :=
  {| file_id_of := "f1";
     file_knowledge_base_id := "kb1";
     file_path := "kb1/1_notes.txt";
     file_name := "notes.txt";
     file_size := Some 23%Z;
     file_type := Some "text/plain";
     status := pending;
     error_message := None;
     created_at := 1%Z |}.

Definition queue : Ingestion.store :=
  {| Ingestion.knowledge_files := [notes];
     Ingestion.knowledge_documents := [] |}.

Definition notes_blob : Ingestion.Blob :=
  {| Ingestion.blob_type := "text/plain";
     Ingestion.blob_text := "first paragraph" ++ String "010" (String "010" "second") |}.

(** Services that work: the splitter cuts the notes in two chunks. *)
Definition ingestion_env : Ingestion.env :=
  {| Ingestion.download := fun _ => Ok notes_blob;
     Ingestion.load := fun _ b =>
       Ok [ {| Ingestion.pageContent := Ingestion.blob_text b;
               Ingestion.doc_meta := [] |} ];
     Ingestion.html_to_text := fun text => text;
     Ingestion.splitDocuments := fun d =>
       [ {| Ingestion.pageContent := "first paragraph";
            Ingestion.doc_meta := Ingestion.doc_meta d |};
         {| Ingestion.pageContent := "second";
            Ingestion.doc_meta := Ingestion.doc_meta d |} ];
     Ingestion.embedDocuments := fun texts => Ok (map (fun _ => east) texts);
     Ingestion.insert_error := None;
     Ingestion.gen_random_uuid := fun n => String (ascii_of_nat (48 + n)) "" |}.

(** A user and a character who share a group chat and no private chat. *)
Definition with_group : Chat.store :=
  {| Chat.chats :=
       [ {| Chat.chat_id := "g1"; Chat.owner_id := "p1";
            Chat.chat_name := "Party"; Chat.is_group := true;
            Chat.avatar := None; Chat.last_message := None |} ];
     Chat.chat_members :=
       [ {| Chat.member_chat_id := "g1"; Chat.member_type_of := Chat.user;
            Chat.profile_id := Some "p1"; Chat.character_id := None;
            Chat.role := "owner" |};
         {| Chat.member_chat_id := "g1"; Chat.member_type_of := Chat.character;
            Chat.profile_id := None; Chat.character_id := Some "c1";
            Chat.role := "member" |} ];
     Chat.messages := [];
     Chat.characters :=
       [ {| Chat.character_id_of := "c1"; Chat.character_name := "Azusa";
            Chat.bio := None; Chat.origin_prompt := None |} ];
     Chat.knowledge_subscriptions := [("c1", "kb1")];
     Chat.plugin_subscriptions := [] |}.

(** The same user and character with no chat at all. *)
Definition no_chats : Chat.store :=
  {| Chat.chats := [];
     Chat.chat_members := [];
     Chat.messages := [];
     Chat.characters := Chat.characters with_group;
     Chat.knowledge_subscriptions := [("c1", "kb1")];
     Chat.plugin_subscriptions := [] |}.

(** The group chat with a second character in it. *)
Definition crowded : Chat.store :=
  {| Chat.chats := Chat.chats with_group;
     Chat.chat_members :=
       (Chat.chat_members with_group
        ++ [ {| Chat.member_chat_id := "g1";
                Chat.member_type_of := Chat.character;
                Chat.profile_id := None; Chat.character_id := Some "c2";
                Chat.role := "member" |} ])%list;
     Chat.messages := [];
     Chat.characters :=
       (Chat.characters with_group
        ++ [ {| Chat.character_id_of := "c2"; Chat.character_name := "Hina";
                Chat.bio := None; Chat.origin_prompt := None |} ])%list;
     Chat.knowledge_subscriptions := [("c1", "kb1")];
     Chat.plugin_subscriptions := [] |}.

Definition inserting (i : uuid) : Chat.insert_env :=
  {| Chat.new_chat_id := i;
     Chat.chat_insert_error := None;
     Chat.member_insert_error := None |}.

(** The private chat of the user and the character, once created. *)
Definition private_chat : Chat.store :=
  snd (Chat.createPrivateChat (inserting "c-1") no_chats "p1" "u1" "c1"
         "Azusa" None).

(** An agent that fails before it produces anything, and one that
    produces two increments and then fails. *)
Definition stream_env (chunks : list Chat.chunk) (failure : option string)
  : Chat.stream_env :=
  {| Chat.user_insert_error := None;
     Chat.subscriptions_error := None;
     Chat.ai_insert_error := None;
     Chat.tool_world := world;
     Chat.agent_stream := fun _ _ _ => (chunks, failure) |}.

Definition hello : list Chat.MessageContent := [Chat.TextContent "hello"].

(** Four messages of chat c-1 stored out of order, and one of another
    chat. *)
Definition said (i chat : uuid) (who : Chat.member_type) (text : string)
    (at_time : Z) : ChatQueries.message_record :=
  {| ChatQueries.record_id := i;
     ChatQueries.record_chat_id := chat;
     ChatQueries.record_sender_type := who;
     ChatQueries.record_content := [Chat.TextContent text];
     ChatQueries.record_created_at := at_time;
     ChatQueries.record_sender_profile := None;
     ChatQueries.record_sender_character := None |}.

Definition talk : list ChatQueries.message_record :=
  [ said "m3" "c-1" Chat.user "and you?" 30;
    said "m1" "c-1" Chat.user "hello" 10;
    said "x1" "c-7" Chat.user "elsewhere" 15;
    said "m4" "c-1" Chat.character "fine" 40;
    said "m2" "c-1" Chat.character "hi" 20 ].

(** Two bases: kb1 of profile p1, private, with the file of the queue and
    the chunks; kb2 of profile p2, public. *)
Definition library : Documents.database :=
  {| Documents.knowledge_bases :=
       [ {| Documents.base_id := "kb1"; Documents.base_name := "Notes";
            Documents.author_id := "p1"; Documents.is_public := false |};
         {| Documents.base_id := "kb2"; Documents.base_name := "Atlas";
            Documents.author_id := "p2"; Documents.is_public := true |} ];
     Documents.tables :=
       {| Ingestion.knowledge_files := [notes];
          Ingestion.knowledge_documents := chunks |};
     Documents.subscriptions :=
       [ {| Subscriptions.subscribed_character := "c1";
            Subscriptions.subscribed_base := "kb1";
            Subscriptions.priority := 0 |};
         {| Subscriptions.subscribed_character := "c1";
            Subscriptions.subscribed_base := "kb2";
            Subscriptions.priority := 1 |} ];
     Documents.bucket := [("kb1/1_notes.txt", notes_blob)] |}.

(** The code units of an ASCII text. *)
Definition ascii_units (s : string) : StorageName.js_string :=
  map N_of_ascii (list_ascii_of_string s).

(** Policies that show and let delete every base, a storage that works,
    and a database whose insert of the file row fails or not. *)
Definition services (file_error : option string) : Documents.services :=
  {| Documents.can_select := fun _ => true;
     Documents.can_delete := fun _ => true;
     Documents.code_units := ascii_units;
     Documents.Date_now := fun n => (1700000000000 + N.of_nat n)%N;
     Documents.upload_error := None;
     Documents.file_error := file_error;
     Documents.new_file_id := "f2";
     Documents.db_clock := 2;
     Documents.delete_error := None;
     Documents.list_files := Ok ["1_notes.txt"];
     Documents.remove_error := None |}.

(** A JSON body with a text and a file name that tries to leave the
    folder of the base. *)
Definition memo : Documents.request :=
  Documents.json_mode
    (Some ("tea at five", [("fileName", JStr "../kb2/memo 1.txt")])).

End Examples.

(** * Properties *)

(** ** Shared facts *)

(** Splits a conjunction into its parts, leaving equivalences and
    implications whole. *)
Ltac parts :=
  repeat match goal with
         | |- _ /\ _ => split
         end.

Lemma Qlt_bool_iff (x y : Q) : Qlt_bool x y = true <-> x < y.
Proof.
  unfold Qlt_bool. rewrite negb_true_iff.
  destruct (Qle_bool y x) eqn:E.
  - apply Qle_bool_iff in E. split; [discriminate | intro H].
    exfalso. apply (Qlt_not_le _ _ H E).
  - split; [intros _ | reflexivity].
    apply Qnot_le_lt. intro H. apply Qle_bool_iff in H. congruence.
Qed.

Lemma mem_In (x : string) (xs : list string) : mem x xs = true <-> In x xs.
Proof.
  unfold mem. rewrite existsb_exists. split.
  - intros [y [Hy E]]. apply String.eqb_eq in E. now subst.
  - intro H. exists x. split; [assumption | apply String.eqb_refl].
Qed.

Lemma StronglySorted_weaken {A : Type} (R R' : A -> A -> Prop) (P : A -> Prop)
    (l : list A) :
  (forall a b, P a -> P b -> R a b -> R' a b) ->
  Forall P l -> StronglySorted R l -> StronglySorted R' l.
Proof.
  intros HR HP HS. induction HS as [| a l HS IH Ha]; constructor.
  - apply IH. now inversion HP.
  - inversion HP as [| ? ? Pa Pl]; subst.
    rewrite Forall_forall in *. intros b Hb. apply HR; auto.
Qed.

Lemma filter_none {A : Type} (f : A -> bool) (l : list A) :
  (forall x, In x l -> f x = false) -> filter f l = [].
Proof.
  induction l as [| x l IH]; simpl; intro H; [reflexivity |].
  rewrite (H x (or_introl eq_refl)). apply IH. intros y Hy. apply H. now right.
Qed.

Lemma mem_app (x : string) (a b : list string) :
  mem x (a ++ b) = mem x a || mem x b.
Proof. apply existsb_app. Qed.

(** ** Retrieval *)

Module RetrievalFacts.
Import Schema Retrieval.

Section WithDistance.
Variable cosine_distance : vector -> vector -> Q.

Local Abbreviation distance := (distance cosine_distance).
Local Abbreviation similarity := (similarity cosine_distance).
Local Abbreviation where_clause := (where_clause cosine_distance).
Local Abbreviation insert_by := (insert_by cosine_distance).
Local Abbreviation order_by := (order_by cosine_distance).
Local Abbreviation ascending := (ascending cosine_distance).
Local Abbreviation descending := (descending cosine_distance).
Local Abbreviation survivors := (survivors cosine_distance).

Lemma key_le_total (a b : option Q) : key_le a b = false -> key_le b a = true.
Proof.
  destruct a as [x|], b as [y|]; simpl; try congruence.
  intro H. apply Qle_bool_iff. apply Qlt_le_weak. apply Qlt_bool_iff.
  unfold Qlt_bool. now rewrite H.
Qed.

Lemma key_le_trans (a b c : option Q) :
  key_le a b = true -> key_le b c = true -> key_le a c = true.
Proof.
  destruct a as [x|], b as [y|], c as [z|]; simpl; try congruence.
  rewrite !Qle_bool_iff. apply Qle_trans.
Qed.

Lemma insert_by_perm q kd l : Permutation (insert_by q kd l) (kd :: l).
Proof.
  induction l as [| x l IH]; simpl; [reflexivity |].
  destruct (key_le _ _); [reflexivity |].
  rewrite IH. apply perm_swap.
Qed.

Lemma order_by_perm q l : Permutation (order_by q l) l.
Proof.
  induction l as [| x l IH]; simpl; [constructor |].
  rewrite insert_by_perm. now constructor.
Qed.

Lemma insert_by_sorted q kd l :
  StronglySorted (ascending q) l -> StronglySorted (ascending q) (insert_by q kd l).
Proof.
  induction 1 as [| x l HS IH Hx]; simpl.
  - repeat constructor.
  - destruct (key_le (distance q kd) (distance q x)) eqn:E.
    + constructor; [now constructor |].
      constructor; [exact E |].
      rewrite Forall_forall in *. intros b Hb.
      eapply key_le_trans; [exact E | now apply Hx].
    + constructor; [exact IH |].
      rewrite Forall_forall in *. intros b Hb.
      apply (Permutation_in _ (insert_by_perm q kd l)) in Hb.
      destruct Hb as [<- | Hb]; [now apply key_le_total | now apply Hx].
Qed.

Lemma order_by_sorted q l : StronglySorted (ascending q) (order_by q l).
Proof.
  induction l as [| x l IH]; simpl; [constructor |].
  now apply insert_by_sorted.
Qed.

Lemma where_clause_spec q ids t kd :
  where_clause q ids t kd = true <->
  In (knowledge_base_id kd) ids /\ exists s, similarity q kd = Some s /\ t < s.
Proof.
  unfold Retrieval.where_clause. rewrite andb_true_iff, mem_In.
  destruct (similarity q kd) as [s|].
  - rewrite Qlt_bool_iff. split.
    + intros [H1 H2]. split; [assumption | now exists s].
    + intros [H1 [s' [E H2]]]. injection E as <-. now split.
  - split; [intros [_ H]; discriminate | intros [_ [s' [E _]]]; discriminate].
Qed.

Lemma ascending_descending q a b :
  (exists x, similarity q a = Some x) -> (exists y, similarity q b = Some y) ->
  ascending q a b -> descending q a b.
Proof.
  unfold Retrieval.ascending, Retrieval.descending, Retrieval.similarity.
  intros [x Hx] [y Hy].
  destruct (distance q a) as [da|]; [| discriminate].
  destruct (distance q b) as [db|]; [| discriminate].
  simpl in *. rewrite Qle_bool_iff. intro H.
  exists (1 - da), (1 - db). repeat split. lra.
Qed.

Lemma survivors_In q ids t table kd :
  In kd (survivors q ids t table) <->
  In kd table /\ In (knowledge_base_id kd) ids
  /\ exists s, similarity q kd = Some s /\ t < s.
Proof.
  unfold Retrieval.survivors. split.
  - intro H. apply (Permutation_in _ (order_by_perm q _)) in H.
    apply filter_In in H. destruct H as [H1 H2].
    apply where_clause_spec in H2. tauto.
  - intros [H1 H2]. apply (Permutation_in _ (Permutation_sym (order_by_perm q _))).
    apply filter_In. split; [assumption | now apply where_clause_spec].
Qed.

Lemma survivors_sorted q ids t table :
  StronglySorted (descending q) (survivors q ids t table).
Proof.
  apply StronglySorted_weaken
    with (R := ascending q) (P := fun kd => exists s, similarity q kd = Some s).
  - intros a b Ha Hb. now apply ascending_descending.
  - apply Forall_forall. intros kd H. apply survivors_In in H.
    destruct H as [_ [_ [s [E _]]]]. now exists s.
  - apply order_by_sorted.
Qed.

End WithDistance.



(** The run of the example table: the chunk at similarity 1 and the one
    at 0.8, in that order; the chunk at exactly 0.6, the chunk without an
    embedding and the chunk of another base are left out. *)
Example search_example :
  option_map (map m_id)
    (match match_knowledge_documents Examples.unit_cosine_distance
             Examples.east ["kb1"] 0.6 5 Examples.chunks with
     | Ok rows => Some rows
     | Err _ => None
     end)
  = Some ["d3"; "d6"].
Proof. vm_compute. reflexivity. Qed.

Lemma nothing_above_one (cosine_distance : vector -> vector -> Q) q ids t table :
  (forall a b, 0 <= cosine_distance a b) -> t == 1 ->
  filter (where_clause cosine_distance q ids t) table = [].
Proof.
  intros Hd Ht. apply filter_none. intros kd _.
  destruct (where_clause cosine_distance q ids t kd) eqn:E; [| reflexivity].
  apply where_clause_spec in E. destruct E as [_ [s [E Hlt]]].
  unfold similarity, distance in E.
  destruct (embedding kd) as [e|]; [| discriminate].
  simpl in E. injection E as <-.
  pose proof (Hd e q). lra.
Qed.

Lemma to_int_of_Z (q : Q) (n : Z) :
  q == inject_Z n -> (-2147483648 <= n <= 2147483647)%Z -> to_int q = Ok n.
Proof.
  intros E Hn. unfold Qeq in E. simpl in E. rewrite Z.mul_1_r in E.
  unfold to_int. rewrite E, Z.rem_mul by discriminate. simpl.
  rewrite Z.div_mul by discriminate.
  assert (H : ((-2147483648 <=? n) && (n <=? 2147483647))%Z = true).
  { apply andb_true_intro. split; apply Z.leb_le; lia. }
  now rewrite H.
Qed.

Lemma to_int_Ok (q : Q) (n : Z) :
  to_int q = Ok n -> q == inject_Z n /\ (-2147483648 <= n <= 2147483647)%Z.
Proof.
  unfold to_int.
  destruct (Z.rem (Qnum q) (Zpos (Qden q)) =? 0)%Z eqn:E; [| discriminate].
  cbv zeta.
  destruct ((-2147483648 <=? Qnum q / Zpos (Qden q))
            && (Qnum q / Zpos (Qden q) <=? 2147483647))%Z eqn:R;
    [| discriminate].
  intro H. injection H as <-. apply andb_prop in R. destruct R as [R1 R2].
  apply Z.leb_le in R1, R2. split; [| lia].
  apply Z.eqb_eq in E. unfold Qeq. simpl. rewrite Z.mul_1_r.
  pose proof (Z.quot_rem' (Qnum q) (Zpos (Qden q))) as D.
  rewrite E, Z.add_0_r in D.
  assert (Q' : (Qnum q ÷ Zpos (Qden q) = Qnum q / Zpos (Qden q))%Z).
  { rewrite D at 2. rewrite Z.mul_comm, Z.div_mul by discriminate.
    reflexivity. }
  rewrite <- Q'. lia.
Qed.

Lemma to_uuids_all (env : search_env) (ids : list string) :
  (forall i, In i ids -> uuid_in env i <> None) ->
  exists us, to_uuids env ids = Ok us.
Proof.
  induction ids as [| i ids IH]; intro H; simpl; [now exists [] |].
  destruct (uuid_in env i) as [u |] eqn:E.
  - destruct IH as [us Hus]; [intros j Hj; apply H; now right |].
    rewrite Hus. simpl. now exists (u :: us).
  - exfalso. apply (H i); [now left | exact E].
Qed.

Lemma to_uuids_none (env : search_env) (ids : list string) (i : string) :
  In i ids -> uuid_in env i = None -> exists m, to_uuids env ids = Err m.
Proof.
  induction ids as [| j ids IH]; intros Hin Hi; [contradiction |].
  simpl. destruct (uuid_in env j) as [u |] eqn:E.
  - destruct Hin as [-> | Hin]; [congruence |].
    destruct (IH Hin Hi) as [m Hm]. rewrite Hm. simpl. now exists m.
  - eauto.
Qed.

(** C3, as the code has it. The SQL function returns the empty list for an
    empty array of knowledge-base ids, but the endpoint never gets that
    far: its schema asks for at least one id and answers 400
    VALIDATION_ERROR. With a threshold of 1, a request that passes
    validation, whose query embedding succeeds, whose ids the database
    reads as uuids and whose limit is an integer from 0 to 2147483647,
    gets the empty list, cosine distances being non-negative. A limit
    above 2147483647, below 0 or with a fraction, or an id that is no
    uuid, gets the answer 500 whatever the threshold. *)
Theorem search_empty_ids_rejected_threshold_one_empty
    (cosine_distance : vector -> vector -> Q) (env : search_env)
    (b : search_body) :
  (forall a b, 0 <= cosine_distance a b) ->
  (forall q t n table, (0 <= n)%Z ->
     match_knowledge_documents cosine_distance q [] t n table = Ok [])
  /\ (body_knowledgeBaseIds b = [] ->
      search_handler cosine_distance env b = Json400 "VALIDATION_ERROR")
  /\ (forall input qe n,
        searchKnowledgeSchema b = Some input ->
        threshold input == 1 ->
        embedQuery env (query input) = Ok qe ->
        (forall i, In i (knowledgeBaseIds input) -> uuid_in env i <> None) ->
        limit_of input == inject_Z n -> (0 <= n <= 2147483647)%Z ->
        search_handler cosine_distance env b = Json200 [])
  /\ (forall input qe,
        searchKnowledgeSchema b = Some input ->
        embedQuery env (query input) = Ok qe ->
        2147483647 < limit_of input \/ limit_of input < 0
        \/ (forall n, ~ limit_of input == inject_Z n)
        \/ (exists i, In i (knowledgeBaseIds input) /\ uuid_in env i = None) ->
        search_handler cosine_distance env b = Json500 "Vector search failed").
Proof.
  intro Hd. parts.
  - intros q t n table Hn. unfold match_knowledge_documents, limit.
    destruct (n <? 0)%Z eqn:E; [apply Z.ltb_lt in E; lia |].
    rewrite filter_none; [now destruct (Z.to_nat n) |].
    intros kd _. unfold where_clause. reflexivity.
  - intro H. unfold search_handler, searchKnowledgeSchema. rewrite H. simpl.
    now rewrite andb_false_r.
  - intros input qe n Hs Ht He Hu Hl Hn. unfold search_handler. rewrite Hs.
    rewrite He. simpl. unfold rpc. simpl.
    rewrite (to_int_of_Z _ n Hl) by lia. simpl.
    destruct (to_uuids_all env _ Hu) as [us ->]. simpl.
    unfold match_knowledge_documents, limit.
    destruct (n <? 0)%Z eqn:E; [apply Z.ltb_lt in E; lia |].
    rewrite nothing_above_one by assumption.
    simpl. now destruct (Z.to_nat n).
  - intros input qe Hs He H. unfold search_handler. rewrite Hs, He. simpl.
    unfold rpc. simpl.
    destruct (to_int (limit_of input)) as [n | m] eqn:Ei; [| reflexivity].
    simpl. apply to_int_Ok in Ei. destruct Ei as [Eq Hr].
    destruct (to_uuids env (knowledgeBaseIds input)) as [us | m] eqn:Eu;
      [| reflexivity].
    simpl. destruct H as [H | [H | [H | [i [Hi Hn]]]]].
    + exfalso. rewrite Eq in H. unfold Qlt in H. simpl in H. lia.
    + rewrite Eq in H. unfold Qlt in H. simpl in H.
      unfold match_knowledge_documents, limit.
      assert (E : (n <? 0)%Z = true) by (apply Z.ltb_lt; lia).
      now rewrite E.
    + exfalso. exact (H n Eq).
    + destruct (to_uuids_none env _ i Hi Hn) as [m Hm]. congruence.
Qed.

Lemma unit_cosine_distance_nonneg (a b : vector) :
  0 <= Examples.unit_cosine_distance a b.
Proof.
  unfold Examples.unit_cosine_distance.
  pose proof (Q.le_min_l 1 (Qmax (-1) (Examples.dot a b))). lra.
Qed.

Lemma search_empty_ids_rejected_threshold_one_empty_witness :
  search_handler Examples.unit_cosine_distance Examples.search_env
    (Examples.body [] (Some 1) None) = Json400 "VALIDATION_ERROR"
  /\ search_handler Examples.unit_cosine_distance Examples.search_env
       (Examples.body ["kb1"] (Some 1) None) = Json200 []
  /\ search_handler Examples.unit_cosine_distance Examples.search_env
       (Examples.body ["kb1"] (Some 1) (Some 3000000000))
     = Json500 "Vector search failed".
Proof.
  pose proof (search_empty_ids_rejected_threshold_one_empty
                Examples.unit_cosine_distance Examples.search_env) as H.
  parts.
  - apply (H (Examples.body [] (Some 1) None) unit_cosine_distance_nonneg).
    reflexivity.
  - destruct (H (Examples.body ["kb1"] (Some 1) None)
                unit_cosine_distance_nonneg) as [_ [_ [H3 _]]].
    apply (H3 {| query := "gamma"; knowledgeBaseIds := ["kb1"];
                 threshold := 1; limit_of := 5 |} Examples.east 5%Z);
      try reflexivity; [| lia].
    intros i [<- | []]. discriminate.
  - destruct (H (Examples.body ["kb1"] (Some 1) (Some 3000000000))
                unit_cosine_distance_nonneg) as [_ [_ [_ H4]]].
    apply (H4 {| query := "gamma"; knowledgeBaseIds := ["kb1"];
                 threshold := 1; limit_of := 3000000000 |} Examples.east);
      try reflexivity.
    left. reflexivity.
Defined.

(** C3 as written fails at the endpoint: an empty list of knowledge-base
    ids gets a validation error, not an empty result. *)
Lemma search_empty_ids_is_an_error :
  search_handler Examples.unit_cosine_distance Examples.search_env
    (Examples.body [] None None) = Json400 "VALIDATION_ERROR"
  /\ search_handler Examples.unit_cosine_distance Examples.search_env
       (Examples.body [] None None) <> Json200 [].
Proof. split; [reflexivity | discriminate]. Qed.

(** C10. A request that passes validation reaches the similarity search
    with threshold 0.5 when it gave none and with limit 5 when it gave
    none; a value it gave is passed on unchanged. The RPC is called with
    exactly these values, after the query has been embedded. *)
Theorem search_defaults_applied
    (cosine_distance : vector -> vector -> Q) (env : search_env)
    (b : search_body) (input : search_input) :
  searchKnowledgeSchema b = Some input ->
  let t := match body_threshold b with Some t => t | None => 0.5 end in
  let l := match body_limit b with Some l => l | None => 5 end in
  threshold input = t
  /\ limit_of input = l
  /\ (forall queryEmbedding,
        search_rpc_args input queryEmbedding
        = {| arg_query_embedding := queryEmbedding;
             arg_match_threshold := t;
             arg_match_count := l;
             arg_knowledge_base_ids := body_knowledgeBaseIds b |})
  /\ search_handler cosine_distance env b
     = match (queryEmbedding <- embedQuery env (body_query b) ;;
              rpc cosine_distance env
                {| arg_query_embedding := queryEmbedding;
                   arg_match_threshold := t;
                   arg_match_count := l;
                   arg_knowledge_base_ids := body_knowledgeBaseIds b |}) with
       | Ok documents => Json200 (map to_out documents)
       | Err _ => Json500 "Vector search failed"
       end.
Proof.
  intros H t l. unfold search_handler. rewrite H.
  unfold searchKnowledgeSchema in H.
  destruct (_ && _); [| discriminate].
  injection H as <-. unfold with_default. simpl. repeat split.
Qed.

Lemma search_defaults_applied_witness :
  threshold {| query := "gamma"; knowledgeBaseIds := ["kb1"];
               threshold := 0.5; limit_of := 5 |} = 0.5
  /\ search_rpc_args {| query := "gamma"; knowledgeBaseIds := ["kb1"];
                        threshold := 0.5; limit_of := 5 |} Examples.east
     = {| arg_query_embedding := Examples.east;
          arg_match_threshold := 0.5;
          arg_match_count := 5;
          arg_knowledge_base_ids := ["kb1"] |}.
Proof.
  destruct (search_defaults_applied Examples.unit_cosine_distance
              Examples.search_env (Examples.body ["kb1"] None None)
              {| query := "gamma"; knowledgeBaseIds := ["kb1"];
                 threshold := 0.5; limit_of := 5 |} eq_refl)
    as [H1 [_ [H3 _]]].
  split; [exact H1 | exact (H3 Examples.east)].
Defined.

End RetrievalFacts.

(** ** Parsing *)

Module ParserFacts.
Import Schema Ingestion.

(** Without an earlier match on PDF, DOCX, CSV or JSON, the upload
    handler's parser rejects the three legacy formats. *)
Lemma api_rejects_legacy (e : env) (content : Blob) :
  KnowledgeApi.parseFileContent e content "application/msword" "legacy.doc"
  = Err "Error: 不支持 .doc 格式，请转换为 .docx 或 .pdf 后重新上传"
  /\ KnowledgeApi.parseFileContent e content "application/vnd.ms-powerpoint"
       "slides.ppt"
     = Err "Error: 不支持 .ppt 格式"
  /\ KnowledgeApi.parseFileContent e content
       "application/vnd.openxmlformats-officedocument.presentationml.presentation"
       "slides.pptx"
     = Err "Error: 不支持 .pptx 格式".
Proof. repeat split. Qed.

(** C8 at the failing input. The worker's parser has no branch for the
    legacy formats: a Word 97 file, a PowerPoint 97 file and a .pptx file
    all go to the plain-text loader, where the upload handler's parser
    rejects each of them. *)
Theorem worker_parser_loads_legacy_as_text (e : env) (content : Blob) :
  Worker.parseFileContent e content "application/msword" "legacy.doc"
  = load e TextLoader content
  /\ Worker.parseFileContent e content "application/vnd.ms-powerpoint"
       "slides.ppt"
     = load e TextLoader content
  /\ Worker.parseFileContent e content
       "application/vnd.openxmlformats-officedocument.presentationml.presentation"
       "slides.pptx"
     = load e TextLoader content.
Proof. repeat split. Qed.

(** The upload handler's parser tests PDF, DOCX, CSV and JSON before the
    legacy formats: a legacy MIME type under one of those extensions is
    loaded, not rejected. *)
Lemma api_earlier_branch_wins (e : env) (content : Blob) :
  KnowledgeApi.parseFileContent e content "application/msword" "report.pdf"
  = load e WebPDFLoader content
  /\ KnowledgeApi.parseFileContent e content "text/csv" "table.doc"
     = load e CSVLoader content.
Proof. split; reflexivity. Qed.

End ParserFacts.

(** ** Ingestion *)

Module WorkerFacts.
Import Schema Ingestion Worker.


Lemma insert_documents_files e rows s s' :
  insert_documents e rows s = Ok s' -> knowledge_files s' = knowledge_files s.
Proof.
  unfold insert_documents. destruct (insert_error e); [discriminate |].
  intro H. injection H as <-. reflexivity.
Qed.

Lemma oldest_In rows f : oldest rows = Some f -> In f rows.
Proof.
  revert f. induction rows as [| g rows IH]; simpl; intros f H; [discriminate |].
  destruct (oldest rows) as [h |].
  - destruct (created_at g <=? created_at h)%Z; injection H as <-.
    + now left.
    + right. now apply IH.
  - injection H as <-. now left.
Qed.

Lemma select_pending_spec s f :
  select_pending s = Some f -> In f (knowledge_files s) /\ status f = pending.
Proof.
  unfold select_pending. intro H. apply oldest_In in H.
  apply filter_In in H. destruct H as [H1 H2]. split; [assumption |].
  now destruct (status f).
Qed.




End WorkerFacts.

(** ** Tools *)

Module ToolsFacts.
Import Schema Tools.

Lemma js_or_truthy a b : truthy a = true -> js_or a b = a.
Proof. unfold js_or. now intros ->. Qed.

Lemma truthy_nonempty a : a <> "" -> truthy a = true.
Proof. destruct a; [congruence | reflexivity]. Qed.

(** In every case the sandbox has terminated the worker when it settles. *)
Lemma sandbox_terminates_worker w code args :
  worker (runPluginInSandbox w code args) = Terminated.
Proof.
  unfold runPluginInSandbox. cbv zeta.
  destruct (worker_script (run_code w code args)) as [[t ev] |]; [| reflexivity].
  destruct (t <? timeout_ms)%N; [| reflexivity].
  destruct ev as [[|] payload | m]; reflexivity.
Qed.

(** What the sandbox does contain. The tool always returns text and the
    worker is terminated. A plugin that has not answered within 5000 ms
    is terminated and the call fails with the timeout error. A value
    thrown inside the awaited call before that is caught and the call
    fails with an error that carries the thrown error's message (the
    text of the thrown value when it has no message, a fixed text when
    that is empty too). The tool hands each failure to the model as
    "Error executing plugin <name>: <message>". In both cases the caller
    lives on. *)
Lemma caught_failures_are_contained (w : world) (p : plugin) (args : string) :
  let call := runPluginInSandbox w (plugin_code p) args in
  let answer := func (createPluginTool p) w args in
  (exists text, answer = Ok text)
  /\ worker call = Terminated
  /\ ((forall t ev, worker_script (run_code w (plugin_code p) args) = Some (t, ev) ->
        (5000 <= t)%N) ->
      call = {| settled := Err "Plugin execution timed out";
                worker := Terminated; host := Alive |}
      /\ answer = Ok ("Error executing plugin " ++ plugin_name p
                      ++ ": Plugin execution timed out"))
  /\ (forall t err,
        run_code w (plugin_code p) args = Throws t err -> (t < 5000)%N ->
        let surfaced :=
          js_or (js_or (match err_message err with Some m => m | None => "" end)
                       (err_to_string err))
                "Plugin execution failed" in
        call = {| settled := Err surfaced; worker := Terminated;
                  host := Alive |}
        /\ answer = Ok ("Error executing plugin " ++ plugin_name p ++ ": "
                        ++ surfaced)
        /\ (forall m, err_message err = Some m -> m <> "" -> surfaced = m)).
Proof.
  intros call answer. parts.
  - unfold answer. simpl.
    destruct (settled (runPluginInSandbox w (plugin_code p) args)); eauto.
  - apply sandbox_terminates_worker.
  - intro H. unfold answer, call. simpl. unfold runPluginInSandbox.
    cbv zeta.
    destruct (worker_script (run_code w (plugin_code p) args))
      as [[t ev] |]; [| now split].
    specialize (H t ev eq_refl).
    assert (E : (t <? timeout_ms)%N = false)
      by (apply N.ltb_ge; unfold timeout_ms; lia).
    rewrite E. now split.
  - intros t err H Ht surfaced. unfold answer, call. simpl.
    unfold runPluginInSandbox. cbv zeta. rewrite H. simpl.
    assert (E : (t <? timeout_ms)%N = true)
      by (apply N.ltb_lt; unfold timeout_ms; lia).
    rewrite E. simpl. split; [reflexivity | split; [reflexivity |]].
    intros m Hm Hne. unfold surfaced. rewrite Hm.
    rewrite (js_or_truthy m) by now apply truthy_nonempty.
    apply js_or_truthy. now apply truthy_nonempty.
Qed.


(** *** What [ilike] with [%query%] matches *)

Lemma append_nil_r (s : string) : s ++ "" = s.
Proof. induction s as [| c s IH]; simpl; [reflexivity | now rewrite IH]. Qed.

Lemma append_assoc (a b c : string) : (a ++ b) ++ c = a ++ b ++ c.
Proof. induction a as [| x a IH]; simpl; [reflexivity | now rewrite IH]. Qed.






Lemma like_percent_unfold (p t : string) :
  like (String "%" p) t
  = like p t || match t with
                | EmptyString => false
                | String _ t' => like (String "%" p) t'
                end.
Proof. destruct t; reflexivity. Qed.

Lemma like_percent (p t : string) :
  like (String "%" p) t = true <-> exists a b, t = a ++ b /\ like p b = true.
Proof.
  induction t as [| c t IH]; rewrite like_percent_unfold, orb_true_iff.
  - split.
    + intros [H | H]; [| discriminate]. now exists "", "".
    + intros [a [b [E H]]]. left.
      destruct a; [simpl in E; now subst b | discriminate].
  - rewrite IH. split.
    + intros [H | [a [b [E H]]]].
      * now exists "", (String c t).
      * exists (String c a), b. simpl. now rewrite E.
    + intros [a [b [E H]]]. destruct a as [| x a]; simpl in E.
      * left. now subst b.
      * right. injection E as -> ->. now exists a, b.
Qed.



Lemma like_percent_only (t : string) : like "%" t = true.
Proof.
  apply like_percent. exists t, "". split; [now rewrite append_nil_r | reflexivity].
Qed.


Lemma firstn_subset {A : Type} (n : nat) (l : list A) (x : A) :
  In x (firstn n l) -> In x l.
Proof.
  intro H. rewrite <- (firstn_skipn n l). apply in_or_app. now left.
Qed.

Lemma length_zero_nil {A : Type} (l : list A) :
  (List.length l =? 0)%nat = true <-> l = [].
Proof. destruct l; simpl; split; congruence. Qed.




End ToolsFacts.

(** ** Chats *)

Module ChatFacts.
Import Tools Chat.

(** C9 at the failing input. A user who shares a group chat with the
    character asks for a private chat: none exists and one is created.
    Asked again, the lookup of the character's membership among the user's
    chats meets two rows, [.single()] fails, and a second private chat is
    created and returned as new. *)
Theorem private_chat_duplicated_beside_group :
  let first := createPrivateChat (Examples.inserting "c-1") Examples.with_group
                 "p1" "u1" "c1" "Azusa" None in
  let second := createPrivateChat (Examples.inserting "c-2") (snd first)
                  "p1" "u1" "c1" "Azusa" None in
  match fst first, fst second with
  | Ok a, Ok b =>
      isNew a = true /\ view_id (created_chat a) = "c-1"
      /\ isNew b = true /\ view_id (created_chat b) = "c-2"
  | _, _ => False
  end
  /\ map chat_id (filter (fun c => negb (is_group c)) (chats (snd second)))
     = ["c-1"; "c-2"].
Proof. vm_compute. repeat split. Qed.

(** Without such a second chat the request is idempotent: asked again,
    the chat just created is returned with [isNew = false] and nothing is
    written. *)
Lemma private_chat_found_again :
  let first := createPrivateChat (Examples.inserting "c-1") Examples.no_chats
                 "p1" "u1" "c1" "Azusa" None in
  let second := createPrivateChat (Examples.inserting "c-2") (snd first)
                  "p1" "u1" "c1" "Azusa" None in
  match fst first, fst second with
  | Ok a, Ok b =>
      isNew a = true /\ isNew b = false
      /\ created_chat b = created_chat a
  | _, _ => False
  end
  /\ snd second = snd first.
Proof. vm_compute. repeat split. Qed.

Lemma mem_fresh (x new : string) (ids : list string) :
  x <> new -> mem x (ids ++ [new]) = mem x ids.
Proof.
  intro H. rewrite mem_app. simpl.
  apply String.eqb_neq in H. now rewrite H, orb_false_r.
Qed.

(** X13. A private chat is made once: when none of the user's chats has
    the character as a member and the new chat id is fresh, the first
    request creates the chat and the second one returns it, writing
    nothing. *)
Lemma createPrivateChat_idempotent (e1 e2 : insert_env) (s : store)
    (profileId userId characterId : uuid) (name name' : string)
    (avatar avatar' : option string) :
  chat_insert_error e1 = None -> member_insert_error e1 = None ->
  (forall m, In m (chat_members s) ->
             mem (member_chat_id m) (user_chat_ids s profileId)
             && member_type_eqb (member_type_of m) character
             && opt_is (character_id m) characterId = false) ->
  ~ In (new_chat_id e1) (map chat_id (chats s)) ->
  ~ In (new_chat_id e1) (map member_chat_id (chat_members s)) ->
  let first := createPrivateChat e1 s profileId userId characterId name avatar in
  let second := createPrivateChat e2 (snd first) profileId userId characterId
                  name' avatar' in
  exists v,
    fst first = Ok {| created_chat := v; isNew := true |}
    /\ fst second = Ok {| created_chat := v; isNew := false |}
    /\ snd second = snd first.
Proof.
  intros Hc Hm Hnone Hfc Hfm first second.
  assert (E1 : find_existing s profileId characterId = None).
  { unfold find_existing. destruct (0 <? _)%nat; [| reflexivity].
    now rewrite (filter_none _ _ Hnone). }
  set (c := {| chat_id := new_chat_id e1; owner_id := profileId;
               chat_name := name; is_group := false; avatar := avatar;
               last_message := None |}).
  assert (Ef : first
               = (Ok {| created_chat := view_of c userId; isNew := true |},
                  snd first)).
  { unfold first, createPrivateChat. rewrite E1, Hc, Hm. reflexivity. }
  assert (Es : snd first
               = {| chats := (chats s ++ [c])%list;
                    chat_members :=
                      (chat_members s ++
                       [ {| member_chat_id := new_chat_id e1;
                            member_type_of := user;
                            profile_id := Some profileId;
                            character_id := None;
                            role := "owner" |};
                         {| member_chat_id := new_chat_id e1;
                            member_type_of := character;
                            profile_id := None;
                            character_id := Some characterId;
                            role := "member" |} ])%list;
                    messages := messages s;
                    characters := characters s;
                    knowledge_subscriptions := knowledge_subscriptions s;
                    plugin_subscriptions := plugin_subscriptions s |}).
  { unfold first, createPrivateChat. rewrite E1, Hc, Hm. reflexivity. }
  assert (Eids : user_chat_ids (snd first) profileId
                 = (user_chat_ids s profileId ++ [new_chat_id e1])%list).
  { rewrite Es. unfold user_chat_ids. simpl. rewrite filter_app, map_app.
    simpl. now rewrite String.eqb_refl. }
  assert (E2 : find_existing (snd first) profileId characterId = Some c).
  { unfold find_existing. rewrite Eids.
    replace (0 <? List.length (user_chat_ids s profileId ++ [new_chat_id e1]))%nat
      with true by (rewrite length_app; simpl; symmetry; apply Nat.ltb_lt; lia).
    rewrite Es. simpl. rewrite filter_app.
    rewrite (filter_none _ (chat_members s)).
    2: { intros m Hin. rewrite mem_fresh; [now apply Hnone |].
         intro E. apply Hfm. rewrite <- E. now apply in_map. }
    simpl. rewrite mem_app. simpl. rewrite !String.eqb_refl, orb_true_r.
    simpl.
    rewrite filter_app, (filter_none _ (chats s)).
    2: { intros k Hin. apply andb_false_iff. left. apply String.eqb_neq.
         intro E. apply Hfc. rewrite <- E. now apply in_map. }
    simpl. now rewrite String.eqb_refl. }
  exists (view_of c userId). split; [now rewrite Ef | split].
  - unfold second, createPrivateChat. now rewrite E2.
  - unfold second, createPrivateChat. now rewrite E2.
Qed.

Lemma truthy_false (a : string) : truthy a = false <-> a = "".
Proof. destruct a; simpl; split; congruence. Qed.

Lemma set_last_message_messages chatId preview s :
  messages (set_last_message chatId preview s) = messages s.
Proof. reflexivity. Qed.

(** C6, as the code has it. In a run of [streamMessage]:
    - the model is called only after the user's message has been
      inserted: the trace then starts with the successful insert, and the
      model call follows it; when that insert fails the run throws its
      error, nothing is stored and the model is not called;
    - once inserted, the user's row stays in the table whatever happens
      later, the run throwing included;
    - a message of the character is stored only if text was produced: the
      rows that follow the user's are none, or the one row of the chat's
      character with the text of the response, which is then not empty;
      with an empty response the only new row is the user's;
    - when text was produced the insert of the character's row is
      attempted: accepted, the row is stored after the user's; refused,
      the run throws the error of the insert and no row of the character
      is stored;
    - the text is the concatenation of the agent's text increments; the
      chunks yielded are these increments, followed when the agent fails
      with message [m] by the one chunk of a line break and
      "[Error: m]", the run still returning normally when nothing had
      been produced.
    The last part evaluates two runs: an agent that fails at once, and
    one that fails after two increments. *)
Theorem stream_message_persistence (e : stream_env) (s : store)
    (chatId profileId : uuid) (msg : list MessageContent) :
  let r := streamMessage e s chatId profileId msg in
  let mine :=
    {| message_chat_id := chatId; sender_type := user;
       sender_profile_id := Some profileId; sender_character_id := None;
       message_content := msg |} in
  let reply := fun characterId : uuid =>
    {| message_chat_id := chatId; sender_type := character;
       sender_profile_id := None; sender_character_id := Some characterId;
       message_content := [TextContent (response_text r)] |} in
  let the_character := fun ai : character_row =>
    ai_of_chat (with_messages s (messages s ++ [mine])) chatId = Some ai in
  (In ModelCall (trace r) ->
     user_insert_error e = None
     /\ exists rest, trace r = InsertUserMessage true :: ModelCall :: rest)
  /\ (forall m, user_insert_error e = Some m ->
        outcome r = Err m /\ final r = s /\ ~ In ModelCall (trace r))
  /\ (user_insert_error e = None ->
      exists added, messages (final r) = (messages s ++ mine :: added)%list)
  /\ (user_insert_error e = None ->
      forall added,
        messages (final r) = (messages s ++ mine :: added)%list ->
        added = []
        \/ (response_text r <> ""
            /\ exists ai, the_character ai
                          /\ added = [reply (character_id_of ai)]))
  /\ (user_insert_error e = None -> response_text r = "" ->
      messages (final r) = (messages s ++ [mine])%list)
  /\ (user_insert_error e = None -> response_text r <> "" ->
      match ai_insert_error e with
      | None =>
          exists ai,
            the_character ai
            /\ messages (final r)
               = (messages s ++ [mine; reply (character_id_of ai)])%list
      | Some m =>
          outcome r = Err m
          /\ messages (final r) = (messages s ++ [mine])%list
      end)
  /\ (In ModelCall (trace r) ->
      exists tools prompt history,
        let out := agent_stream e tools prompt history in
        response_text r = fullResponse_of (fst out)
        /\ yielded r
           = (increments (fst out)
              ++ match snd out with
                 | Some m => [(String "010" "[Error: " ++ m ++ "]")%string]
                 | None => []
                 end)%list
        /\ (forall m, snd out = Some m ->
                      In (LogAgentError m) (trace r)
                      /\ (response_text r = "" -> outcome r = Ok tt)))
  /\ (let failed :=
        streamMessage (Examples.stream_env [] (Some "rate limit"))
          Examples.private_chat "c-1" "p1" Examples.hello in
      let partial :=
        streamMessage
          (Examples.stream_env
             [StringChunk "Hi"; OtherChunk; StringChunk ""; StringChunk " there"]
             (Some "rate limit"))
          Examples.private_chat "c-1" "p1" Examples.hello in
      yielded failed = [String "010" "[Error: rate limit]"]
      /\ response_text failed = ""
      /\ map sender_type (messages (final failed)) = [user]
      /\ yielded partial = ["Hi"; " there"; String "010" "[Error: rate limit]"]
      /\ response_text partial = "Hi there"
      /\ map (fun m => (sender_type m, sender_character_id m, message_content m))
             (messages (final partial))
         = [(user, None, Examples.hello);
            (character, Some "c1", [TextContent "Hi there"])]).
Proof.
  intros r mine reply the_character.
  assert (Hcut : forall (l : list message) x added,
             (l ++ [x])%list = (l ++ x :: added)%list -> added = []).
  { intros l x added H. apply app_inv_head in H. now injection H. }
  match goal with
  | |- _ /\ _ /\ _ /\ _ /\ _ /\ _ /\ _ /\ ?C =>
      assert (Hruns : C) by (vm_compute; repeat split)
  end.
  unfold reply, the_character, r, streamMessage, saveUserMessage.
  clear reply the_character r.
  destruct (user_insert_error e) as [uerr |] eqn:Eu.
  { (* the insert of the user's message fails *)
    split; [| split; [| split; [| split; [| split; [| split; [| split]]]]]];
      try exact Hruns; try (intros; discriminate).
    - simpl. intros [H | []]. discriminate.
    - intros m H. injection H as <-. simpl. split; [reflexivity |].
      split; [reflexivity |]. intros [H | []]. discriminate.
    - simpl. intros [H | []]. discriminate. }
  unfold user_row. fold mine.
  set (s1 := with_messages s (messages s ++ [mine])).
  destruct (ai_of_chat s1 chatId) as [ai |] eqn:Eai.
  2: { (* no character in the chat *)
    split; [| split; [| split; [| split; [| split; [| split; [| split]]]]]];
      try exact Hruns; simpl.
    - intros [H | [H | []]]; discriminate.
    - intros; discriminate.
    - intros _. now exists [].
    - intros _ added H. left. now apply (Hcut _ _ _ H).
    - reflexivity.
    - intros _ H. congruence.
    - intros [H | [H | []]]; discriminate. }
  destruct (getSubscribedKnowledgeBaseIds e s1 (character_id_of ai))
    as [kbIds | kerr].
  2: { (* the subscriptions cannot be read *)
    split; [| split; [| split; [| split; [| split; [| split; [| split]]]]]];
      try exact Hruns; simpl.
    - intros [H | []]; discriminate.
    - intros; discriminate.
    - intros _. now exists [].
    - intros _ added H. left. now apply (Hcut _ _ _ H).
    - reflexivity.
    - intros _ H. congruence.
    - intros [H | []]; discriminate. }
  set (tools := build_tools kbIds (getSubscribedPlugins s1 profileId)).
  set (prompt := buildSystemPrompt ai kbIds (getSubscribedPlugins s1 profileId)).
  set (history := toChatHistory _).
  destruct (agent_stream e tools prompt history) as [chunks failure] eqn:Ea.
  assert (Hlog : forall m, failure = Some m ->
            forall tail,
              In (LogAgentError m)
                 (InsertUserMessage true :: ModelCall
                  :: (map Yield (increments chunks)
                      ++ match failure with
                         | Some m => [LogAgentError m;
                                      Yield (String "010" "[Error: " ++ m ++ "]")]
                         | None => []
                         end) ++ tail)%list).
  { intros m -> tail. right. right. apply in_or_app. left.
    apply in_or_app. right. now left. }
  assert (Hout : (increments chunks ++ error_marker failure)%list
                 = (increments chunks
                    ++ match failure with
                       | Some m => [(String "010" "[Error: " ++ m ++ "]")%string]
                       | None => []
                       end)%list)
    by reflexivity.
  destruct (truthy (fullResponse_of chunks)) eqn:Et.
  - unfold saveAIMessage.
    destruct (ai_insert_error e) as [aerr |] eqn:Ei; simpl.
    + (* text was produced and its insert is refused *)
      split; [| split; [| split; [| split; [| split; [| split; [| split]]]]]];
        try exact Hruns.
      * intros _. split; [reflexivity | eauto].
      * intros; discriminate.
      * intros _. now exists [].
      * intros _ added H. left. now apply (Hcut _ _ _ H).
      * intros _ H. rewrite H in Et. discriminate.
      * intros _ _. now split.
      * intros _. exists tools, prompt, history. rewrite Ea. simpl.
        split; [reflexivity | split; [exact Hout |]].
        intros m Hm. split.
        -- exact (Hlog m Hm _).
        -- intro H. rewrite H in Et. discriminate.
    + (* text was produced and its insert is accepted *)
      split; [| split; [| split; [| split; [| split; [| split; [| split]]]]]];
        try exact Hruns.
      * intros _. split; [reflexivity | eauto].
      * intros; discriminate.
      * intros _.
        exists [ai_row chatId (character_id_of ai) (fullResponse_of chunks)].
        now rewrite <- app_assoc.
      * intros _ added H. right. split.
        -- intro H0. rewrite H0 in Et. discriminate.
        -- exists ai. split; [reflexivity |].
           rewrite <- app_assoc in H. apply app_inv_head in H.
           now injection H.
      * intros _ H. rewrite H in Et. discriminate.
      * intros _ _. exists ai. split; [reflexivity |].
        now rewrite <- app_assoc.
      * intros _. exists tools, prompt, history. rewrite Ea. simpl.
        split; [reflexivity | split; [exact Hout |]].
        intros m Hm. split.
        -- exact (Hlog m Hm _).
        -- intro H. rewrite H in Et. discriminate.
  - (* nothing was produced *)
    simpl.
    split; [| split; [| split; [| split; [| split; [| split; [| split]]]]]];
      try exact Hruns.
    + intros _. split; [reflexivity | eauto].
    + intros; discriminate.
    + intros _. now exists [].
    + intros _ added H. left. now apply (Hcut _ _ _ H).
    + reflexivity.
    + intros _ H. apply truthy_false in Et. congruence.
    + intros _. exists tools, prompt, history. rewrite Ea. simpl.
      split; [reflexivity | split; [exact Hout |]].
      intros m Hm. split; [| reflexivity].
      specialize (Hlog m Hm []). now rewrite app_nil_r in Hlog.
Qed.

Lemma stream_message_persistence_witness :
  let failed :=
    streamMessage (Examples.stream_env [] (Some "rate limit"))
      Examples.private_chat "c-1" "p1" Examples.hello in
  let partial :=
    streamMessage
      (Examples.stream_env [StringChunk "Hi"; OtherChunk; StringChunk " there"]
         (Some "rate limit"))
      Examples.private_chat "c-1" "p1" Examples.hello in
  (response_text failed = ""
   /\ messages (final failed)
      = (messages Examples.private_chat
         ++ [user_row "c-1" "p1" Examples.hello])%list)
  /\ (response_text partial = "Hi there"
      /\ exists ai,
           messages (final partial)
           = (messages Examples.private_chat
              ++ [user_row "c-1" "p1" Examples.hello;
                  ai_row "c-1" (character_id_of ai) "Hi there"])%list).
Proof.
  split; (split; [reflexivity |]).
  - destruct (stream_message_persistence
                (Examples.stream_env [] (Some "rate limit"))
                Examples.private_chat "c-1" "p1" Examples.hello)
      as [_ [_ [_ [_ [H _]]]]].
    exact (H eq_refl eq_refl).
  - destruct (stream_message_persistence
                (Examples.stream_env
                   [StringChunk "Hi"; OtherChunk; StringChunk " there"]
                   (Some "rate limit"))
                Examples.private_chat "c-1" "p1" Examples.hello)
      as [_ [_ [_ [_ [_ [H _]]]]]].
    destruct (H eq_refl) as [ai [_ Hai]]; [discriminate |].
    exists ai. exact Hai.
Defined.

(** C6 as written fails in its "if" half: an agent that produces the
    text "Hi" while the database refuses the insert of the character's
    message. The text is yielded, the run throws the error of the insert,
    and the table holds the user's message only. *)
Lemma response_text_without_assistant_row :
  let e :=
    {| user_insert_error := None;
       subscriptions_error := None;
       ai_insert_error := Some "connection lost";
       tool_world := Examples.world;
       agent_stream := fun _ _ _ => ([StringChunk "Hi"], None) |} in
  let r := streamMessage e Examples.private_chat "c-1" "p1" Examples.hello in
  yielded r = ["Hi"]
  /\ response_text r = "Hi"
  /\ outcome r = Err "connection lost"
  /\ map sender_type (messages (final r)) = [user].
Proof. vm_compute. repeat split. Qed.

(** The two runs of the witness, evaluated: what is yielded and which
    senders the table holds afterwards. *)
Example stream_message_examples :
  yielded (streamMessage (Examples.stream_env [] (Some "rate limit"))
             Examples.private_chat "c-1" "p1" Examples.hello)
  = [String "010" "[Error: rate limit]"]
  /\ map sender_type
       (messages (final (streamMessage
                           (Examples.stream_env [] (Some "rate limit"))
                           Examples.private_chat "c-1" "p1" Examples.hello)))
     = [user]
  /\ yielded (streamMessage
                (Examples.stream_env
                   [StringChunk "Hi"; OtherChunk; StringChunk " there"]
                   (Some "rate limit"))
                Examples.private_chat "c-1" "p1" Examples.hello)
     = ["Hi"; " there"; String "010" "[Error: rate limit]"]
  /\ map sender_type
       (messages (final (streamMessage
                           (Examples.stream_env
                              [StringChunk "Hi"; OtherChunk; StringChunk " there"]
                              (Some "rate limit"))
                           Examples.private_chat "c-1" "p1" Examples.hello)))
     = [user; character].
Proof. vm_compute. repeat split. Qed.

End ChatFacts.

(** * Further properties *)

(** ** The worker's queue *)

Module QueueFacts.
Import Schema Ingestion Worker Queue.

Lemma update_file_twice c1 c2 file s :
  (forall f, file_id_of (c1 f) = file_id_of f) ->
  update_file c2 file (update_file c1 file s)
  = update_file (fun f => c2 (c1 f)) file s.
Proof.
  intro H. unfold update_file. simpl. f_equal. rewrite map_map.
  apply map_ext. intro f.
  destruct (String.eqb (file_id_of f) file) eqn:E.
  - now rewrite H, E.
  - now rewrite E.
Qed.

Lemma update_file_ext c1 c2 file s :
  (forall f, c1 f = c2 f) -> update_file c1 file s = update_file c2 file s.
Proof.
  intro H. unfold update_file. f_equal. apply map_ext. intro f.
  now rewrite H.
Qed.

(** A run that takes a file, written out on its three outcomes. *)
Lemma processOne_shape e s f :
  select_pending s = Some f ->
  let s1 := update_file (set_status processing) (file_id_of f) s in
  processOne e s =
  match download e (file_path f) with
  | Err m => update_file (settled_failed m) (file_id_of f) s
  | Ok b =>
     match (parsedDocs <- parse_downloaded e f b ;;
            chunk_and_embed e s1 (file_knowledge_base_id f) (file_id_of f)
              [("fileName", JStr (file_name f)); ("source", JStr (file_path f))]
              parsedDocs) with
     | Err m => update_file (settled_failed m) (file_id_of f) s
     | Ok rows =>
        match insert_error e with
        | Some m => update_file (settled_failed m) (file_id_of f) s
        | None =>
            with_documents (update_file settled_completed (file_id_of f) s) rows
        end
     end
  end.
Proof.
  intros H s1. unfold processOne. simpl. rewrite H. simpl.
  fold s1.
  destruct (download e (file_path f)) as [b | m]; simpl.
  2: { unfold s1. rewrite update_file_twice by reflexivity.
       now apply update_file_ext. }
  destruct (parse_downloaded e f b) as [docs | m]; simpl.
  2: { unfold s1. rewrite update_file_twice by reflexivity.
       now apply update_file_ext. }
  destruct (chunk_and_embed e s1 _ _ _ docs) as [rows | m]; simpl.
  2: { unfold s1. rewrite update_file_twice by reflexivity.
       now apply update_file_ext. }
  unfold insert_documents. destruct (insert_error e) as [m |]; simpl.
  { unfold s1. rewrite update_file_twice by reflexivity.
    now apply update_file_ext. }
  unfold update_file, with_documents. simpl. f_equal.
  rewrite map_map. apply map_ext. intro g.
  destruct (String.eqb (file_id_of g) (file_id_of f)) eqn:E; simpl.
  - now rewrite E.
  - now rewrite E.
Qed.

Lemma documentsToInsert_length e s kb file splitDocs vectors :
  List.length (documentsToInsert e s kb file splitDocs vectors)
  = List.length splitDocs.
Proof.
  unfold documentsToInsert. rewrite length_map.
  generalize 0%nat. induction splitDocs as [| d l IH]; intro n; simpl;
    [reflexivity | now rewrite IH].
Qed.

Lemma documentsToInsert_owner e s kb file splitDocs vectors :
  Forall (fun row => knowledge_base_id row = kb /\ file_id row = Some file)
         (documentsToInsert e s kb file splitDocs vectors).
Proof.
  unfold documentsToInsert. apply Forall_forall. intros row H.
  apply in_map_iff in H. destruct H as [ix [<- _]]. now split.
Qed.


(** A batch that was built is the batch of all the chunks: the splitter's
    chunks of the joined document are not empty, the provider embedded
    their texts, and the rows are the rows built from these chunks and
    vectors. *)
Lemma chunk_and_embed_Ok e s kb file base docs rows :
  chunk_and_embed e s kb file base docs = Ok rows ->
  let splitDocs :=
    splitDocuments e
      {| pageContent := totalContent docs;
         doc_meta := assign base "pageCount"
                       (JNum (Z.of_nat (List.length docs))) |} in
  exists vectors,
    splitDocs <> []
    /\ embedDocuments e (map pageContent splitDocs) = Ok vectors
    /\ rows = documentsToInsert e s kb file splitDocs vectors.
Proof.
  unfold chunk_and_embed.
  destruct (String.length (totalContent docs) =? 0)%nat; [discriminate |].
  cbv zeta.
  set (parts := splitDocuments e _).
  destruct (List.length parts =? 0)%nat eqn:E; [discriminate |].
  destruct (embedDocuments e (map pageContent parts)) as [vectors | m];
    simpl; [| discriminate].
  intro H. injection H as <-. exists vectors. parts.
  - intro H. rewrite H in E. discriminate.
  - reflexivity.
  - reflexivity.
Qed.

(** X1. A run inserts all the chunks of the file it took or none. Either no
    document row is added and every row of that file id is [failed] with
    the error text; or the file was downloaded and parsed, the splitter's
    chunks of the joined document were all embedded, and the rows added
    are the rows built from these chunks, one for each and in their
    order, each under the file's knowledge base and file id, and every
    row of that file id is [completed]. Files of another id are as they
    were. *)
Theorem processOne_all_or_nothing (e : env) (s : store) (f : knowledge_file) :
  select_pending s = Some f ->
  (exists m,
     processOne e s = update_file (settled_failed m) (file_id_of f) s)
  \/ (exists downloaded parsedDocs vectors,
        download e (file_path f) = Ok downloaded
        /\ parse_downloaded e f downloaded = Ok parsedDocs
        /\ let splitDocs :=
             splitDocuments e
               {| pageContent := totalContent parsedDocs;
                  doc_meta :=
                    assign [("fileName", JStr (file_name f));
                            ("source", JStr (file_path f))]
                           "pageCount"
                           (JNum (Z.of_nat (List.length parsedDocs))) |} in
           let rows :=
             documentsToInsert e
               (update_file (set_status processing) (file_id_of f) s)
               (file_knowledge_base_id f) (file_id_of f) splitDocs vectors in
           splitDocs <> []
           /\ embedDocuments e (map pageContent splitDocs) = Ok vectors
           /\ List.length rows = List.length splitDocs
           /\ Forall (fun row =>
                        knowledge_base_id row = file_knowledge_base_id f
                        /\ file_id row = Some (file_id_of f)) rows
           /\ processOne e s
              = with_documents
                  (update_file settled_completed (file_id_of f) s) rows).
Proof.
  intro H. rewrite (processOne_shape e s f H).
  destruct (download e (file_path f)) as [b | m] eqn:Eb;
    [| left; now exists m].
  destruct (parse_downloaded e f b) as [docs | m] eqn:Ed; simpl;
    [| left; now exists m].
  destruct (chunk_and_embed e _ _ _ _ docs) as [rows | m] eqn:E;
    [| left; now exists m].
  destruct (insert_error e) as [m |]; [left; now exists m |].
  right. exists b, docs.
  destruct (chunk_and_embed_Ok _ _ _ _ _ _ _ E) as [vectors [H1 [H2 ->]]].
  exists vectors. cbv zeta.
  split; [reflexivity |]. split; [exact Ed |]. split; [exact H1 |].
  split; [exact H2 |]. split; [apply documentsToInsert_length |].
  split; [apply documentsToInsert_owner | reflexivity].
Qed.

Lemma processOne_all_or_nothing_witness :
  select_pending Examples.queue = Some Examples.notes
  /\ ((exists m,
         processOne Examples.ingestion_env Examples.queue
         = update_file (settled_failed m) "f1" Examples.queue)
      \/ (exists rows,
            map content rows = ["first paragraph"; "second"]
            /\ processOne Examples.ingestion_env Examples.queue
               = with_documents
                   (update_file settled_completed "f1" Examples.queue) rows)).
Proof.
  split; [reflexivity |].
  destruct (processOne_all_or_nothing Examples.ingestion_env Examples.queue
              Examples.notes eq_refl)
    as [[m H] | [b [docs [vectors [Hb [Hd H]]]]]].
  - left. now exists m.
  - right. injection Hb as <-. injection Hd as <-.
    cbv zeta in H. destruct H as [_ [Hv [_ [_ H]]]].
    injection Hv as <-. eexists. split; [| exact H]. reflexivity.
Defined.

Lemma oldest_none rows : oldest rows = None <-> rows = [].
Proof.
  destruct rows as [| g rows]; simpl; [tauto |].
  split; [| discriminate].
  destruct (oldest rows) as [h |]; [| discriminate].
  destruct (created_at g <=? created_at h)%Z; discriminate.
Qed.

Lemma oldest_least rows f :
  oldest rows = Some f ->
  forall g, In g rows -> (created_at f <= created_at g)%Z.
Proof.
  revert f. induction rows as [| h rows IH]; simpl; intros f H g Hg;
    [contradiction |].
  destruct (oldest rows) as [k |] eqn:E.
  - destruct (created_at h <=? created_at k)%Z eqn:L; injection H as <-.
    + apply Z.leb_le in L. destruct Hg as [<- | Hg]; [lia |].
      specialize (IH k eq_refl g Hg). lia.
    + apply Z.leb_gt in L. destruct Hg as [<- | Hg]; [lia |].
      now apply IH.
  - injection H as <-. apply oldest_none in E. subst rows.
    destruct Hg as [<- | []]. lia.
Qed.

(** X2. The worker takes a file exactly when one is pending, and the file it
    takes is a pending one that no pending file is older than. *)
Theorem worker_takes_oldest_pending (s : store) :
  (select_pending s = None <-> pending_files s = [])
  /\ (forall f, select_pending s = Some f ->
        In f (knowledge_files s) /\ status f = pending
        /\ forall g, In g (knowledge_files s) -> status g = pending ->
                     (created_at f <= created_at g)%Z).
Proof.
  split; [apply oldest_none |].
  intros f H. destruct (WorkerFacts.select_pending_spec s f H) as [H1 H2].
  repeat split; try assumption.
  intros g Hg Hp. apply (oldest_least _ f H).
  apply filter_In. split; [assumption | now rewrite Hp].
Qed.

Lemma worker_takes_oldest_pending_witness :
  select_pending Examples.queue = Some Examples.notes
  /\ status Examples.notes = pending.
Proof.
  split; [reflexivity |].
  destruct (worker_takes_oldest_pending Examples.queue) as [_ H].
  apply (H Examples.notes eq_refl).
Defined.

Lemma processOne_idle e s : select_pending s = None -> processOne e s = s.
Proof. intro H. unfold processOne. simpl. now rewrite H. Qed.

(** What a run does to the file rows: the rows of the id it took are
    settled, by a change that leaves no row pending and keeps the id. *)
Lemma processOne_files e s f :
  select_pending s = Some f ->
  exists settle,
    (forall g, status (settle g) <> pending)
    /\ (forall g, file_id_of (settle g) = file_id_of g)
    /\ knowledge_files (processOne e s)
       = map (fun g => if String.eqb (file_id_of g) (file_id_of f)
                       then settle g else g)
             (knowledge_files s).
Proof.
  intro H. rewrite (processOne_shape e s f H).
  destruct (download e (file_path f)) as [b | m];
    [| exists (settled_failed m); repeat split; discriminate].
  destruct (parse_downloaded e f b) as [docs | m]; simpl;
    [| exists (settled_failed m); repeat split; discriminate].
  destruct (chunk_and_embed e _ _ _ _ docs) as [rows | m];
    [| exists (settled_failed m); repeat split; discriminate].
  destruct (insert_error e) as [m |];
    [exists (settled_failed m); repeat split; discriminate |].
  exists settled_completed. repeat split; discriminate.
Qed.

Lemma settle_one_pending settle (f : knowledge_file) (l : list knowledge_file) :
  NoDup (map file_id_of l) -> In f l -> status f = pending ->
  (forall g, status (settle g) <> pending) ->
  List.length
    (filter is_pending
       (map (fun g => if String.eqb (file_id_of g) (file_id_of f)
                      then settle g else g) l))
  = Nat.pred (List.length (filter is_pending l)).
Proof.
  intros Hnd Hin Hp Hs. induction l as [| g l IH]; [contradiction |].
  simpl in Hnd. inversion Hnd as [| ? ? Hg Hl]; subst.
  simpl. destruct (String.eqb (file_id_of g) (file_id_of f)) eqn:E.
  - apply String.eqb_eq in E.
    assert (Hgf : g = f).
    { destruct Hin as [-> | Hin]; [reflexivity |].
      exfalso. apply Hg. rewrite E. now apply in_map. }
    subst g.
    assert (E1 : is_pending (settle f) = false).
    { unfold is_pending. destruct (status (settle f)) eqn:Es;
        [now apply Hs in Es | reflexivity | reflexivity | reflexivity]. }
    assert (E2 : is_pending f = true) by (unfold is_pending; now rewrite Hp).
    rewrite E1, E2. simpl. f_equal. f_equal.
    rewrite <- (map_id l) at 2. apply map_ext_in. intros h Hh.
    destruct (String.eqb (file_id_of h) (file_id_of f)) eqn:Eh; [| reflexivity].
    apply String.eqb_eq in Eh. exfalso. apply Hg. rewrite <- Eh.
    now apply in_map.
  - assert (Hin' : In f l).
    { destruct Hin as [-> | Hin]; [| assumption].
      rewrite String.eqb_refl in E. discriminate. }
    specialize (IH Hl Hin').
    assert (Hpos : (0 < List.length (filter is_pending l))%nat).
    { assert (Hf : In f (filter is_pending l)).
      { apply filter_In. split; [assumption |]. unfold is_pending.
        now rewrite Hp. }
      destruct (filter is_pending l); [contradiction | simpl; lia]. }
    destruct (is_pending g); simpl; rewrite IH; lia.
Qed.

Lemma processOne_ids e s :
  map file_id_of (knowledge_files (processOne e s))
  = map file_id_of (knowledge_files s).
Proof.
  destruct (select_pending s) as [f |] eqn:H.
  - destruct (processOne_files e s f H) as [settle [_ [Hid E]]].
    rewrite E, map_map. apply map_ext. intro g.
    now destruct (String.eqb _ _).
  - now rewrite processOne_idle.
Qed.

Lemma processOne_pending_count e s :
  NoDup (map file_id_of (knowledge_files s)) ->
  List.length (pending_files (processOne e s))
  = Nat.pred (List.length (pending_files s)).
Proof.
  intro Hnd. destruct (select_pending s) as [f |] eqn:H.
  - destruct (processOne_files e s f H) as [settle [Hs [_ E]]].
    destruct (WorkerFacts.select_pending_spec s f H) as [Hin Hp].
    unfold pending_files. rewrite E. now apply settle_one_pending.
  - rewrite processOne_idle by assumption.
    apply oldest_none in H. change (pending_files s = []) in H.
    now rewrite H.
Qed.

(** X3. With file ids unique, each round of the loop settles one pending file
    and makes none pending: after [n] rounds the queue is shorter by [n],
    and empty from then on. On an empty queue a round changes nothing. *)
Theorem loop_drains_queue (rounds : nat) (e : nat -> env) (s : store) :
  NoDup (map file_id_of (knowledge_files s)) ->
  List.length (pending_files (loop rounds e s))
  = (List.length (pending_files s) - rounds)%nat
  /\ (pending_files s = [] -> loop rounds e s = s).
Proof.
  revert e s. induction rounds as [| n IH]; intros e s Hnd; simpl.
  - split; [lia | reflexivity].
  - assert (Hnd' : NoDup (map file_id_of (knowledge_files (processOne (e 0%nat) s))))
      by now rewrite processOne_ids.
    destruct (IH (fun i => e (S i)) _ Hnd') as [H1 H2]. split.
    + rewrite H1, processOne_pending_count by assumption. lia.
    + intro H. assert (E : processOne (e 0%nat) s = s).
      { apply processOne_idle. now apply oldest_none. }
      rewrite E. rewrite E in Hnd'.
      now apply (IH (fun i => e (S i)) s Hnd').
Qed.

Lemma loop_drains_queue_witness :
  List.length (pending_files (loop 3 (fun _ => Examples.ingestion_env)
                                Examples.queue)) = 0%nat.
Proof.
  apply (loop_drains_queue 3 (fun _ => Examples.ingestion_env) Examples.queue).
  repeat constructor. intros [].
Defined.

Lemma find_app {A : Type} (p : A -> bool) (a b : list A) :
  find p (a ++ b) = match find p a with Some x => Some x | None => find p b end.
Proof.
  induction a as [| x a IH]; simpl; [reflexivity |].
  now destruct (p x).
Qed.

(** Reading a key after [{...m, key: value}]. *)
Lemma get_assign (m : metadata) (key : string) (value : json) (k : string) :
  get (assign m key value) k
  = if String.eqb k key then Some value else get m k.
Proof.
  unfold get, assign. rewrite find_app. simpl.
  destruct (String.eqb k key) eqn:E.
  - apply String.eqb_eq in E. subst k.
    assert (H : find (fun kv : string * json => String.eqb (fst kv) key)
                  (filter (fun kv => negb (String.eqb (fst kv) key)) m) = None).
    { induction m as [| [k' v'] m IH]; simpl; [reflexivity |].
      destruct (String.eqb k' key) eqn:E'; simpl; [exact IH |].
      now rewrite E'. }
    rewrite H. simpl. now rewrite String.eqb_refl.
  - assert (H : find (fun kv : string * json => String.eqb (fst kv) k)
                  (filter (fun kv => negb (String.eqb (fst kv) key)) m)
                = find (fun kv : string * json => String.eqb (fst kv) k) m).
    { induction m as [| [k' v'] m IH]; simpl; [reflexivity |].
      destruct (String.eqb k' key) eqn:E'; simpl.
      - apply String.eqb_eq in E'. subst k'.
        rewrite String.eqb_sym, E. exact IH.
      - destruct (String.eqb k' k); [reflexivity | exact IH]. }
    rewrite H. rewrite String.eqb_sym, E.
    now destruct (find _ m).
Qed.

Lemma indexed_nth {A : Type} (xs : list A) (from i : nat) :
  nth_error (indexed from xs) i
  = option_map (fun x => ((from + i)%nat, x)) (nth_error xs i).
Proof.
  revert from i. induction xs as [| x xs IH]; intros from i.
  - now destruct i.
  - destruct i as [| i]; simpl.
    + now rewrite Nat.add_0_r.
    + rewrite IH. now rewrite Nat.add_succ_r.
Qed.

(** X4. The rows built for a file follow its chunks one to one and in order:
    row [i] has the text of chunk [i] and the vector at position [i] (no
    embedding when the provider returned fewer vectors); its metadata has
    [chunkIndex = i] and [totalChunks] the number of chunks, over any
    value the splitter had put under these keys, and the splitter's
    value under every other key. *)
Theorem inserted_rows_follow_chunks (e : env) (s : store) (kb file : uuid)
    (splitDocs : list Document) (vectors : list vector) (i : nat)
    (d : Document) :
  nth_error splitDocs i = Some d ->
  exists row,
    nth_error (documentsToInsert e s kb file splitDocs vectors) i = Some row
    /\ content row = pageContent d
    /\ embedding row = nth_error vectors i
    /\ get (doc_metadata row) "chunkIndex" = Some (JNum (Z.of_nat i))
    /\ get (doc_metadata row) "totalChunks"
       = Some (JNum (Z.of_nat (List.length splitDocs)))
    /\ (forall k, k <> "chunkIndex" -> k <> "totalChunks" ->
                  get (doc_metadata row) k = get (doc_meta d) k).
Proof.
  intro H. unfold documentsToInsert.
  rewrite nth_error_map, indexed_nth, H. simpl.
  eexists. split; [reflexivity |]. simpl.
  repeat split.
  - rewrite !get_assign. reflexivity.
  - rewrite !get_assign. reflexivity.
  - intros k H1 H2. rewrite !get_assign.
    apply String.eqb_neq in H1, H2. now rewrite H1, H2.
Qed.

Lemma inserted_rows_follow_chunks_witness :
  exists row,
    nth_error
      (documentsToInsert Examples.ingestion_env Examples.queue "kb1" "f1"
         [ {| pageContent := "first paragraph";
              doc_meta := [("chunkIndex", JNum 7)] |};
           {| pageContent := "second"; doc_meta := [] |} ]
         [Examples.east]) 1 = Some row
    /\ content row = "second"
    /\ embedding row = None
    /\ get (doc_metadata row) "chunkIndex" = Some (JNum 1).
Proof.
  destruct (inserted_rows_follow_chunks Examples.ingestion_env Examples.queue
              "kb1" "f1"
              [ {| pageContent := "first paragraph";
                   doc_meta := [("chunkIndex", JNum 7)] |};
                {| pageContent := "second"; doc_meta := [] |} ]
              [Examples.east] 1
              {| pageContent := "second"; doc_meta := [] |} eq_refl)
    as [row [H1 [H2 [H3 [H4 _]]]]].
  exists row. repeat split; assumption.
Defined.

End QueueFacts.

(** ** The worker's last update *)

Module CompletionFacts.
Import Schema Ingestion Worker Queue.





End CompletionFacts.

(** ** The two parsers *)

Module ParserMore.
Import Schema Ingestion Tools.

Ltac loader_succeeds H :=
  match goal with
  | |- context [load ?e ?x ?b] =>
      let docs := fresh "docs" in
      let E := fresh "E" in
      destruct (H x b) as [docs E]; rewrite E
  end.

(** X5. With loaders that succeed, the upload handler's parser fails only by
    rejecting a legacy format, and then the MIME type or the file name is
    of that format; the worker's parser never fails. *)
Theorem parsers_fail_only_on_legacy_formats (e : env) (content : Blob)
    (fileType fileName : string) :
  (forall x b, exists docs, load e x b = Ok docs) ->
  (forall m,
     KnowledgeApi.parseFileContent e content fileType fileName = Err m ->
     (m = "Error: 不支持 .pptx 格式"
      /\ (toLowerCase fileType
          = "application/vnd.openxmlformats-officedocument.presentationml.presentation"
          \/ endsWith fileName ".pptx" = true))
     \/ (m = "Error: 不支持 .doc 格式，请转换为 .docx 或 .pdf 后重新上传"
         /\ (toLowerCase fileType = "application/msword"
             \/ endsWith fileName ".doc" = true))
     \/ (m = "Error: 不支持 .ppt 格式"
         /\ (toLowerCase fileType = "application/vnd.ms-powerpoint"
             \/ endsWith fileName ".ppt" = true)))
  /\ (exists docs,
        Worker.parseFileContent e content fileType fileName = Ok docs).
Proof.
  intro H. split.
  - intro m. unfold KnowledgeApi.parseFileContent.
    repeat match goal with
           | |- context [if ?a || ?b then _ else _] =>
               let E := fresh "E" in
               destruct (a || b) eqn:E
           end;
      try (loader_succeeds H; discriminate); try discriminate;
      intro Hm; injection Hm as <-;
      match goal with
      | E : _ || _ = true |- _ =>
          apply orb_true_iff in E; rewrite String.eqb_eq in E
      end.
    + left. now split.
    + right. left. now split.
    + right. right. now split.
  - unfold Worker.parseFileContent.
    repeat match goal with
           | |- context [if ?a || ?b then _ else _] => destruct (a || b)
           end;
      try (loader_succeeds H); eauto.
Qed.

Lemma parsers_fail_only_on_legacy_formats_witness :
  exists docs,
    Worker.parseFileContent Examples.ingestion_env Examples.notes_blob
      "application/msword" "legacy.doc" = Ok docs.
Proof.
  destruct (parsers_fail_only_on_legacy_formats Examples.ingestion_env
              Examples.notes_blob "application/msword" "legacy.doc")
    as [_ H].
  - intros x b. eexists. reflexivity.
  - exact H.
Defined.

End ParserMore.

(** ** The upload handler's task *)

Module TaskFacts.
Import Schema Ingestion Queue.

(** X6. The upload handler's task inserts all the chunks or none. Either
    no document row is added and the file is [failed] with the error
    text; or the content was parsed, the splitter's chunks of the joined
    document were all embedded, and the rows added are the rows built
    from these chunks, one for each and in their order, under the
    knowledge base and the file. In that case the rows of the files are
    left as they were: the task's last update names the column
    [chunk_count], which the table does not have, so the update is
    refused and the file is not marked [completed]. *)
Theorem processDocumentTask_all_or_nothing (e : env)
    (content : KnowledgeApi.upload) (request_meta : metadata) (kbId : uuid)
    (fileRecord : knowledge_file) (fileName storagePath : string) (s : store) :
  let after := KnowledgeApi.processDocumentTask e content request_meta kbId
                 fileRecord fileName storagePath s in
  (exists m,
     after = update_file (settled_failed m) (file_id_of fileRecord) s)
  \/ (exists parsedDocs vectors,
        KnowledgeApi.parse_upload e content request_meta fileName storagePath
        = Ok parsedDocs
        /\ let splitDocs :=
             splitDocuments e
               {| pageContent := totalContent parsedDocs;
                  doc_meta :=
                    assign (assign (assign request_meta
                                           "fileName" (JStr fileName))
                                   "source" (JStr storagePath))
                           "pageCount"
                           (JNum (Z.of_nat (List.length parsedDocs))) |} in
           let rows :=
             documentsToInsert e s kbId (file_id_of fileRecord) splitDocs
               vectors in
           splitDocs <> []
           /\ embedDocuments e (map pageContent splitDocs) = Ok vectors
           /\ List.length rows = List.length splitDocs
           /\ Forall (fun row => knowledge_base_id row = kbId
                                 /\ file_id row = Some (file_id_of fileRecord))
                     rows
           /\ knowledge_files after = knowledge_files s
           /\ after = with_documents s rows).
Proof.
  unfold KnowledgeApi.processDocumentTask.
  destruct (KnowledgeApi.parse_upload e content request_meta fileName storagePath)
    as [docs | m] eqn:Ep; simpl; [| left; now exists m].
  destruct (chunk_and_embed e s kbId (file_id_of fileRecord) _ docs)
    as [rows | m] eqn:E; simpl; [| left; now exists m].
  unfold insert_documents.
  destruct (insert_error e) as [m |]; simpl; [left; now exists m |].
  right. exists docs.
  destruct (QueueFacts.chunk_and_embed_Ok _ _ _ _ _ _ _ E)
    as [vectors [H1 [H2 ->]]].
  exists vectors. cbv zeta.
  split; [reflexivity |]. split; [exact H1 |]. split; [exact H2 |].
  split; [apply QueueFacts.documentsToInsert_length |].
  split; [apply QueueFacts.documentsToInsert_owner |].
  split; reflexivity.
Qed.

End TaskFacts.

(** ** Ranking *)

Module RankingFacts.
Import Schema Retrieval RetrievalFacts.

Section WithDistance.
Variable cosine_distance : vector -> vector -> Q.

Local Abbreviation distance := (distance cosine_distance).
Local Abbreviation similarity := (similarity cosine_distance).
Local Abbreviation where_clause := (where_clause cosine_distance).
Local Abbreviation insert_by := (insert_by cosine_distance).
Local Abbreviation order_by := (order_by cosine_distance).
Local Abbreviation ascending := (ascending cosine_distance).
Local Abbreviation descending := (descending cosine_distance).
Local Abbreviation survivors := (survivors cosine_distance).

Lemma insert_by_first q x l :
  (forall y, In y l -> ascending q x y) ->
  insert_by q x l = x :: l.
Proof.
  destruct l as [| h l]; simpl; [reflexivity |].
  intro H. unfold Retrieval.ascending in H.
  now rewrite (H h (or_introl eq_refl)).
Qed.

Lemma filter_insert_by (p : knowledge_document -> bool) q x l :
  StronglySorted (ascending q) l ->
  filter p (insert_by q x l)
  = if p x then insert_by q x (filter p l) else filter p l.
Proof.
  induction 1 as [| h l HS IH Hh]; simpl.
  - now destruct (p x).
  - destruct (key_le (distance q x) (distance q h)) eqn:E; simpl.
    + destruct (p x) eqn:Px; [| reflexivity].
      destruct (p h) eqn:Ph; simpl.
      * now rewrite E.
      * symmetry. apply insert_by_first. intros y Hy.
        apply filter_In in Hy. destruct Hy as [Hy _].
        rewrite Forall_forall in Hh.
        exact (key_le_trans _ _ _ E (Hh y Hy)).
    + rewrite IH. destruct (p h) eqn:Ph; simpl.
      * destruct (p x); [| reflexivity]. simpl. now rewrite E.
      * reflexivity.
Qed.

Lemma filter_order_by (p : knowledge_document -> bool) q l :
  filter p (order_by q l) = order_by q (filter p l).
Proof.
  induction l as [| x l IH]; simpl; [reflexivity |].
  rewrite filter_insert_by by apply order_by_sorted.
  rewrite IH. now destruct (p x).
Qed.

Lemma filter_implied {A : Type} (p p' : A -> bool) (l : list A) :
  (forall x, p' x = true -> p x = true) ->
  filter p' (filter p l) = filter p' l.
Proof.
  intro H. induction l as [| x l IH]; simpl; [reflexivity |].
  destruct (p x) eqn:Px; simpl; rewrite IH; [reflexivity |].
  destruct (p' x) eqn:Px'; [| reflexivity].
  apply H in Px'. congruence.
Qed.

Lemma search_run q ids t n table :
  (0 <= n)%Z ->
  match_knowledge_documents cosine_distance q ids t n table
  = Ok (map (select_row cosine_distance q)
          (firstn (Z.to_nat n) (survivors q ids t table))).
Proof.
  intro Hn. unfold match_knowledge_documents, limit.
  destruct (n <? 0)%Z eqn:E; [apply Z.ltb_lt in E; lia | reflexivity].
Qed.

Lemma where_clause_weaker q ids t t' kd :
  t <= t' -> where_clause q ids t' kd = true -> where_clause q ids t kd = true.
Proof.
  intros Ht H. apply where_clause_spec in H. apply where_clause_spec.
  destruct H as [H1 [s [E H2]]]. split; [assumption |].
  exists s. split; [assumption | lra].
Qed.

(** On a list of rows of the searched knowledge bases in descending
    similarity, the rows above a threshold are its first rows. *)
Lemma above_threshold_prefix q ids t' l :
  StronglySorted (descending q) l ->
  (forall x, In x l -> In (knowledge_base_id x) ids) ->
  exists k, filter (where_clause q ids t') l = firstn k l.
Proof.
  induction 1 as [| h l HS IH Hh]; intro Hscope.
  - now exists 0%nat.
  - simpl. destruct (where_clause q ids t' h) eqn:E.
    + destruct IH as [k Hk]; [intros x Hx; apply Hscope; now right |].
      exists (S k). simpl. now rewrite Hk.
    + exists 0%nat. simpl. apply filter_none. intros y Hy.
      destruct (where_clause q ids t' y) eqn:Ey; [| reflexivity].
      rewrite Forall_forall in Hh. destruct (Hh y Hy) as [a [b [Ea [Eb Hab]]]].
      apply where_clause_spec in Ey. destruct Ey as [Hy1 [sy [Esy Hlt]]].
      rewrite Eb in Esy. injection Esy as <-.
      assert (Hh' : where_clause q ids t' h = true).
      { apply where_clause_spec. split; [apply Hscope; now left |].
        exists a. split; [assumption | lra]. }
      congruence.
Qed.

Lemma pairs_permuted {A : Type} (R : A -> A -> Prop) (l l' : list A) :
  (forall a b, R a b -> R b a) ->
  Permutation l l' -> ForallOrdPairs R l -> ForallOrdPairs R l'.
Proof.
  intros Hsym Hp. induction Hp as [| x l l' Hp IH | x y l | l l' l'' _ IH1 _ IH2];
    intro H.
  - constructor.
  - inversion H as [| ? ? Hx Hl]; subst. constructor; [| now apply IH].
    rewrite Forall_forall in *. intros b Hb. apply Hx.
    now apply (Permutation_in _ (Permutation_sym Hp)).
  - inversion H as [| ? ? Hy Hl]; subst.
    inversion Hl as [| ? ? Hx Hl']; subst.
    inversion Hy as [| ? ? Hyx Hyl]; subst.
    constructor; [constructor; [now apply Hsym | assumption] |].
    now constructor.
  - auto.
Qed.

Lemma tied_sym q a b :
  tied cosine_distance q a b -> tied cosine_distance q b a.
Proof. unfold Retrieval.tied. tauto. Qed.

(** Sorted rows of which no two are tied come in strictly falling
    similarity. *)
Lemma sorted_strictly q (l : list knowledge_document) :
  StronglySorted (descending q) l ->
  distinct_distances cosine_distance q l ->
  StronglySorted
    (fun a b => exists x y, similarity q a = Some x /\ similarity q b = Some y
                            /\ y < x) l.
Proof.
  induction 1 as [| a l HS IH Ha]; intro Hd; constructor.
  - apply IH. now inversion Hd.
  - inversion Hd as [| ? ? Hna _]; subst.
    rewrite Forall_forall in *. intros b Hb.
    destruct (Ha b Hb) as [x [y [Ex [Ey Hxy]]]]. exists x, y.
    split; [assumption | split; [assumption |]].
    destruct (Qlt_le_dec y x) as [Hlt | Hle]; [assumption |].
    exfalso. apply (Hna b Hb). unfold Retrieval.tied.
    unfold Retrieval.similarity in Ex, Ey.
    destruct (Retrieval.distance cosine_distance q a) as [da |];
      [| discriminate].
    destruct (Retrieval.distance cosine_distance q b) as [db |];
      [| discriminate].
    simpl in *. injection Ex as <-. injection Ey as <-.
    split; apply Qle_bool_iff; lra.
Qed.

Lemma sorted_firstn {A : Type} (R : A -> A -> Prop) (k : nat) (l : list A) :
  StronglySorted R l -> StronglySorted R (firstn k l).
Proof.
  intro H. revert k. induction H as [| a l HS IH Ha]; intro k.
  - rewrite firstn_nil. constructor.
  - destruct k as [| k]; simpl; constructor; [apply IH |].
    rewrite Forall_forall in *. intros b Hb. apply Ha.
    now apply ToolsFacts.firstn_subset in Hb.
Qed.

Lemma sorted_map {A B : Type} (R : A -> A -> Prop) (R' : B -> B -> Prop)
    (f : A -> B) (l : list A) :
  (forall a b, R a b -> R' (f a) (f b)) ->
  StronglySorted R l -> StronglySorted R' (map f l).
Proof.
  intros Hf H. induction H as [| a l HS IH Ha]; simpl; constructor;
    [assumption |].
  rewrite Forall_forall in *. intros b Hb. apply in_map_iff in Hb.
  destruct Hb as [x [<- Hx]]. apply Hf. now apply Ha.
Qed.

(** X7. A tighter search returns the head of the looser one's result:
    when no two of the rows the looser search keeps are equally far from
    the query, the rows it returns come in strictly falling similarity,
    and with a threshold at least as high and a limit at most as large
    the rows returned are the first of these rows, in the same order. *)
Theorem tighter_search_returns_a_prefix (q : vector) (ids : list uuid)
    (t t' : Q) (n n' : Z) (table : list knowledge_document) :
  distinct_distances cosine_distance q (filter (where_clause q ids t) table) ->
  t <= t' -> (0 <= n' <= n)%Z ->
  exists rows k,
    match_knowledge_documents cosine_distance q ids t n table = Ok rows
    /\ StronglySorted
         (fun a b => exists x y, m_similarity a = Some x
                                 /\ m_similarity b = Some y /\ y < x) rows
    /\ match_knowledge_documents cosine_distance q ids t' n' table
       = Ok (firstn k rows).
Proof.
  intros Hd Ht Hn.
  rewrite (search_run q ids t n table), (search_run q ids t' n' table) by lia.
  assert (E : survivors q ids t' table
              = filter (where_clause q ids t') (survivors q ids t table)).
  { unfold Retrieval.survivors. rewrite filter_order_by. f_equal.
    symmetry. apply filter_implied. intro x. now apply where_clause_weaker. }
  destruct (above_threshold_prefix q ids t' (survivors q ids t table))
    as [k Hk].
  { apply survivors_sorted. }
  { intros x Hx. apply survivors_In in Hx. tauto. }
  rewrite Hk in E. rewrite E.
  eexists. exists (Nat.min (Z.to_nat n') k). split; [reflexivity |]. split.
  - apply sorted_map
      with (R := fun a b => exists x y, similarity q a = Some x
                                        /\ similarity q b = Some y /\ y < x).
    + intros a b H. exact H.
    + apply sorted_firstn. apply sorted_strictly; [apply survivors_sorted |].
      unfold Retrieval.survivors.
      apply (pairs_permuted _ (filter (where_clause q ids t) table)).
      * intros a b H H'. apply H. now apply tied_sym.
      * apply Permutation_sym, order_by_perm.
      * exact Hd.
  - f_equal. rewrite firstn_map. f_equal.
    rewrite firstn_firstn, firstn_firstn. f_equal. lia.
Qed.

End WithDistance.

Lemma tighter_search_returns_a_prefix_witness :
  exists rows k,
    match_knowledge_documents Examples.unit_cosine_distance Examples.east
      ["kb1"] 0.5 5 Examples.chunks = Ok rows
    /\ match_knowledge_documents Examples.unit_cosine_distance Examples.east
         ["kb1"] 0.7 2 Examples.chunks = Ok (firstn k rows).
Proof.
  destruct (tighter_search_returns_a_prefix Examples.unit_cosine_distance
              Examples.east ["kb1"] 0.5 0.7 5 2 Examples.chunks)
    as [rows [k [H1 [_ H2]]]].
  - repeat constructor; intros [H1 H2]; vm_compute in H1, H2; discriminate.
  - unfold Qle. simpl. lia.
  - lia.
  - now exists rows, k.
Defined.

End RankingFacts.

(** ** Pattern characters in a query *)

Module PatternFacts.
Import Schema Tools Shapes ToolsFacts.

Lemma like_only_percent (p text : string) :
  (forall c, In c (list_ascii_of_string p) -> c = "%"%char) ->
  like (String "%" p) text = true.
Proof.
  revert text. induction p as [| c p IH]; intros text H.
  - apply like_percent_only.
  - assert (Hc : c = "%"%char) by (apply H; now left). subst c.
    apply like_percent. exists "", text. split; [reflexivity |].
    apply IH. intros c Hc. apply H. now right.
Qed.

Lemma wildcards_become_percent (q : string) :
  only_wildcards q = true ->
  forall c, In c (list_ascii_of_string
                    (toLowerCase (star_to_percent (q ++ "%")))) ->
            c = "%"%char.
Proof.
  induction q as [| a q IH]; simpl.
  - intros _ c [<- | []]. reflexivity.
  - rewrite andb_true_iff, orb_true_iff, !Ascii.eqb_eq.
    intros [Ha Hq] c [<- | Hc].
    + now destruct Ha as [-> | ->].
    + now apply IH.
Qed.

(** X8. A query made only of [%] and [*], the empty query included, matches
    every chunk: the tool then answers with the first five chunks of the
    subscribed knowledge bases in storage order, whatever they say. *)
Theorem wildcard_query_matches_every_chunk (kbIds : list uuid) (w : world)
    (q : string) :
  kbIds <> [] -> select_error w = None -> only_wildcards q = true ->
  func (createRAGTool kbIds) w q
  = Ok match firstn 5 (filter (fun d => mem (knowledge_base_id d) kbIds)
                              (knowledge_documents w)) with
       | [] => "No relevant information found."
       | d :: rest =>
           join (String "010" (String "010" "")) (map content (d :: rest))
       end.
Proof.
  intros Hne Hsel Hq.
  assert (Hlen : (List.length kbIds =? 0)%nat = false).
  { destruct kbIds; [congruence | reflexivity]. }
  cbv beta iota delta [func createRAGTool rag_callback select_content].
  rewrite Hlen, Hsel. cbv beta iota delta [bind].
  assert (E : filter (fun d => mem (knowledge_base_id d) kbIds
                               && ilike (content d) ("%" ++ q ++ "%"))
                     (knowledge_documents w)
              = filter (fun d => mem (knowledge_base_id d) kbIds)
                       (knowledge_documents w)).
  { apply filter_ext. intro d. unfold ilike.
    change ("%" ++ q ++ "%") with (String "%" (q ++ "%")).
    change (toLowerCase (star_to_percent (String "%" (q ++ "%"))))
      with (String "%" (toLowerCase (star_to_percent (q ++ "%")))).
    rewrite like_only_percent; [apply andb_true_r |].
    now apply wildcards_become_percent. }
  rewrite E, length_map.
  destruct (firstn 5 _); reflexivity.
Qed.

Lemma wildcard_query_matches_every_chunk_witness :
  func (createRAGTool ["kb2"]) Examples.world "" = Ok "delta".
Proof.
  apply (wildcard_query_matches_every_chunk ["kb2"] Examples.world "");
    [discriminate | reflexivity | reflexivity].
Defined.

End PatternFacts.

(** ** One message through the chat *)

Module StreamFacts.
Import Tools Chat Shapes.

Lemma substring_length (n m : nat) (s : string) :
  (String.length (substring n m s) <= m)%nat.
Proof.
  revert n m. induction s as [| c s IH]; intros n m.
  - destruct n, m; simpl; lia.
  - destruct n as [| n]; simpl.
    + destruct m as [| m]; simpl; [lia |]. specialize (IH 0%nat m). lia.
    + apply IH.
Qed.

Lemma collapse_spaces_length (b : bool) (s : string) :
  (String.length (collapse_spaces b s) <= String.length s)%nat.
Proof.
  revert b. induction s as [| c s IH]; intro b; simpl; [lia |].
  destruct (is_space c).
  - destruct b; simpl.
    + specialize (IH true). lia.
    + specialize (IH true). lia.
  - simpl. specialize (IH false). lia.
Qed.

(** X10. A run writes to its own chat only. Memberships, characters and
    subscriptions are as before; at most two message rows are added, at
    the end and for this chat; and the chat rows are as before, or the
    rows of this chat id have the preview of the response as their
    [last_message]. *)
Theorem streamMessage_touches_only_its_chat (e : stream_env) (s : store)
    (chatId profileId : uuid) (msg : list MessageContent) :
  let r := streamMessage e s chatId profileId msg in
  chat_members (final r) = chat_members s
  /\ characters (final r) = characters s
  /\ knowledge_subscriptions (final r) = knowledge_subscriptions s
  /\ plugin_subscriptions (final r) = plugin_subscriptions s
  /\ (exists added,
        messages (final r) = (messages s ++ added)%list
        /\ (List.length added <= 2)%nat
        /\ Forall (fun m => message_chat_id m = chatId) added)
  /\ (chats (final r) = chats s
      \/ chats (final r)
         = chats (set_last_message chatId
                    (collapse_spaces false (substring 0 50 (response_text r)))
                    s)).
Proof.
  intro r. unfold r, streamMessage, saveUserMessage.
  destruct (user_insert_error e) as [uerr |].
  { simpl. parts; try reflexivity; [| now left].
    exists []. rewrite app_nil_r. repeat split; [simpl; lia | constructor]. }
  set (s1 := with_messages s _).
  assert (Hone : exists added,
             messages s1 = (messages s ++ added)%list
             /\ (List.length added <= 2)%nat
             /\ Forall (fun m => message_chat_id m = chatId) added).
  { exists [user_row chatId profileId msg]. repeat split; [simpl; lia |].
    repeat constructor. }
  destruct (ai_of_chat s1 chatId) as [ai |];
    [| simpl; parts; try reflexivity; [exact Hone | now left]].
  destruct (getSubscribedKnowledgeBaseIds e s1 (character_id_of ai))
    as [kbIds | kerr];
    [| simpl; parts; try reflexivity; [exact Hone | now left]].
  destruct (agent_stream e _ _ _) as [chunks failure].
  destruct (truthy (fullResponse_of chunks));
    [| simpl; parts; try reflexivity; [exact Hone | now left]].
  unfold saveAIMessage.
  destruct (ai_insert_error e) as [aerr |];
    [simpl; parts; try reflexivity; [exact Hone | now left] |].
  simpl. parts; try reflexivity; [| now right].
  exists [user_row chatId profileId msg;
          ai_row chatId (character_id_of ai) (fullResponse_of chunks)].
  rewrite <- app_assoc. repeat split; [simpl; lia |].
  repeat constructor.
Qed.

(** X11. A chat that does not have exactly one character member gets no
    answer from a model: the user's message is stored, the only chunk is
    "No AI in this chat.", the run returns normally and the model is not
    called. *)
Theorem chat_without_single_character_gets_no_answer (e : stream_env)
    (s : store) (chatId profileId : uuid) (msg : list MessageContent) :
  user_insert_error e = None ->
  List.length
    (filter (fun m => String.eqb (member_chat_id m) chatId
                      && member_type_eqb (member_type_of m) character)
            (chat_members s)) <> 1%nat ->
  let r := streamMessage e s chatId profileId msg in
  yielded r = ["No AI in this chat."]
  /\ outcome r = Ok tt
  /\ ~ In ModelCall (trace r)
  /\ messages (final r)
     = (messages s ++ [user_row chatId profileId msg])%list.
Proof.
  intros Hu Hn. unfold streamMessage, saveUserMessage. rewrite Hu.
  assert (E : ai_of_chat
                (with_messages s
                   (messages s ++ [user_row chatId profileId msg]))
                chatId = None).
  { unfold ai_of_chat. simpl.
    destruct (filter _ (chat_members s)) as [| a [| b l]];
      [reflexivity | simpl in Hn; congruence | reflexivity]. }
  rewrite E. simpl. repeat split.
  intros [H | [H | []]]; discriminate.
Qed.

Lemma chat_without_single_character_gets_no_answer_witness :
  yielded (streamMessage (Examples.stream_env [StringChunk "Hi"] None)
             Examples.crowded "g1" "p1" Examples.hello)
  = ["No AI in this chat."]
  /\ map sender_type
       (messages (final (streamMessage
                           (Examples.stream_env [StringChunk "Hi"] None)
                           Examples.crowded "g1" "p1" Examples.hello)))
     = [user].
Proof.
  destruct (chat_without_single_character_gets_no_answer
              (Examples.stream_env [StringChunk "Hi"] None) Examples.crowded
              "g1" "p1" Examples.hello eq_refl) as [H1 [_ [_ H2]]].
  - simpl. discriminate.
  - split; [exact H1 |]. rewrite H2. reflexivity.
Defined.




End StreamFacts.

(** ** Creating a private chat *)

Module PrivateChatFacts.
Import Tools Chat.

Lemma createPrivateChat_idempotent_witness :
  exists v,
    fst (createPrivateChat (Examples.inserting "c-1") Examples.no_chats
           "p1" "u1" "c1" "Azusa" None)
    = Ok {| created_chat := v; isNew := true |}
    /\ fst (createPrivateChat (Examples.inserting "c-2")
              (snd (createPrivateChat (Examples.inserting "c-1")
                      Examples.no_chats "p1" "u1" "c1" "Azusa" None))
              "p1" "u1" "c1" "Azusa again" None)
       = Ok {| created_chat := v; isNew := false |}.
Proof.
  destruct (ChatFacts.createPrivateChat_idempotent
              (Examples.inserting "c-1") (Examples.inserting "c-2")
              Examples.no_chats "p1" "u1" "c1" "Azusa" "Azusa again"
              None None eq_refl eq_refl)
    as [v [H1 [H2 _]]].
  - intros m [].
  - intros [].
  - intros [].
  - exists v. split; assumption.
Defined.

Lemma single_filter_same {A : Type} (p : A -> bool) (l : list A) (x : A) :
  p x = false -> single (filter p (l ++ [x])) = single (filter p l).
Proof.
  intro H. rewrite filter_app. simpl. rewrite H. now rewrite app_nil_r.
Qed.

(** X14. When the insert of the two members fails, the chat row just inserted
    stays: the call throws, the chat table has the new row, no membership
    was written, and with a fresh chat id the next request still finds no
    private chat and creates another row. *)
Theorem failed_member_insert_leaves_the_chat (e : insert_env) (s : store)
    (profileId userId characterId : uuid) (name : string)
    (avatar : option string) (m : string) :
  find_existing s profileId characterId = None ->
  chat_insert_error e = None -> member_insert_error e = Some m ->
  ~ In (new_chat_id e) (map member_chat_id (chat_members s)) ->
  let r := createPrivateChat e s profileId userId characterId name avatar in
  fst r = Err m
  /\ chats (snd r)
     = (chats s ++ [ {| chat_id := new_chat_id e; owner_id := profileId;
                        chat_name := name; is_group := false;
                        avatar := avatar; last_message := None |} ])%list
  /\ chat_members (snd r) = chat_members s
  /\ find_existing (snd r) profileId characterId = None.
Proof.
  intros Hf Hc Hm Hfresh. unfold createPrivateChat.
  rewrite Hf, Hc, Hm. simpl. repeat split.
  unfold find_existing in *. simpl.
  change (user_chat_ids _ profileId) with (user_chat_ids s profileId).
  destruct (0 <? List.length (user_chat_ids s profileId))%nat; [| reflexivity].
  destruct (single (filter _ (chat_members s))) as [member | err] eqn:E;
    [| reflexivity].
  rewrite single_filter_same.
  - destruct (single (filter _ (chats s))); [discriminate | reflexivity].
  - simpl. apply andb_false_iff. left. apply String.eqb_neq. intro H.
    apply Hfresh. rewrite H.
    assert (Hin : In member (chat_members s)).
    { unfold single in E.
      destruct (filter _ (chat_members s)) as [| a [| b l]] eqn:Ef;
        try discriminate.
      injection E as <-.
      assert (Ha : In a (filter
                (fun m0 => mem (member_chat_id m0) (user_chat_ids s profileId)
                           && member_type_eqb (member_type_of m0) character
                           && opt_is (character_id m0) characterId)
                (chat_members s))) by (rewrite Ef; now left).
      now apply filter_In in Ha. }
    now apply in_map.
Qed.

Lemma failed_member_insert_leaves_the_chat_witness :
  fst (createPrivateChat
         {| new_chat_id := "c-1"; chat_insert_error := None;
            member_insert_error := Some "violates foreign key constraint" |}
         Examples.no_chats "p1" "u1" "c0" "Ghost" None)
  = Err "violates foreign key constraint".
Proof.
  apply (failed_member_insert_leaves_the_chat
           {| new_chat_id := "c-1"; chat_insert_error := None;
              member_insert_error := Some "violates foreign key constraint" |}
           Examples.no_chats "p1" "u1" "c0" "Ghost" None
           "violates foreign key constraint");
    try reflexivity.
  intros [].
Defined.

End PrivateChatFacts.

(** ** Pages of messages *)

Module PageFacts.
Import Chat ChatQueries.

Lemma insert_newest_perm m l : Permutation (insert_newest m l) (m :: l).
Proof.
  induction l as [| x l IH]; simpl; [reflexivity |].
  destruct (_ <=? _)%Z; [reflexivity |].
  rewrite IH. apply perm_swap.
Qed.

Lemma newest_first_perm l : Permutation (newest_first l) l.
Proof.
  induction l as [| x l IH]; simpl; [constructor |].
  rewrite insert_newest_perm. now constructor.
Qed.

Lemma insert_newest_sorted m l :
  StronglySorted newer_or_same l ->
  StronglySorted newer_or_same (insert_newest m l).
Proof.
  induction 1 as [| x l HS IH Hx]; simpl.
  - repeat constructor.
  - destruct (record_created_at x <=? record_created_at m)%Z eqn:E.
    + apply Z.leb_le in E. constructor; [now constructor |].
      constructor; [exact E |].
      rewrite Forall_forall in *. intros b Hb. specialize (Hx b Hb).
      unfold newer_or_same in *. lia.
    + apply Z.leb_gt in E. constructor; [exact IH |].
      rewrite Forall_forall in *. intros b Hb.
      apply (Permutation_in _ (insert_newest_perm m l)) in Hb.
      destruct Hb as [<- | Hb]; [unfold newer_or_same; lia | now apply Hx].
Qed.

Lemma newest_first_sorted l : StronglySorted newer_or_same (newest_first l).
Proof.
  induction l as [| x l IH]; simpl; [constructor |].
  now apply insert_newest_sorted.
Qed.

Lemma insert_newest_first m l :
  (forall y, In y l -> newer_or_same m y) -> insert_newest m l = m :: l.
Proof.
  destruct l as [| h l]; simpl; [reflexivity |].
  intro H. specialize (H h (or_introl eq_refl)). unfold newer_or_same in H.
  apply Z.leb_le in H. now rewrite H.
Qed.

Lemma filter_insert_newest (p : message_record -> bool) m l :
  StronglySorted newer_or_same l ->
  filter p (insert_newest m l)
  = if p m then insert_newest m (filter p l) else filter p l.
Proof.
  induction 1 as [| h l HS IH Hh]; simpl.
  - now destruct (p m).
  - destruct (record_created_at h <=? record_created_at m)%Z eqn:E; simpl.
    + destruct (p m) eqn:Pm; [| reflexivity].
      destruct (p h) eqn:Ph; simpl.
      * now rewrite E.
      * symmetry. apply insert_newest_first. intros y Hy.
        apply filter_In in Hy. destruct Hy as [Hy _].
        rewrite Forall_forall in Hh. specialize (Hh y Hy).
        apply Z.leb_le in E. unfold newer_or_same in *. lia.
    + rewrite IH. destruct (p h) eqn:Ph; simpl.
      * destruct (p m); [| reflexivity]. simpl. now rewrite E.
      * reflexivity.
Qed.

Lemma filter_newest_first (p : message_record -> bool) l :
  filter p (newest_first l) = newest_first (filter p l).
Proof.
  induction l as [| x l IH]; simpl; [reflexivity |].
  rewrite filter_insert_newest by apply newest_first_sorted.
  rewrite IH. now destruct (p x).
Qed.

Lemma filter_both {A : Type} (p q : A -> bool) (l : list A) :
  filter (fun x => p x && q x) l = filter q (filter p l).
Proof.
  induction l as [| x l IH]; simpl; [reflexivity |].
  destruct (p x); simpl; [destruct (q x) |]; now rewrite IH.
Qed.

(** X15. A page holds at most [limit] messages, all of the chat asked for and
    all strictly older than [before], oldest first, each the view of a
    stored row. *)
Theorem getMessages_page (table : list message_record) (chatId : uuid)
    (limit : nat) (before : option Z) (p : page) :
  getMessages None table chatId limit before = Ok p ->
  (List.length (page_messages p) <= limit)%nat
  /\ (forall v, In v (page_messages p) ->
        shown_chatId v = chatId
        /\ (forall b, before = Some b -> (shown_createdAt v < b)%Z)
        /\ exists m, In m table /\ v = view m)
  /\ StronglySorted (fun a b => (shown_createdAt a <= shown_createdAt b)%Z)
       (page_messages p).
Proof.
  unfold getMessages. intro H. injection H as <-. simpl.
  set (rows := filter _ table).
  set (L := newest_first rows).
  split; [| split].
  - rewrite length_rev, length_map, length_firstn. lia.
  - intros v Hv. apply in_rev in Hv. apply in_map_iff in Hv.
    destruct Hv as [m [<- Hm]].
    apply ToolsFacts.firstn_subset in Hm.
    apply (Permutation_in _ (newest_first_perm rows)) in Hm.
    apply filter_In in Hm. destruct Hm as [Hin Hm].
    apply andb_true_iff in Hm. destruct Hm as [H1 H2].
    apply String.eqb_eq in H1. split; [exact H1 | split].
    + intros b ->. now apply Z.ltb_lt in H2.
    + now exists m.
  - assert (HS : StronglySorted newer_or_same (firstn limit L)).
    { pose proof (newest_first_sorted rows) as HL. fold L in HL.
      clearbody L. clear - HL. revert limit.
      induction HL as [| x l HS IH Hx]; intro n; destruct n; simpl;
        try constructor.
      - apply IH.
      - rewrite Forall_forall in *. intros y Hy.
        apply Hx. now apply ToolsFacts.firstn_subset in Hy. }
    clearbody L. clear - HS. induction HS as [| x l HS IH Hx]; simpl.
    + constructor.
    + clear HS. rewrite Forall_forall in Hx.
      assert (Hall : Forall (fun v => (shown_createdAt v <= record_created_at x)%Z)
                       (rev (map view l))).
      { apply Forall_forall. intros v Hv. apply in_rev in Hv.
        apply in_map_iff in Hv. destruct Hv as [m [<- Hm]]. now apply Hx. }
      clear Hx. induction IH as [| a r HS' IH' Ha]; simpl.
      * repeat constructor.
      * inversion Hall as [| ? ? Ha' Hr]; subst. constructor.
        -- now apply IH'.
        -- apply Forall_app. split; [exact Ha |]. repeat constructor.
           exact Ha'.
Qed.

Lemma getMessages_page_witness :
  exists p,
    getMessages None Examples.talk "c-1" 2 (Some 40%Z) = Ok p
    /\ map shown_id (page_messages p) = ["m2"; "m3"]
    /\ (List.length (page_messages p) <= 2)%nat.
Proof.
  eexists. split; [reflexivity |]. split; [reflexivity |].
  apply (getMessages_page Examples.talk "c-1" 2 (Some 40%Z) _ eq_refl).
Defined.

Lemma strictly_sorted (l : list message_record) :
  StronglySorted newer_or_same l -> NoDup (map record_created_at l) ->
  StronglySorted newer l.
Proof.
  induction 1 as [| x l HS IH Hx]; intro Hnd; constructor.
  - apply IH. now inversion Hnd.
  - inversion Hnd as [| ? ? Hnotin _]; subst.
    rewrite Forall_forall in *. intros y Hy. specialize (Hx y Hy).
    unfold newer, newer_or_same in *.
    assert (record_created_at y <> record_created_at x).
    { intro E. apply Hnotin. rewrite <- E. now apply in_map. }
    lia.
Qed.

Lemma filter_all {A : Type} (p : A -> bool) (l : list A) :
  (forall x, In x l -> p x = true) -> filter p l = l.
Proof.
  induction l as [| x l IH]; simpl; intro H; [reflexivity |].
  rewrite (H x (or_introl eq_refl)). f_equal. apply IH.
  intros y Hy. apply H. now right.
Qed.

(** On rows of distinct timestamps, newest first, the rows strictly
    older than the row at position [k] are the rows after it. *)
Lemma older_than_cursor (l : list message_record) (k : nat)
    (x : message_record) :
  StronglySorted newer l -> nth_error l k = Some x ->
  filter (fun m => (record_created_at m <? record_created_at x)%Z) l
  = skipn (S k) l.
Proof.
  intro HS. revert k. induction HS as [| a l HS IH Ha]; intros k Hk.
  - now destruct k.
  - rewrite Forall_forall in Ha. destruct k as [| k]; simpl in Hk.
    + injection Hk as ->. simpl. rewrite Z.ltb_irrefl.
      apply filter_all. intros y Hy. apply Z.ltb_lt. now apply Ha.
    + assert (Hx : In x l) by (eapply nth_error_In; eassumption).
      specialize (Ha x Hx). unfold newer in Ha. simpl.
      assert (E : (record_created_at a <? record_created_at x)%Z = false)
        by (apply Z.ltb_ge; lia).
      rewrite E. now apply IH.
Qed.

Lemma firstn_plus {A : Type} (k n : nat) (l : list A) :
  firstn (k + n) l = (firstn k l ++ firstn n (skipn k l))%list.
Proof.
  revert l. induction k as [| k IH]; intro l; simpl; [reflexivity |].
  destruct l as [| x l]; simpl.
  - now destruct n.
  - now rewrite IH.
Qed.

Lemma firstn_twice {A : Type} (n : nat) (l : list A) :
  firstn (2 * n) l = (firstn n l ++ firstn n (skipn n l))%list.
Proof.
  replace (2 * n)%nat with (n + n)%nat by lia. apply firstn_plus.
Qed.

Lemma nth_error_firstn_last {A : Type} (n : nat) (l : list A) :
  (0 < n <= List.length l)%nat ->
  nth_error (firstn n l) (List.length (firstn n l) - 1)
  = nth_error l (n - 1).
Proof.
  intro H. rewrite length_firstn, Nat.min_l by lia. revert l H.
  induction n as [| n IH]; intros l H; [lia |].
  destruct l as [| x l]; simpl in *; [lia |].
  destruct n as [| n]; [reflexivity |].
  specialize (IH l). simpl in IH. rewrite !Nat.sub_0_r in *.
  apply IH. lia.
Qed.

(** X16. With the timestamps of a chat distinct, pages chain without loss or
    repetition. When the first page gives a cursor, the page before that
    cursor followed by the first page is the page of twice the limit;
    when it gives none, it holds every message of the chat. *)
Theorem getMessages_pages_chain (table : list message_record) (chatId : uuid)
    (limit : nat) (first : page) :
  NoDup (map record_created_at
           (filter (fun m => String.eqb (record_chat_id m) chatId) table)) ->
  (0 < limit)%nat ->
  getMessages None table chatId limit None = Ok first ->
  match next first with
  | Some cursor =>
      exists second whole,
        getMessages None table chatId limit (Some cursor) = Ok second
        /\ getMessages None table chatId (2 * limit) None = Ok whole
        /\ page_messages whole
           = (page_messages second ++ page_messages first)%list
  | None =>
      forall m, In m table -> record_chat_id m = chatId ->
                In (view m) (page_messages first)
  end.
Proof.
  intros Hnd Hpos H. unfold getMessages in *. injection H as <-.
  cbn [next page_messages].
  assert (Erows : filter (fun m => String.eqb (record_chat_id m) chatId && true)
                    table
                  = filter (fun m => String.eqb (record_chat_id m) chatId) table).
  { apply filter_ext. intro m. apply andb_true_r. }
  rewrite Erows.
  set (rows := filter (fun m => String.eqb (record_chat_id m) chatId) table)
    in *.
  set (L := newest_first rows).
  assert (HL : StronglySorted newer L).
  { apply strictly_sorted; [apply newest_first_sorted |].
    apply (Permutation_NoDup (l := map record_created_at rows));
      [| exact Hnd].
    apply Permutation_map. symmetry. apply newest_first_perm. }
  destruct (List.length (firstn limit L) =? limit)%nat eqn:E.
  - apply Nat.eqb_eq in E. rewrite length_firstn in E.
    assert (Hlen : (0 < limit <= List.length L)%nat) by lia.
    rewrite nth_error_firstn_last by exact Hlen.
    destruct (nth_error L (limit - 1)) as [x |] eqn:Ex.
    2: { apply nth_error_None in Ex. lia. }
    cbn [option_map].
    assert (E2 : newest_first
                   (filter (fun m => String.eqb (record_chat_id m) chatId
                                     && (record_created_at m
                                         <? record_created_at x)%Z) table)
                 = skipn limit L).
    { rewrite (filter_both (fun m => String.eqb (record_chat_id m) chatId)).
      fold rows. rewrite <- filter_newest_first. fold L.
      rewrite (older_than_cursor L (limit - 1) x HL Ex).
      f_equal. lia. }
    rewrite E2. do 2 eexists. split; [reflexivity |].
    split; [reflexivity |]. cbn [page_messages].
    rewrite firstn_twice, map_app, rev_app_distr. reflexivity.
  - apply Nat.eqb_neq in E. rewrite length_firstn in E.
    intros m Hin Hchat. apply in_rev. rewrite rev_involutive.
    apply in_map. rewrite firstn_all2 by lia.
    apply (Permutation_in _ (Permutation_sym (newest_first_perm rows))).
    apply filter_In. split; [exact Hin |]. now apply String.eqb_eq.
Qed.

Lemma getMessages_pages_chain_witness :
  exists first second whole,
    getMessages None Examples.talk "c-1" 2 None = Ok first
    /\ next first = Some 30%Z
    /\ getMessages None Examples.talk "c-1" 2 (Some 30%Z) = Ok second
    /\ getMessages None Examples.talk "c-1" 4 None = Ok whole
    /\ page_messages whole
       = (page_messages second ++ page_messages first)%list.
Proof.
  eexists. 
  assert (Hnd : NoDup (map record_created_at
                         (filter (fun m => String.eqb (record_chat_id m) "c-1")
                                 Examples.talk))).
  { simpl. repeat constructor; simpl; intuition discriminate. }
  pose proof (getMessages_pages_chain Examples.talk "c-1" 2 _ Hnd
                (Nat.lt_0_succ 1) eq_refl) as H.
  simpl in H. destruct H as [second [whole [H1 [H2 H3]]]].
  exists second, whole. split; [reflexivity |]. split; [reflexivity |].
  repeat split; assumption.
Defined.

End PageFacts.

(** ** Deleting a chat *)

Module DeleteFacts.
Import Chat ChatQueries.

Lemma mem_all_same (x y : string) (l : list string) :
  l <> [] -> (forall z, In z l -> z = y) -> mem x l = String.eqb x y.
Proof.
  intros Hne H. destruct (String.eqb x y) eqn:E.
  - apply String.eqb_eq in E. subst y. apply mem_In.
    destruct l as [| z l]; [congruence |].
    left. apply H. now left.
  - destruct (mem x l) eqn:Em; [| reflexivity].
    apply mem_In in Em. apply H in Em. subst y.
    rewrite String.eqb_refl in E. discriminate.
Qed.

Lemma unique_key {A : Type} (key : A -> string) (l : list A) (a b : A) :
  NoDup (map key l) -> In a l -> In b l -> key a = key b -> a = b.
Proof.
  induction l as [| x l IH]; simpl; intros Hnd Ha Hb E; [contradiction |].
  inversion Hnd as [| ? ? Hx Hl]; subst.
  destruct Ha as [-> | Ha], Hb as [-> | Hb]; try reflexivity.
  - exfalso. apply Hx. rewrite E. now apply in_map.
  - exfalso. apply Hx. rewrite <- E. now apply in_map.
  - now apply IH.
Qed.

(** X17. Deleting a chat as its owner removes the chat and everything in it and
    nothing else: with chat ids unique, no chat row of that id is left,
    the members and messages left are exactly those of the other chats,
    and the other tables are as before. *)
Theorem deleteChat_by_owner_removes_chat_and_contents (s : store)
    (chatId ownerProfileId : uuid) (c : chat) :
  NoDup (map chat_id (chats s)) ->
  In c (chats s) -> chat_id c = chatId -> owner_id c = ownerProfileId ->
  let r := deleteChat None s chatId ownerProfileId in
  fst r = Ok true
  /\ chats (snd r)
     = filter (fun k => negb (String.eqb (chat_id k) chatId)) (chats s)
  /\ chat_members (snd r)
     = filter (fun m => negb (String.eqb (member_chat_id m) chatId))
              (chat_members s)
  /\ messages (snd r)
     = filter (fun m => negb (String.eqb (message_chat_id m) chatId))
              (messages s)
  /\ characters (snd r) = characters s
  /\ knowledge_subscriptions (snd r) = knowledge_subscriptions s
  /\ plugin_subscriptions (snd r) = plugin_subscriptions s.
Proof.
  intros Hnd Hin Hid Hown. simpl.
  set (doomed := fun k => String.eqb (chat_id k) chatId
                          && String.eqb (owner_id k) ownerProfileId).
  assert (Hgone : forall x,
            mem x (map chat_id (filter doomed (chats s)))
            = String.eqb x chatId).
  { intro x. apply mem_all_same.
    - assert (Hc : In c (filter doomed (chats s))).
      { apply filter_In. split; [exact Hin |]. unfold doomed.
        now rewrite Hid, Hown, !String.eqb_refl. }
      intro E. apply map_eq_nil in E. rewrite E in Hc. contradiction.
    - intros z Hz. apply in_map_iff in Hz. destruct Hz as [k [<- Hk]].
      apply filter_In in Hk. destruct Hk as [_ Hk]. unfold doomed in Hk.
      apply andb_true_iff in Hk. now apply String.eqb_eq. }
  parts; try reflexivity.
  - apply filter_ext_in. intros k Hk. unfold doomed. f_equal.
    destruct (String.eqb (chat_id k) chatId) eqn:E; [| reflexivity].
    apply String.eqb_eq in E. simpl.
    assert (k = c)
      by (apply (unique_key chat_id (chats s)); [assumption .. | congruence]).
    subst k. rewrite Hown. apply String.eqb_refl.
  - apply filter_ext. intro m. now rewrite Hgone.
  - apply filter_ext. intro m. now rewrite Hgone.
Qed.

Lemma deleteChat_by_owner_removes_chat_and_contents_witness :
  chats (snd (deleteChat None Examples.private_chat "c-1" "p1")) = []
  /\ chat_members (snd (deleteChat None Examples.private_chat "c-1" "p1")) = [].
Proof.
  destruct (deleteChat_by_owner_removes_chat_and_contents
              Examples.private_chat "c-1" "p1"
              {| chat_id := "c-1"; owner_id := "p1"; chat_name := "Azusa";
                 is_group := false; avatar := None; last_message := None |})
    as [_ [H1 [H2 _]]].
  - repeat constructor. intros [].
  - now left.
  - reflexivity.
  - reflexivity.
  - split; [exact H1 | exact H2].
Defined.

(** X18. Deleting a chat one does not own, or one that does not exist, deletes
    nothing and still reports success. *)
Theorem deleteChat_by_another_is_a_silent_no_op (s : store)
    (chatId ownerProfileId : uuid) :
  (forall c, In c (chats s) -> chat_id c = chatId ->
             owner_id c <> ownerProfileId) ->
  deleteChat None s chatId ownerProfileId = (Ok true, s).
Proof.
  intro H. unfold deleteChat.
  set (doomed := fun c => String.eqb (chat_id c) chatId
                          && String.eqb (owner_id c) ownerProfileId).
  assert (Hd : forall c, In c (chats s) -> doomed c = false).
  { intros c Hc. unfold doomed.
    destruct (String.eqb (chat_id c) chatId) eqn:E; [| reflexivity].
    apply String.eqb_eq in E. simpl. apply String.eqb_neq. now apply H. }
  rewrite (filter_none doomed (chats s) Hd). simpl.
  rewrite (PageFacts.filter_all _ (chats s)).
  2: { intros c Hc. apply negb_true_iff. exact (Hd c Hc). }
  rewrite (PageFacts.filter_all _ (chat_members s)) by reflexivity.
  rewrite (PageFacts.filter_all _ (messages s)) by reflexivity.
  now destruct s.
Qed.

Lemma deleteChat_by_another_is_a_silent_no_op_witness :
  deleteChat None Examples.private_chat "c-1" "p2"
  = (Ok true, Examples.private_chat).
Proof.
  apply deleteChat_by_another_is_a_silent_no_op.
  intros c [<- | []] _. discriminate.
Defined.

End DeleteFacts.

(** ** Linking and unlinking a knowledge base *)

Module LinkFacts.
Import Chat Subscriptions.

Lemma same_key_spec c k r :
  same_key c k r = true <-> subscribed_character r = c /\ subscribed_base r = k.
Proof.
  unfold same_key. now rewrite andb_true_iff, !String.eqb_eq.
Qed.

Lemma absent_no_same_key c k table :
  existsb (same_key c k) table = false ->
  forall r, In r table -> same_key c k r = false.
Proof.
  intros H r Hr. destruct (same_key c k r) eqn:E; [| reflexivity].
  assert (existsb (same_key c k) table = true)
    by (apply existsb_exists; now exists r).
  congruence.
Qed.

Lemma pairs_in c k table :
  In (c, k) (pairs table) -> exists r, In r table /\ same_key c k r = true.
Proof.
  unfold pairs. intro H. apply in_map_iff in H. destruct H as [r [E Hr]].
  exists r. split; [exact Hr |]. apply same_key_spec.
  now injection E.
Qed.

Section Upsert.
Variables (c k : uuid) (v : Z).

Let upsert (r : subscription) : subscription :=
  if same_key c k r
  then {| subscribed_character := subscribed_character r;
          subscribed_base := subscribed_base r;
          priority := v |}
  else r.

Lemma upsert_key r : same_key c k (upsert r) = same_key c k r.
Proof. unfold upsert. destruct (same_key c k r) eqn:E; [exact E | exact E]. Qed.

Lemma upsert_pairs table : pairs (map upsert table) = pairs table.
Proof.
  unfold pairs. rewrite map_map. apply map_ext. intro r. unfold upsert.
  now destruct (same_key c k r).
Qed.

Lemma upsert_others table :
  filter (fun r => negb (same_key c k r)) (map upsert table)
  = filter (fun r => negb (same_key c k r)) table.
Proof.
  induction table as [| r t IH]; simpl; [reflexivity |].
  rewrite upsert_key. destruct (same_key c k r) eqn:E; simpl; [exact IH |].
  unfold upsert at 1. rewrite E. now rewrite IH.
Qed.

Lemma upsert_absent table :
  (forall r, In r table -> same_key c k r = false) ->
  filter (same_key c k) (map upsert table) = [].
Proof.
  intro H. apply filter_none. intros r Hr. apply in_map_iff in Hr.
  destruct Hr as [r0 [<- Hr0]]. rewrite upsert_key. now apply H.
Qed.

Lemma upsert_present table :
  NoDup (pairs table) -> existsb (same_key c k) table = true ->
  filter (same_key c k) (map upsert table)
  = [ {| subscribed_character := c; subscribed_base := k; priority := v |} ].
Proof.
  induction table as [| r t IH]; simpl; intros Hnd Hex; [discriminate |].
  inversion Hnd as [| ? ? Hr Ht]; subst.
  rewrite upsert_key. destruct (same_key c k r) eqn:E; simpl.
  - unfold upsert at 1. rewrite E.
    apply same_key_spec in E. destruct E as [E1 E2]. rewrite E1, E2.
    f_equal. apply upsert_absent. intros r' Hr'.
    destruct (same_key c k r') eqn:E'; [| reflexivity].
    apply same_key_spec in E'. destruct E' as [E1' E2'].
    exfalso. apply Hr. rewrite E1, E2, <- E1', <- E2'.
    unfold pairs. now apply (in_map (fun r => (subscribed_character r,
                                               subscribed_base r))).
  - now apply IH.
Qed.

End Upsert.

(** X19. Linking is an upsert on the key (character, knowledge base). With the
    key unique in the table, afterwards the key has exactly one row and
    its priority is the one given (0 when none is given); the rows of the
    other keys are as before; and the key is still unique. *)
Theorem link_is_an_upsert (table : list subscription) (c k : uuid)
    (p : option Z) :
  NoDup (pairs table) ->
  let after := link_knowledge_base_to_ai table c k p in
  filter (same_key c k) after
  = [ {| subscribed_character := c; subscribed_base := k;
         priority := coalesce p 0 |} ]
  /\ filter (fun r => negb (same_key c k r)) after
     = filter (fun r => negb (same_key c k r)) table
  /\ NoDup (pairs after).
Proof.
  intros Hnd. unfold link_knowledge_base_to_ai.
  destruct (existsb (same_key c k) table) eqn:Ex; cbv zeta.
  - split; [| split].
    + now apply upsert_present.
    + apply upsert_others.
    + cbn [priority]. now rewrite upsert_pairs.
  - pose proof (absent_no_same_key c k table Ex) as Habs.
    split; [| split].
    + rewrite filter_app, (filter_none _ table Habs). simpl.
      unfold same_key. simpl. now rewrite !String.eqb_refl.
    + rewrite filter_app. simpl. unfold same_key at 2. simpl.
      rewrite !String.eqb_refl. simpl. apply app_nil_r.
    + unfold pairs. rewrite map_app. simpl.
      apply (Permutation_NoDup (l := (c, k) :: pairs table)).
      * apply Permutation_cons_append.
      * constructor; [| exact Hnd]. intro Hin.
        apply pairs_in in Hin. destruct Hin as [r [Hr E]].
        rewrite (Habs r Hr) in E. discriminate.
Qed.

Lemma link_is_an_upsert_witness :
  filter (same_key "c1" "kb1")
    (link_knowledge_base_to_ai
       [ {| subscribed_character := "c1"; subscribed_base := "kb1";
            priority := 3 |} ] "c1" "kb1" None)
  = [ {| subscribed_character := "c1"; subscribed_base := "kb1";
         priority := 0 |} ].
Proof.
  apply (link_is_an_upsert
           [ {| subscribed_character := "c1"; subscribed_base := "kb1";
                priority := 3 |} ] "c1" "kb1" None).
  repeat constructor. intros [].
Defined.

(** X20. Unlinking undoes a link that added the key: when the table had no row
    for the key, link then unlink gives the table back. Linking twice is
    linking once with the later priority. *)
Theorem unlink_undoes_link (table : list subscription) (c k : uuid)
    (p p' : option Z) :
  (existsb (same_key c k) table = false ->
   unlink_knowledge_base_from_ai (link_knowledge_base_to_ai table c k p) c k
   = table)
  /\ link_knowledge_base_to_ai (link_knowledge_base_to_ai table c k p) c k p'
     = link_knowledge_base_to_ai table c k p'.
Proof.
  split.
  - intro Ex. unfold link_knowledge_base_to_ai, unlink_knowledge_base_from_ai.
    rewrite Ex. cbv zeta. rewrite filter_app. simpl.
    unfold same_key at 2. simpl. rewrite !String.eqb_refl. simpl.
    rewrite app_nil_r. apply PageFacts.filter_all. intros r Hr.
    now rewrite (absent_no_same_key c k table Ex r Hr).
  - unfold link_knowledge_base_to_ai.
    destruct (existsb (same_key c k) table) eqn:Ex; cbv zeta; cbn [priority].
    + assert (Ex' : existsb (same_key c k)
                      (map (fun r => if same_key c k r
                                     then {| subscribed_character :=
                                               subscribed_character r;
                                             subscribed_base := subscribed_base r;
                                             priority := coalesce p 0 |}
                                     else r) table) = true).
      { apply existsb_exists in Ex. destruct Ex as [r [Hr E]].
        apply existsb_exists. eexists. split.
        - apply in_map. exact Hr.
        - cbv beta. rewrite E. exact E. }
      rewrite Ex'. rewrite map_map. apply map_ext. intro r.
      destruct (same_key c k r) eqn:E; cbn [priority].
      * unfold same_key in *. cbn [subscribed_character subscribed_base].
        now rewrite E.
      * now rewrite E.
    + assert (Ex' : existsb (same_key c k)
                      (table ++ [ {| subscribed_character := c;
                                     subscribed_base := k;
                                     priority := coalesce p 0 |} ]) = true).
      { rewrite existsb_app. simpl. unfold same_key at 2. simpl.
        rewrite !String.eqb_refl. now rewrite orb_true_r. }
      rewrite Ex'. rewrite map_app. simpl. unfold same_key at 2. simpl.
      rewrite !String.eqb_refl. simpl. f_equal.
      rewrite <- (map_id table) at 2. apply map_ext_in. intros r Hr.
      now rewrite (absent_no_same_key c k table Ex r Hr).
Qed.

Lemma unlink_undoes_link_witness :
  unlink_knowledge_base_from_ai
    (link_knowledge_base_to_ai [] "c1" "kb1" (Some 2%Z)) "c1" "kb1" = [].
Proof.
  apply (unlink_undoes_link [] "c1" "kb1" (Some 2%Z) None). reflexivity.
Defined.

Lemma link_is_an_upsert_row (table : list subscription) (c k : uuid)
    (p : option Z) :
  exists r, In r (link_knowledge_base_to_ai table c k p)
            /\ subscribed_character r = c /\ subscribed_base r = k.
Proof.
  unfold link_knowledge_base_to_ai.
  destruct (existsb (same_key c k) table) eqn:Ex; cbv zeta.
  - apply existsb_exists in Ex. destruct Ex as [r [Hr E]].
    eexists. split; [apply in_map; exact Hr |]. cbv beta. rewrite E.
    apply same_key_spec in E. exact E.
  - eexists. split; [apply in_or_app; right; now left |]. now split.
Qed.

(** X21. What the chat sees of a link: once a knowledge base is linked to a
    character, the ids read for that character's chats include it, and
    once it is unlinked they do not. *)
Theorem linked_base_is_searched (e : stream_env) (s : store)
    (table : list subscription) (c k : uuid) (p : option Z) :
  subscriptions_error e = None -> k <> "" ->
  (knowledge_subscriptions s = pairs (link_knowledge_base_to_ai table c k p) ->
   exists ids, getSubscribedKnowledgeBaseIds e s c = Ok ids /\ In k ids)
  /\ (knowledge_subscriptions s
      = pairs (unlink_knowledge_base_from_ai table c k) ->
      exists ids, getSubscribedKnowledgeBaseIds e s c = Ok ids /\ ~ In k ids).
Proof.
  intros He Hk. unfold getSubscribedKnowledgeBaseIds. rewrite He. split.
  - intro Hs. rewrite Hs. eexists. split; [reflexivity |].
    apply filter_In. split; [| now destruct k].
    apply in_map_iff. exists (c, k). split; [reflexivity |].
    apply filter_In. split; [| apply String.eqb_refl].
    destruct (link_is_an_upsert_row table c k p) as [r [Hr [E1 E2]]].
    unfold pairs. apply in_map_iff. exists r. split; [| exact Hr].
    now rewrite E1, E2.
  - intro Hs. rewrite Hs. eexists. split; [reflexivity |].
    intro Hin. apply filter_In in Hin. destruct Hin as [Hin _].
    apply in_map_iff in Hin. destruct Hin as [[c' k'] [Ek Hin]].
    simpl in Ek. subst k'. apply filter_In in Hin. destruct Hin as [Hin Ec].
    simpl in Ec. apply String.eqb_eq in Ec. subst c'.
    apply pairs_in in Hin. destruct Hin as [r [Hr E]].
    unfold unlink_knowledge_base_from_ai in Hr. apply filter_In in Hr.
    destruct Hr as [_ Hr]. rewrite E in Hr. discriminate.
Qed.

Lemma linked_base_is_searched_witness :
  exists ids,
    getSubscribedKnowledgeBaseIds (Examples.stream_env [] None)
      Examples.no_chats "c1" = Ok ids
    /\ In "kb1" ids.
Proof.
  destruct (linked_base_is_searched (Examples.stream_env [] None)
              Examples.no_chats [] "c1" "kb1" None eq_refl) as [H _].
  - discriminate.
  - apply H. reflexivity.
Defined.

End LinkFacts.

(** ** Storage names *)

Module StorageNameFacts.
Import StorageName.

Lemma safe_not_white (c : N) : is_safe c = true -> is_white c = false.
Proof.
  unfold is_safe, is_white. intro H.
  repeat rewrite orb_true_iff in H. repeat rewrite andb_true_iff in H.
  repeat rewrite N.leb_le in H. repeat rewrite N.eqb_eq in H.
  repeat rewrite orb_false_iff. repeat rewrite andb_false_iff.
  repeat rewrite N.leb_gt. repeat rewrite N.eqb_neq.
  repeat split; lia.
Qed.

Lemma trimStart_clean (s : js_string) :
  Forall (fun c => is_white c = false) s -> trimStart s = s.
Proof.
  destruct 1 as [| c s Hc Hs]; simpl; [reflexivity | now rewrite Hc].
Qed.

Lemma trim_clean (s : js_string) :
  Forall (fun c => is_white c = false) s -> trim s = s.
Proof.
  intro H. unfold trim. rewrite (trimStart_clean s H).
  rewrite trimStart_clean; [apply rev_involutive |].
  apply Forall_rev. exact H.
Qed.

Lemma underscore_runs_clean (s : js_string) :
  Forall (fun c => is_white c = false) s -> underscore_runs false s = s.
Proof.
  induction 1 as [| c s Hc Hs IH]; simpl; [reflexivity |].
  now rewrite Hc, IH.
Qed.

(** A name that is not empty and made of letters, digits, dot, underscore
    and hyphen is kept as it is. *)
Lemma safe_name_kept (name : js_string) :
  name <> [] -> Forall (fun c => is_safe c = true) name ->
  makeSafeStorageFileName name = name.
Proof.
  intros Hne Hs.
  assert (Hw : Forall (fun c => is_white c = false) name).
  { apply Forall_forall. intros c Hc. apply safe_not_white.
    rewrite Forall_forall in Hs. now apply Hs. }
  unfold makeSafeStorageFileName. cbv zeta.
  rewrite (trim_clean name Hw), (underscore_runs_clean name Hw).
  rewrite PageFacts.filter_all.
  - destruct name; [congruence | reflexivity].
  - rewrite Forall_forall in Hs. exact Hs.
Qed.

Lemma storage_name_nonempty (fileName : js_string) :
  makeSafeStorageFileName fileName <> [].
Proof.
  unfold makeSafeStorageFileName. cbv zeta.
  set (cleaned := filter is_safe _).
  destruct (0 <? List.length cleaned)%nat eqn:E; [| discriminate].
  apply Nat.ltb_lt in E. destruct cleaned; [simpl in E; lia | discriminate].
Qed.

Lemma storage_name_all_safe (fileName : js_string) :
  Forall (fun c => is_safe c = true) (makeSafeStorageFileName fileName).
Proof.
  unfold makeSafeStorageFileName. cbv zeta.
  set (cleaned := filter is_safe _).
  destruct (0 <? List.length cleaned)%nat; [| repeat constructor].
  apply Forall_forall. intros c Hc. unfold cleaned in Hc.
  now apply filter_In in Hc.
Qed.

(** X22. Whatever the file name, the storage name is not empty and has only
    letters, digits, dot, underscore and hyphen: no blank, no slash, no
    character outside ASCII. *)
Theorem storage_name_is_safe (fileName : js_string) :
  makeSafeStorageFileName fileName <> []
  /\ (forall c, In c (makeSafeStorageFileName fileName) ->
                is_safe c = true /\ is_white c = false /\ c <> 47%N
                /\ (c < 128)%N).
Proof.
  split; [apply storage_name_nonempty |].
  intros c Hc. pose proof (storage_name_all_safe fileName) as H.
  rewrite Forall_forall in H. specialize (H c Hc).
  split; [exact H |]. split; [now apply safe_not_white |].
  unfold is_safe in H.
  repeat rewrite orb_true_iff in H. repeat rewrite andb_true_iff in H.
  repeat rewrite N.leb_le in H. repeat rewrite N.eqb_eq in H.
  split; lia.
Qed.

Lemma storage_name_is_safe_witness :
  is_safe 95 = true /\ is_white 95 = false /\ 95%N <> 47%N /\ (95 < 128)%N.
Proof.
  destruct (storage_name_is_safe [109; 121; 32; 9; 102; 47]%N) as [_ H].
  apply H. right. right. left. reflexivity.
Defined.

(** X23. Making a name safe twice is making it safe once, and a name that is
    already safe and not empty is not changed. *)
Theorem storage_name_is_stable (fileName : js_string) :
  makeSafeStorageFileName (makeSafeStorageFileName fileName)
  = makeSafeStorageFileName fileName
  /\ (fileName <> [] -> Forall (fun c => is_safe c = true) fileName ->
      makeSafeStorageFileName fileName = fileName).
Proof.
  split.
  - apply safe_name_kept;
      [apply storage_name_nonempty | apply storage_name_all_safe].
  - apply safe_name_kept.
Qed.

Lemma storage_name_is_stable_witness :
  makeSafeStorageFileName [97; 46; 116; 120; 116]%N
  = [97; 46; 116; 120; 116]%N.
Proof.
  apply (storage_name_is_stable [97; 46; 116; 120; 116]%N).
  - discriminate.
  - repeat constructor.
Defined.

End StorageNameFacts.

(** ** The preview of a response *)

Module PreviewFacts.
Import StorageName Preview.

Lemma blank_runs_length (b : bool) (s : js_string) :
  (List.length (blank_runs b s) <= List.length s)%nat.
Proof.
  revert b. induction s as [| c s IH]; intro b; simpl; [lia |].
  destruct (is_white c).
  - destruct b; simpl; specialize (IH true); lia.
  - simpl. specialize (IH false). lia.
Qed.

Lemma blank_runs_single_blanks (b : bool) (s : js_string) :
  single_blanks b (blank_runs b s) = true.
Proof.
  revert b. induction s as [| c s IH]; intro b; simpl; [reflexivity |].
  destruct (is_white c) eqn:E.
  - destruct b; [apply IH |]. simpl. apply IH.
  - simpl. rewrite E. apply IH.
Qed.

Lemma blank_runs_white (b : bool) (s : js_string) (c : N) :
  In c (blank_runs b s) -> is_white c = true -> c = 32%N.
Proof.
  revert b. induction s as [| x s IH]; intros b Hin Hw; [contradiction |].
  simpl in Hin. destruct (is_white x) eqn:E.
  - destruct b; [now apply (IH true) |].
    destruct Hin as [<- | Hin]; [reflexivity | now apply (IH true)].
  - destruct Hin as [<- | Hin]; [congruence | now apply (IH false)].
Qed.

Lemma blank_runs_clean (s : js_string) :
  Forall (fun c => is_white c = false) s -> blank_runs false s = s.
Proof.
  induction 1 as [| c s Hc Hs IH]; simpl; [reflexivity |].
  now rewrite Hc, IH.
Qed.

(** X9. The preview computed for [last_message] has at most 50 code units
    and its only whitespace is single blanks, whatever the response was:
    every whitespace unit in it is the blank, and no two blanks are in a
    row. A response of at most 50 units without whitespace is its own
    preview. *)
Theorem preview_is_short_and_single_spaced (fullResponse : js_string) :
  (List.length (preview fullResponse) <= 50)%nat
  /\ single_blanks false (preview fullResponse) = true
  /\ (forall c, In c (preview fullResponse) -> is_white c = true -> c = 32%N)
  /\ ((List.length fullResponse <= 50)%nat ->
      Forall (fun c => is_white c = false) fullResponse ->
      preview fullResponse = fullResponse).
Proof.
  unfold preview. parts.
  - pose proof (blank_runs_length false (firstn 50 fullResponse)).
    pose proof (firstn_le_length 50 fullResponse). lia.
  - apply blank_runs_single_blanks.
  - apply blank_runs_white.
  - intros Hl Hw. rewrite firstn_all2 by exact Hl.
    now apply blank_runs_clean.
Qed.

Lemma preview_is_short_and_single_spaced_witness :
  preview [72; 105]%N = [72; 105]%N.
Proof.
  apply (preview_is_short_and_single_spaced [72; 105]%N).
  - simpl. lia.
  - repeat constructor.
Defined.

End PreviewFacts.

(** ** Adding a document and deleting a base *)

Module DocumentFacts.
Import Schema Ingestion StorageName Queue Documents.

Lemma single_Ok {A : Type} (rows : list A) (r : A) :
  single rows = Ok r -> rows = [r].
Proof.
  destruct rows as [| x [| y l]]; simpl; intro H; try discriminate.
  now injection H as ->.
Qed.

Lemma select_base_found e db kbId kb :
  select_base e db kbId = Ok kb ->
  In kb (knowledge_bases db) /\ base_id kb = kbId.
Proof.
  unfold select_base. intro H. apply single_Ok in H.
  assert (Hin : In kb (filter (fun b => can_select e b
                                        && String.eqb (base_id b) kbId)
                              (knowledge_bases db)))
    by (rewrite H; now left).
  apply filter_In in Hin. destruct Hin as [Hin Hc].
  apply andb_prop in Hc. destruct Hc as [_ Hc].
  apply String.eqb_eq in Hc. now split.
Qed.

Lemma not_author profile kb :
  profile <> Some (author_id kb) -> is_author profile kb = false.
Proof.
  destruct profile as [p |]; simpl; [| reflexivity].
  intro H. apply String.eqb_neq. intro E. apply H. now rewrite E.
Qed.

Lemma author_is profile kb :
  is_author profile kb = true -> profile = Some (author_id kb).
Proof.
  destruct profile as [p |]; simpl; [| discriminate].
  intro H. apply String.eqb_eq in H. now rewrite H.
Qed.

(** X24. A user who is not the author of the base named changes nothing,
    by adding a document or by deleting the base. The handlers run for a
    request that has passed the two middlewares of the route and so
    carries the profile of its user: when no stored base of this id has
    that profile as its author, both handlers answer 404 or 403 and leave
    the database as it was, whatever the policies show and whatever the
    body holds. The answer is 404 exactly when the select of the base
    does not give one row. *)
Theorem only_the_author_changes_a_base (e : services) (db : database)
    (profile : uuid) (kbId : uuid) (req : request) :
  (forall b, In b (knowledge_bases db) -> base_id b = kbId ->
             author_id b <> profile) ->
  let answer :=
    match select_base e db kbId with
    | Ok _ => (Ok 403%nat, db)
    | Err _ => (Ok 404%nat, db)
    end in
  add_document e db (Some profile) kbId req = answer
  /\ delete_base e db (Some profile) kbId = answer.
Proof.
  intros H answer. unfold answer, add_document, delete_base.
  destruct (select_base e db kbId) as [kb | m] eqn:E; [| now split].
  destruct (select_base_found _ _ _ _ E) as [Hin Hid].
  rewrite (not_author (Some profile) kb); [now split |].
  intro E'. injection E' as E'. now apply (H kb Hin Hid).
Qed.

Lemma only_the_author_changes_a_base_witness :
  add_document (Examples.services None) Examples.library (Some "p2") "kb1"
    Examples.memo = (Ok 403%nat, Examples.library)
  /\ delete_base (Examples.services None) Examples.library (Some "p2") "kb1"
     = (Ok 403%nat, Examples.library).
Proof.
  apply (only_the_author_changes_a_base (Examples.services None)
           Examples.library "p2" "kb1" Examples.memo).
  intros b [<- | [<- | []]] Hid; simpl in *; discriminate.
Defined.

Lemma contains_slash_app (a b : string) :
  contains_slash (a ++ b) = contains_slash a || contains_slash b.
Proof.
  induction a as [| c a IH]; simpl; [reflexivity |].
  now rewrite IH, orb_assoc.
Qed.

Lemma digits_no_slash (d : Decimal.uint) :
  contains_slash (NilEmpty.string_of_uint d) = false.
Proof. induction d; simpl; auto. Qed.

Lemma decimal_no_slash (n : N) : contains_slash (decimal n) = false.
Proof.
  unfold decimal, NilZero.string_of_uint.
  destruct (N.to_uint n) as [| d | d | d | d | d | d | d | d | d | d];
    simpl; try reflexivity; apply digits_no_slash.
Qed.

Lemma safe_unit_no_slash (c : N) :
  is_safe c = true -> Ascii.eqb (ascii_of_N c) "/" = false.
Proof.
  intro H. unfold is_safe in H.
  repeat rewrite orb_true_iff in H. repeat rewrite andb_true_iff in H.
  repeat rewrite N.leb_le in H. repeat rewrite N.eqb_eq in H.
  apply Ascii.eqb_neq. intro E. apply (f_equal N_of_ascii) in E.
  rewrite N_ascii_embedding in E by lia. simpl in E. lia.
Qed.

Lemma safe_text_no_slash (s : js_string) :
  Forall (fun c => is_safe c = true) s -> contains_slash (text_of s) = false.
Proof.
  induction 1 as [| c s Hc _ IH]; simpl; [reflexivity |].
  now rewrite (safe_unit_no_slash c Hc), IH.
Qed.

Lemma existsb_path_free (path : string) (objects : list (string * Blob)) :
  existsb (fun o => String.eqb (fst o) path) objects = false ->
  ~ In path (map fst objects).
Proof.
  intros H Hin. apply in_map_iff in Hin. destruct Hin as [o [<- Hin]].
  assert (E : existsb (fun o' => String.eqb (fst o') (fst o)) objects = true).
  { apply existsb_exists. exists o. split; [assumption | apply String.eqb_refl]. }
  congruence.
Qed.

(** The file rows after the last update of the handler: with a fresh id
    the new row is the only one the update reaches, and it was pending
    already. *)
Lemma requeue_new_file (fileRecord : knowledge_file) (files : list knowledge_file) :
  status fileRecord = pending ->
  ~ In (file_id_of fileRecord) (map file_id_of files) ->
  map (fun f => if String.eqb (file_id_of f) (file_id_of fileRecord)
                then set_status pending f else f)
      (files ++ [fileRecord])
  = (files ++ [fileRecord])%list.
Proof.
  intros Hs Hfresh. rewrite map_app. simpl. rewrite String.eqb_refl.
  f_equal.
  - rewrite <- (map_id files) at 2. apply map_ext_in. intros f Hf.
    destruct (String.eqb (file_id_of f) (file_id_of fileRecord)) eqn:E;
      [| reflexivity].
    apply String.eqb_eq in E. exfalso. apply Hfresh. rewrite <- E.
    now apply in_map.
  - f_equal. destruct fileRecord. simpl in *. now subst.
Qed.

(** The handler when it answers 202, written out. *)
Lemma add_document_accepted e db profile kbId req db' :
  add_document e db profile kbId req = (Ok 202%nat, db') ->
  ~ In (new_file_id e) (map file_id_of (knowledge_files (tables db))) ->
  exists kb c fileName calls,
    select_base e db kbId = Ok kb
    /\ is_author profile kb = true
    /\ read_request e req = Some (c, JStr fileName, calls)
    /\ let storagePath :=
         kbId ++ "/" ++ decimal (Date_now e calls) ++ "_"
              ++ text_of (makeSafeStorageFileName (code_units e fileName)) in
       ~ In storagePath (map fst (bucket db))
       /\ db' = {| knowledge_bases := knowledge_bases db;
                   tables :=
                     {| knowledge_files :=
                          (knowledge_files (tables db)
                           ++ [new_file e kbId storagePath fileName c])%list;
                        knowledge_documents :=
                          knowledge_documents (tables db) |};
                   subscriptions := subscriptions db;
                   bucket := (bucket db ++ [(storagePath, stored c)])%list |}.
Proof.
  unfold add_document. intros H Hfresh.
  destruct (select_base e db kbId) as [kb | m]; [| discriminate].
  destruct (is_author profile kb) eqn:Ha; simpl in H; [| discriminate].
  destruct (read_request e req) as [[[c [fileName | n]] calls] |];
    try discriminate.
  destruct (upload_error e); [discriminate |].
  destruct (existsb _ (bucket db)) eqn:Ex; [discriminate |].
  destruct (file_error e); [discriminate |].
  exists kb, c, fileName, calls.
  split; [reflexivity |]. split; [exact Ha |]. split; [reflexivity |].
  cbv zeta. split.
  - now apply existsb_path_free.
  - injection H as <-. unfold with_tables, with_object, update_file. simpl.
    f_equal. f_equal.
    apply (requeue_new_file (new_file e kbId _ fileName c));
      [reflexivity | exact Hfresh].
Qed.

(** X25. An accepted document adds one file row and one object, and nothing
    else. The request came from the author of a base of this id; the row
    is pending, without an error, under this base and the new id; its
    path is the folder of the base, a slash, and a name that has no
    slash, whatever the file name was; no object was at that path before,
    and the object uploaded is there now. *)
Theorem add_document_enqueues_one_file (e : services) (db db' : database)
    (profile : option uuid) (kbId : uuid) (req : request) :
  add_document e db profile kbId req = (Ok 202%nat, db') ->
  ~ In (new_file_id e) (map file_id_of (knowledge_files (tables db))) ->
  exists fileRecord leaf object,
    knowledge_bases db' = knowledge_bases db
    /\ subscriptions db' = subscriptions db
    /\ knowledge_documents (tables db') = knowledge_documents (tables db)
    /\ knowledge_files (tables db')
       = (knowledge_files (tables db) ++ [fileRecord])%list
    /\ bucket db' = (bucket db ++ [(file_path fileRecord, object)])%list
    /\ ~ In (file_path fileRecord) (map fst (bucket db))
    /\ file_path fileRecord = kbId ++ "/" ++ leaf
    /\ contains_slash leaf = false
    /\ file_id_of fileRecord = new_file_id e
    /\ file_knowledge_base_id fileRecord = kbId
    /\ status fileRecord = pending
    /\ error_message fileRecord = None
    /\ (exists kb, In kb (knowledge_bases db) /\ base_id kb = kbId
                   /\ profile = Some (author_id kb)).
Proof.
  intros H Hfresh.
  destruct (add_document_accepted _ _ _ _ _ _ H Hfresh)
    as [kb [c [fileName [calls [Hs [Ha [_ [Hfree ->]]]]]]]].
  eexists. exists (decimal (Date_now e calls) ++ "_"
                   ++ text_of (makeSafeStorageFileName (code_units e fileName))).
  exists (stored c). simpl. parts; try reflexivity.
  - exact Hfree.
  - rewrite !contains_slash_app, decimal_no_slash. simpl.
    apply safe_text_no_slash, StorageNameFacts.storage_name_all_safe.
  - exists kb. destruct (select_base_found _ _ _ _ Hs) as [Hin Hid].
    parts; try assumption. now apply author_is.
Qed.

Lemma add_document_enqueues_one_file_witness :
  exists fileRecord leaf,
    knowledge_files
      (tables (snd (add_document (Examples.services None) Examples.library
                      (Some "p1") "kb1" Examples.memo)))
    = [Examples.notes; fileRecord]
    /\ file_path fileRecord = "kb1" ++ "/" ++ leaf
    /\ contains_slash leaf = false.
Proof.
  destruct (add_document_enqueues_one_file (Examples.services None)
              Examples.library _ (Some "p1") "kb1" Examples.memo eq_refl)
    as [fileRecord [leaf [object [_ [_ [_ [Hf [_ [_ [Hp [Hl _]]]]]]]]]]].
  - simpl. intros [E | []]. discriminate.
  - exists fileRecord, leaf. parts; assumption.
Defined.

(** X26. A request that is not accepted adds no row: the tables, the bases
    and the subscriptions are as they were. The bucket is as it was too,
    except when the upload worked and the insert of the file row failed:
    then the answer is 500 and the object uploaded stays in the bucket,
    at a path that was free, with no row written for it. *)
Theorem refused_document_adds_no_row (e : services) (db : database)
    (profile : option uuid) (kbId : uuid) (req : request) :
  fst (add_document e db profile kbId req) <> Ok 202%nat ->
  let db' := snd (add_document e db profile kbId req) in
  tables db' = tables db
  /\ knowledge_bases db' = knowledge_bases db
  /\ subscriptions db' = subscriptions db
  /\ (bucket db' = bucket db
      \/ (fst (add_document e db profile kbId req) = Ok 500%nat
          /\ file_error e <> None
          /\ exists path object,
               bucket db' = (bucket db ++ [(path, object)])%list
               /\ ~ In path (map fst (bucket db)))).
Proof.
  unfold add_document.
  destruct (select_base e db kbId) as [kb | m];
    [| intros _; simpl; parts; try reflexivity; now left].
  destruct (is_author profile kb); simpl;
    [| intros _; simpl; parts; try reflexivity; now left].
  destruct (read_request e req) as [[[c [fileName | n]] calls] |];
    try (intros _; simpl; parts; try reflexivity; now left).
  destruct (upload_error e);
    [intros _; simpl; parts; try reflexivity; now left |].
  destruct (existsb _ (bucket db)) eqn:Ex;
    [intros _; simpl; parts; try reflexivity; now left |].
  destruct (file_error e) eqn:Ef.
  - intros _. simpl. parts; try reflexivity. right.
    parts; [reflexivity | discriminate |].
    eexists. eexists. split; [reflexivity | now apply existsb_path_free].
  - simpl. intro H. now contradiction H.
Qed.

Lemma refused_document_adds_no_row_witness :
  tables (snd (add_document (Examples.services (Some "permission denied"))
                 Examples.library (Some "p1") "kb1" Examples.memo))
  = tables Examples.library
  /\ List.length
       (bucket (snd (add_document (Examples.services (Some "permission denied"))
                       Examples.library (Some "p1") "kb1" Examples.memo)))
     = 2%nat.
Proof.
  destruct (refused_document_adds_no_row
              (Examples.services (Some "permission denied"))
              Examples.library (Some "p1") "kb1" Examples.memo)
    as [H1 _].
  - discriminate.
  - split; [exact H1 | reflexivity].
Defined.

(** X27. A document sent as JSON text and accepted joins the end of the queue
    as a file of type text/plain: on an idle queue it is the file the
    worker takes next, and whatever blob the worker downloads for it, the
    worker takes the text of the blob as the one document, without a
    parser that could fail. *)
Theorem text_document_is_queued_as_plain_text (e : services)
    (db db' : database) (profile : option uuid) (kbId : uuid)
    (body : option (string * metadata)) :
  add_document e db profile kbId (json_mode body) = (Ok 202%nat, db') ->
  ~ In (new_file_id e) (map file_id_of (knowledge_files (tables db))) ->
  exists fileRecord,
    pending_files (tables db')
    = (pending_files (tables db) ++ [fileRecord])%list
    /\ (pending_files (tables db) = [] ->
        Worker.select_pending (tables db') = Some fileRecord)
    /\ file_type fileRecord = Some "text/plain"
    /\ forall (w : env) (downloaded : Blob),
         Worker.parse_downloaded w fileRecord downloaded
         = Ok [ {| pageContent := blob_text downloaded;
                   doc_meta := [("fileName", JStr (file_name fileRecord));
                                ("source", JStr (file_path fileRecord));
                                ("type", JStr "text")] |} ].
Proof.
  intros H Hfresh.
  destruct (add_document_accepted _ _ _ _ _ _ H Hfresh)
    as [kb [c [fileName [calls [_ [_ [Hr [_ ->]]]]]]]].
  assert (Hc : exists text, c = Text text).
  { unfold read_request in Hr. destruct body as [[text m] |]; [| discriminate].
    destruct (truthy text); [| discriminate].
    injection Hr as <- _ _. now exists text. }
  destruct Hc as [text ->].
  set (path := kbId ++ "/" ++ decimal (Date_now e calls) ++ "_"
               ++ text_of (makeSafeStorageFileName (code_units e fileName))).
  exists (new_file e kbId path fileName (Text text)).
  parts.
  - unfold pending_files. simpl. now rewrite filter_app.
  - intro Hidle. unfold pending_files, is_pending in Hidle.
    unfold Worker.select_pending. simpl. rewrite filter_app, Hidle.
    reflexivity.
  - reflexivity.
  - reflexivity.
Qed.

Lemma text_document_is_queued_as_plain_text_witness :
  exists fileRecord,
    pending_files
      (tables (snd (add_document (Examples.services None) Examples.library
                      (Some "p1") "kb1" Examples.memo)))
    = [Examples.notes; fileRecord]
    /\ file_type fileRecord = Some "text/plain".
Proof.
  destruct (text_document_is_queued_as_plain_text (Examples.services None)
              Examples.library _ (Some "p1") "kb1"
              (Some ("tea at five", [("fileName", JStr "../kb2/memo 1.txt")]))
              eq_refl)
    as [fileRecord [H1 [_ [H2 _]]]].
  - simpl. intros [E | []]. discriminate.
  - exists fileRecord. split; assumption.
Defined.

Lemma gone_is_the_base e (bases : list knowledge_base) kbId kb :
  In kb bases -> base_id kb = kbId -> can_delete e kb = true ->
  forall x,
    mem x (map base_id
             (filter (fun b => String.eqb (base_id b) kbId && can_delete e b)
                     bases))
    = String.eqb x kbId.
Proof.
  intros Hin Hid Hdel x.
  destruct (String.eqb x kbId) eqn:E.
  - apply String.eqb_eq in E. subst x. apply mem_In. apply in_map_iff.
    exists kb. split; [assumption |]. apply filter_In. split; [assumption |].
    now rewrite Hid, String.eqb_refl, Hdel.
  - destruct (mem x _) eqn:M; [| reflexivity].
    apply mem_In in M. apply in_map_iff in M. destruct M as [b [Hb Hf]].
    apply filter_In in Hf. destruct Hf as [_ Hf].
    apply andb_prop in Hf. destruct Hf as [Hf _].
    apply String.eqb_eq in Hf. apply String.eqb_neq in E. congruence.
Qed.

(** The tables after a deletion by the author that the policy lets
    through, written with the id of the base. *)
Lemma delete_base_done e db db' profile kbId :
  delete_base e db profile kbId = (Ok 200%nat, db') ->
  (forall b, In b (knowledge_bases db) -> base_id b = kbId ->
             can_delete e b = true) ->
  knowledge_bases db'
  = filter (fun b => negb (String.eqb (base_id b) kbId)) (knowledge_bases db)
  /\ knowledge_files (tables db')
     = filter (fun f => negb (String.eqb (file_knowledge_base_id f) kbId))
              (knowledge_files (tables db))
  /\ knowledge_documents (tables db')
     = filter (fun d =>
                 negb (String.eqb (knowledge_base_id d) kbId)
                 && negb match file_id d with
                         | Some f =>
                             mem f (map file_id_of
                                      (filter (fun g =>
                                                 String.eqb
                                                   (file_knowledge_base_id g)
                                                   kbId)
                                              (knowledge_files (tables db))))
                         | None => false
                         end)
              (knowledge_documents (tables db))
  /\ subscriptions db'
     = filter (fun r => negb (String.eqb (Subscriptions.subscribed_base r)
                                         kbId))
              (subscriptions db).
Proof.
  unfold delete_base. intros H Hdel.
  destruct (select_base e db kbId) as [kb | m] eqn:Es; [| discriminate].
  destruct (select_base_found _ _ _ _ Es) as [Hin Hid].
  destruct (is_author profile kb); simpl in H; [| discriminate].
  destruct (delete_error e); [discriminate |].
  pose proof (gone_is_the_base e _ kbId kb Hin Hid (Hdel kb Hin Hid)) as G.
  assert (Hb : filter (fun b => negb (String.eqb (base_id b) kbId
                                      && can_delete e b))
                      (knowledge_bases db)
               = filter (fun b => negb (String.eqb (base_id b) kbId))
                        (knowledge_bases db)).
  { apply filter_ext_in. intros b Hb.
    destruct (String.eqb (base_id b) kbId) eqn:E; [| reflexivity].
    apply String.eqb_eq in E. now rewrite (Hdel b Hb E). }
  assert (Hf : forall (files : list knowledge_file),
             filter (fun f => mem (file_knowledge_base_id f)
                        (map base_id
                           (filter (fun b => String.eqb (base_id b) kbId
                                             && can_delete e b)
                                   (knowledge_bases db))))
                    files
             = filter (fun g => String.eqb (file_knowledge_base_id g) kbId)
                      files).
  { intro files. apply filter_ext. intro f. apply G. }
  assert (R : forall db1,
             knowledge_bases (clean_storage e kbId db1) = knowledge_bases db1
             /\ tables (clean_storage e kbId db1) = tables db1
             /\ subscriptions (clean_storage e kbId db1) = subscriptions db1).
  { intro db1. unfold clean_storage. destruct (list_files e) as [files | m].
    - destruct (0 <? List.length files)%nat; [| now parts].
      destruct (remove_error e); now parts.
    - now parts. }
  cbv zeta in H. injection H as <-.
  match goal with
  | |- context [clean_storage e kbId ?d] => destruct (R d) as [H1 [H2 H3]]
  end.
  rewrite H1, H2, H3. simpl. parts.
  - exact Hb.
  - apply filter_ext. intro f. now rewrite G.
  - rewrite Hf. apply filter_ext. intro d. now rewrite G.
  - apply filter_ext. intro r. now rewrite G.
Qed.

(** X28. When the author deletes a base and the policy lets the deletion
    through, the base goes with everything under it and nothing else:
    the bases, files and subscriptions left are those of another base
    id, in their order; no document of the base is left, and a document
    of another base stays unless its file was a file of the base; and a
    search in the deleted base finds nothing. *)
Theorem delete_base_cascades (e : services) (db db' : database)
    (profile : option uuid) (kbId : uuid) :
  delete_base e db profile kbId = (Ok 200%nat, db') ->
  (forall b, In b (knowledge_bases db) -> base_id b = kbId ->
             can_delete e b = true) ->
  knowledge_bases db'
  = filter (fun b => negb (String.eqb (base_id b) kbId)) (knowledge_bases db)
  /\ knowledge_files (tables db')
     = filter (fun f => negb (String.eqb (file_knowledge_base_id f) kbId))
              (knowledge_files (tables db))
  /\ subscriptions db'
     = filter (fun r => negb (String.eqb (Subscriptions.subscribed_base r)
                                         kbId))
              (subscriptions db)
  /\ (forall d, In d (knowledge_documents (tables db')) ->
                In d (knowledge_documents (tables db))
                /\ knowledge_base_id d <> kbId)
  /\ (forall d, In d (knowledge_documents (tables db)) ->
                knowledge_base_id d <> kbId ->
                (forall g, In g (knowledge_files (tables db)) ->
                           file_id d = Some (file_id_of g) ->
                           file_knowledge_base_id g <> kbId) ->
                In d (knowledge_documents (tables db')))
  /\ (forall cosine_distance q t n,
        (0 <= n)%Z ->
        Retrieval.match_knowledge_documents cosine_distance q [kbId] t n
          (knowledge_documents (tables db')) = Ok []).
Proof.
  intros H Hdel.
  destruct (delete_base_done _ _ _ _ _ H Hdel) as [H1 [H2 [H3 H4]]].
  assert (Hd : forall d, In d (knowledge_documents (tables db')) ->
                         In d (knowledge_documents (tables db))
                         /\ knowledge_base_id d <> kbId).
  { intros d Hin. rewrite H3 in Hin. apply filter_In in Hin.
    destruct Hin as [Hin Hc]. split; [assumption |].
    apply andb_prop in Hc. destruct Hc as [Hc _].
    apply negb_true_iff in Hc. now apply String.eqb_neq. }
  parts; try assumption.
  - intros d Hin Hkb Hfile. rewrite H3. apply filter_In.
    split; [assumption |]. apply andb_true_intro. split.
    + apply negb_true_iff. now apply String.eqb_neq.
    + apply negb_true_iff. destruct (file_id d) as [f |] eqn:Ef;
        [| reflexivity].
      destruct (mem f _) eqn:M; [| reflexivity].
      apply mem_In in M. apply in_map_iff in M. destruct M as [g [Hg Hgin]].
      apply filter_In in Hgin. destruct Hgin as [Hgin Hgk].
      apply String.eqb_eq in Hgk. exfalso.
      apply (Hfile g Hgin); [now rewrite Hg | assumption].
  - intros cd q t n Hn. unfold Retrieval.match_knowledge_documents.
    rewrite filter_none.
    + unfold Retrieval.limit. simpl.
      destruct (n <? 0)%Z eqn:E; [apply Z.ltb_lt in E; lia |].
      simpl. now rewrite firstn_nil.
    + intros d Hin. apply Hd in Hin. destruct Hin as [_ Hk].
      unfold Retrieval.where_clause. simpl.
      apply String.eqb_neq in Hk. now rewrite Hk.
Qed.

Lemma delete_base_cascades_witness :
  map id (knowledge_documents
            (tables (snd (delete_base (Examples.services None)
                            Examples.library (Some "p1") "kb1"))))
  = ["d4"]
  /\ Retrieval.match_knowledge_documents Examples.unit_cosine_distance
       Examples.east ["kb1"] 0 5
       (knowledge_documents
          (tables (snd (delete_base (Examples.services None)
                          Examples.library (Some "p1") "kb1"))))
     = Ok [].
Proof.
  split; [reflexivity |].
  destruct (delete_base_cascades (Examples.services None) Examples.library _
              (Some "p1") "kb1" eq_refl) as [_ [_ [_ [_ [_ H]]]]].
  - reflexivity.
  - apply H. lia.
Defined.

Lemma prefix_of_path (a b c : string) :
  String.prefix (a ++ b) (a ++ b ++ c) = true.
Proof.
  induction a as [| x a IH]; simpl.
  - induction b as [| y b IHb]; simpl; [now destruct c |].
    destruct (ascii_dec y y); [assumption | congruence].
  - destruct (ascii_dec x x); [assumption | congruence].
Qed.

(** X29. Deleting a base never adds an object to the bucket and never removes
    one outside the folder of the base: whatever the storage lists and
    whoever asks, an object whose path does not begin with the id of the
    base and a slash is still there afterwards. *)
Theorem delete_base_removes_only_its_folder (e : services) (db : database)
    (profile : option uuid) (kbId : uuid) :
  let db' := snd (delete_base e db profile kbId) in
  (forall o, In o (bucket db') -> In o (bucket db))
  /\ (forall o, In o (bucket db) ->
                String.prefix (kbId ++ "/") (fst o) = false ->
                In o (bucket db')).
Proof.
  assert (R : forall db1,
             (forall o, In o (bucket (clean_storage e kbId db1)) ->
                        In o (bucket db1))
             /\ (forall o, In o (bucket db1) ->
                           String.prefix (kbId ++ "/") (fst o) = false ->
                           In o (bucket (clean_storage e kbId db1)))).
  { intro db1. unfold clean_storage.
    destruct (list_files e) as [files | m]; [| now split].
    destruct (0 <? List.length files)%nat; [| now split].
    destruct (remove_error e); [now split |].
    simpl. split.
    - intros o Ho. now apply filter_In in Ho.
    - intros o Ho Hp. apply filter_In. split; [assumption |].
      apply negb_true_iff. destruct (mem (fst o) _) eqn:M; [| reflexivity].
      apply mem_In in M. apply in_map_iff in M. destruct M as [name [E _]].
      rewrite <- E in Hp.
      change (String.prefix (kbId ++ "/") (kbId ++ "/" ++ name) = false) in Hp.
      rewrite prefix_of_path in Hp. discriminate. }
  unfold delete_base.
  destruct (select_base e db kbId) as [kb | m]; [| now split].
  destruct (is_author profile kb); simpl; [| now split].
  destruct (delete_error e); [now split |].
  cbv zeta.
  match goal with
  | |- context [clean_storage e kbId ?d] => exact (R d)
  end.
Qed.

Lemma delete_base_removes_only_its_folder_witness :
  In ("kb2/7_atlas.pdf", Examples.notes_blob)
     (bucket (snd (delete_base (Examples.services None)
                     (with_object Examples.library "kb2/7_atlas.pdf"
                        Examples.notes_blob)
                     (Some "p1") "kb1"))).
Proof.
  destruct (delete_base_removes_only_its_folder (Examples.services None)
              (with_object Examples.library "kb2/7_atlas.pdf"
                 Examples.notes_blob)
              (Some "p1") "kb1") as [_ H].
  apply H; [right; left; reflexivity | reflexivity].
Defined.

End DocumentFacts.
